(** * EVM wallet viewer backend: a shallow embedding and its properties

    The development embeds [mvp_simple_wallet_tracker_backend.py] and proves
    properties of its helpers ([_is_valid_address], [_fmt_amount],
    [_direction]), of the upstream gateway ([_etherscan]), of the two item
    normalizers and of the request handler ([get_transactions]).

    Conventions of the embedding.
    - A Python [str] is a list of characters; a character is a code point
      below 256 (the Latin-1 range), on which [str.lower], [str.strip] and
      [repr] are modelled exactly.
    - A Python object that comes out of a JSON document is a [value]; JSON
      numbers with a fraction or an exponent (Python floats) are not part of
      the embedding.
    - A computation that can raise returns a [result]; the handler and the
      gateway, which talk to the upstream explorer, additionally thread the
      log of the requests that were sent. *)

From Stdlib Require Import ZArith Ascii String List Bool Lia Permutation Sorted.
Import ListNotations.
Local Open Scope string_scope.
Local Open Scope list_scope.
Local Open Scope Z_scope.
Set Warnings "-register-all".

(* ================================================================== *)
(** * Part I: definitions *)
(* ================================================================== *)

(** ** Python strings *)

Definition pystr := list ascii.

Definition lit (s : string) : pystr := list_ascii_of_string s.
Coercion lit : string >-> pystr.

Definition ord (c : ascii) : Z := Z.of_N (N_of_ascii c).
Definition chr (z : Z) : ascii := ascii_of_N (Z.to_N z).

Fixpoint str_eqb (a b : pystr) : bool :=
  match a, b with
  | [], [] => true
  | x :: a', y :: b' => Ascii.eqb x y && str_eqb a' b'
  | _, _ => false
  end.

(** [str.lower()] on code points below 256: the ASCII capitals and the
    Latin-1 capitals U+00C0..U+00DE (except the multiplication sign U+00D7)
    move up by 32; every other character is kept. *)
Definition lower_char (c : ascii) : ascii :=
  let n := ord c in
  if ((65 <=? n) && (n <=? 90)) || ((192 <=? n) && (n <=? 214))
     || ((216 <=? n) && (n <=? 222))
  then chr (n + 32) else c.

Definition lower (s : pystr) : pystr := map lower_char s.

(** [s.startswith(p)] *)
Fixpoint startswith (s p : pystr) {struct p} : bool :=
  match p, s with
  | [], _ => true
  | x :: p', y :: s' => Ascii.eqb x y && startswith s' p'
  | _ :: _, [] => false
  end.

(** [needle in hay] for two strings: [needle] occurs as a substring. *)
Fixpoint contains (hay needle : pystr) : bool :=
  startswith hay needle ||
  match hay with
  | [] => false
  | _ :: hay' => contains hay' needle
  end.

(** [c in s] for a single character. *)
Definition has_char (c : ascii) (s : pystr) : bool :=
  existsb (Ascii.eqb c) s.

Fixpoint lstrip_chars (chars : pystr) (s : pystr) : pystr :=
  match s with
  | [] => []
  | c :: s' => if has_char c chars then lstrip_chars chars s' else s
  end.

(** [s.rstrip(chars)]: drop the longest suffix made of characters of
    [chars]. *)
Definition rstrip_chars (chars : pystr) (s : pystr) : pystr :=
  rev (lstrip_chars chars (rev s)).

(** [s.split(sep)] for a one-character separator. *)
Fixpoint split (sep : ascii) (s : pystr) : list pystr :=
  match s with
  | [] => [[]]
  | c :: s' =>
      if Ascii.eqb c sep then [] :: split sep s'
      else match split sep s' with
           | [] => [[c]]
           | w :: ws => (c :: w) :: ws
           end
  end.

(** [str.join] *)
Fixpoint join (sep : pystr) (l : list pystr) : pystr :=
  match l with
  | [] => []
  | [x] => x
  | x :: l' => x ++ sep ++ join sep l'
  end.

(** The characters [str.strip()] removes (those with [str.isspace()]). *)
Definition is_space (c : ascii) : bool :=
  let n := ord c in
  ((9 <=? n) && (n <=? 13)) || ((28 <=? n) && (n <=? 32))
  || (n =? 133) || (n =? 160).

(** The characters [int()] accepts around a literal. *)
Definition is_int_space (c : ascii) : bool :=
  let n := ord c in
  ((9 <=? n) && (n <=? 13)) || (n =? 32) || (n =? 133) || (n =? 160).

Fixpoint lstrip_by (f : ascii -> bool) (s : pystr) : pystr :=
  match s with
  | [] => []
  | c :: s' => if f c then lstrip_by f s' else s
  end.

Definition strip_by (f : ascii -> bool) (s : pystr) : pystr :=
  rev (lstrip_by f (rev (lstrip_by f s))).

(** ** Decimal digits *)

Definition is_digit (c : ascii) : bool := (48 <=? ord c) && (ord c <=? 57).

Definition digit_char (d : Z) : ascii := chr (48 + d).
Definition digit_val (c : ascii) : Z := ord c - 48.

Fixpoint digits_fuel (fuel : nat) (n : Z) (acc : pystr) : pystr :=
  match fuel with
  | O => acc
  | S f =>
      let acc' := digit_char (n mod 10) :: acc in
      if n <? 10 then acc' else digits_fuel f (n / 10) acc'
  end.

(** The decimal digits of a natural number, most significant first, with
    no leading zero (and ["0"] for zero). *)
Definition digits (n : Z) : pystr :=
  digits_fuel (S (Z.to_nat (Z.log2 n))) n [].

(** [str(n)] for a Python [int]. *)
Definition str_of_int (n : Z) : pystr :=
  if n <? 0 then "-"%char :: digits (- n) else digits n.

(** The number a string of decimal digits denotes. *)
Definition int_of_digits (ds : pystr) : Z :=
  fold_left (fun a c => 10 * a + digit_val c) ds 0.

Definition zeros (n : nat) : pystr := repeat "0"%char n.

(** [s.zfill(w)] for a digit string. *)
Definition zfill (w : nat) (s : pystr) : pystr :=
  zeros (w - length s) ++ s.

(** ** Exceptions *)

(** What a computation can raise.  [Unhandled] is any Python exception other
    than an [HTTPException] ([KeyError], [TypeError], [ValueError],
    [AttributeError], a [decimal] signal, an [httpx] error, ...): the
    framework answers it with a 500.  [RequestValidationError] is what the
    framework raises for a query parameter outside its declared bounds (it
    answers 422).  [NotModelled] marks an execution the embedding does not
    describe. *)
Inductive exn : Type :=
| HTTPException (status_code : Z) (detail : pystr)
| RequestValidationError
| Unhandled
| NotModelled.

Inductive result (A : Type) : Type :=
| Ok (a : A)
| Raise (e : exn).
Arguments Ok {A} a.
Arguments Raise {A} e.

Definition bind {A B : Type} (m : result A) (k : A -> result B) : result B :=
  match m with
  | Ok a => k a
  | Raise e => Raise e
  end.

Notation "x <- m ;; k" := (bind m (fun x => k))
  (at level 61, m at next level, right associativity).

Fixpoint mapM {A B : Type} (f : A -> result B) (l : list A) : result (list B) :=
  match l with
  | [] => Ok []
  | a :: l' => b <- f a ;; bs <- mapM f l' ;; Ok (b :: bs)
  end.

(** ** Python values *)

(** The objects a JSON document decodes to.  A [VDict] lists the items of
    the dict in insertion order, each key once. *)
Inductive value : Type :=
| VNone
| VBool (b : bool)
| VInt (z : Z)
| VStr (s : pystr)
| VList (l : list value)
| VDict (d : list (pystr * value)).

(** Truth value of an object, as [or] and [if] test it. *)
Definition truthy (v : value) : bool :=
  match v with
  | VNone => false
  | VBool b => b
  | VInt z => negb (z =? 0)
  | VStr s => negb (str_eqb s [])
  | VList l => match l with [] => false | _ => true end
  | VDict d => match d with [] => false | _ => true end
  end.

(** [a or b] *)
Definition py_or (a b : value) : value := if truthy a then a else b.

Fixpoint assoc (k : pystr) (d : list (pystr * value)) : option value :=
  match d with
  | [] => None
  | (k', v) :: d' => if str_eqb k k' then Some v else assoc k d'
  end.

(** [d.get(k, default)]; an object without [get] raises [AttributeError]. *)
Definition py_get (d : value) (k : pystr) (default : value) : result value :=
  match d with
  | VDict kv => Ok (match assoc k kv with Some v => v | None => default end)
  | _ => Raise Unhandled
  end.

(** [d[k]] for a string key: [KeyError] on a dict without the key,
    [TypeError] on any other object. *)
Definition py_getitem (d : value) (k : pystr) : result value :=
  match d with
  | VDict kv => match assoc k kv with Some v => Ok v | None => Raise Unhandled end
  | _ => Raise Unhandled
  end.

(** [v == s] for a string literal [s]. *)
Definition eq_str (v : value) (s : pystr) : bool :=
  match v with
  | VStr t => str_eqb t s
  | _ => false
  end.

(** [for it in v]: the elements of a list, the characters of a string, the
    keys of a dict; other objects are not iterable. *)
Definition py_iter (v : value) : result (list value) :=
  match v with
  | VList l => Ok l
  | VStr s => Ok (map (fun c => VStr [c]) s)
  | VDict d => Ok (map (fun kv => VStr (fst kv)) d)
  | _ => Raise Unhandled
  end.

(** *** [repr] and [str] *)

Definition hex_digit (n : Z) : ascii :=
  if n <? 10 then chr (48 + n) else chr (87 + n).

(** [str.isprintable()] for one character. *)
Definition is_printable (c : ascii) : bool :=
  let n := ord c in
  ((32 <=? n) && (n <=? 126)) || ((161 <=? n) && negb (n =? 173)).

Definition repr_char (quote : ascii) (c : ascii) : pystr :=
  let n := ord c in
  if Ascii.eqb c quote || (n =? 92) then [chr 92; c]
  else if n =? 9 then [chr 92; "t"%char]
  else if n =? 10 then [chr 92; "n"%char]
  else if n =? 13 then [chr 92; "r"%char]
  else if is_printable c then [c]
  else [chr 92; "x"%char; hex_digit (n / 16); hex_digit (n mod 16)].

(** [repr(s)] for a string: single quotes, unless the string holds a single
    quote and no double quote. *)
Definition repr_str (s : pystr) : pystr :=
  let quote :=
    if has_char (chr 39) s && negb (has_char (chr 34) s) then chr 34 else chr 39 in
  quote :: flat_map (repr_char quote) s ++ [quote].

Fixpoint py_repr (v : value) : pystr :=
  match v with
  | VNone => "None"
  | VBool true => "True"
  | VBool false => "False"
  | VInt z => str_of_int z
  | VStr s => repr_str s
  | VList l => "["%char :: join ", " (map py_repr l) ++ ["]"%char]
  | VDict d =>
      "{"%char ::
      join ", " (map (fun kv => repr_str (fst kv) ++ lit ": " ++ py_repr (snd kv)) d)
      ++ ["}"%char]
  end.

(** [str(v)], which is also what an f-string substitutes for [{v}]. *)
Definition py_str (v : value) : pystr :=
  match v with
  | VStr s => s
  | _ => py_repr v
  end.

(** *** [int()] *)

(** The digits of an integer literal after its sign: digits with single
    underscores between them; the result is the digits alone. *)
Fixpoint int_literal_digits (s : pystr) (after_digit : bool) : option pystr :=
  match s with
  | [] => if after_digit then Some [] else None
  | c :: s' =>
      if is_digit c then
        option_map (cons c) (int_literal_digits s' true)
      else if Ascii.eqb c "_" && after_digit then
        match s' with
        | d :: _ => if is_digit d then int_literal_digits s' false else None
        | [] => None
        end
      else None
  end.

(** CPython's default limit on the digits of a string converted to [int]. *)
Definition int_max_str_digits : nat := 4300.

(** [int(s)] for a string. *)
Definition int_of_str (s : pystr) : result Z :=
  let s := strip_by is_int_space s in
  let '(neg, body) :=
    match s with
    | c :: s' =>
        if Ascii.eqb c "-" then (true, s')
        else if Ascii.eqb c "+" then (false, s')
        else (false, s)
    | [] => (false, s)
    end in
  match int_literal_digits body false with
  | Some ds =>
      if (int_max_str_digits <? length ds)%nat then Raise Unhandled
      else Ok (if neg then - int_of_digits ds else int_of_digits ds)
  | None => Raise Unhandled
  end.

(** [int(v)] *)
Definition py_int (v : value) : result Z :=
  match v with
  | VInt z => Ok z
  | VBool b => Ok (if b then 1 else 0)
  | VStr s => int_of_str s
  | _ => Raise Unhandled
  end.

(** ** The [decimal] module

    [Decimal] values are the finite numbers [(-1)^sign * coeff * 10^exp]
    (the module keeps the coefficient as the string [_int] of its digits, so
    [len(self._int)] is [ndigits coeff] here).  The operations follow the
    module's reference implementation under the context the program sets:
    precision 60, rounding [ROUND_HALF_EVEN], exponents between [Emin] and
    [Emax], the [Overflow], [InvalidOperation] and [DivisionByZero] signals
    trapped (they raise), every other signal silent. *)

Record Decimal : Type := mkDecimal {
  dsign : bool;
  coeff : Z;
  dexp : Z
}.

(** [getcontext().prec = 60] *)
Definition prec : Z := 60.
Definition Emax : Z := 999999.
Definition Emin : Z := -999999.
Definition Etiny : Z := Emin - prec + 1.
Definition Etop : Z := Emax - prec + 1.

Definition ndigits (c : Z) : Z := Z.of_nat (length (digits c)).

(** The rounding step of [Decimal._fix]: keep the leading digits of [c] and
    drop its last [k], rounding half to even. *)
Definition round_half_even (c : Z) (k : Z) : Z :=
  let q := c / 10 ^ k in
  let r := c mod 10 ^ k in
  let half := 5 * 10 ^ (k - 1) in
  if (half <? r) || ((r =? half) && Z.odd q) then q + 1 else q.

(** [Decimal._fix(context)]: round to the context's precision and exponent
    range. *)
Definition _fix (a : Decimal) : result Decimal :=
  if coeff a =? 0 then
    Ok (mkDecimal (dsign a) 0 (Z.min (Z.max (dexp a) Etiny) Emax))
  else
    let exp_min := ndigits (coeff a) + dexp a - prec in
    if Etop <? exp_min then Raise Unhandled
    else
      let exp_min := Z.max exp_min Etiny in
      if dexp a <? exp_min then
        let digits := ndigits (coeff a) + dexp a - exp_min in
        let '(c, len, digits) :=
          if digits <? 0 then (1, 1, 0) else (coeff a, ndigits (coeff a), digits) in
        let c' := round_half_even c (len - digits) in
        let '(c', exp_min) :=
          if prec <? ndigits c' then (c' / 10, exp_min + 1) else (c', exp_min) in
        if Etop <? exp_min then Raise Unhandled
        else Ok (mkDecimal (dsign a) c' exp_min)
      else Ok a.

(** The loop [while exp < bound and coeff % 10 == 0: coeff //= 10; exp += 1],
    run with [fuel = bound - exp]. *)
Fixpoint strip_zeros (fuel : nat) (c e : Z) : Z * Z :=
  match fuel with
  | O => (c, e)
  | S f => if c mod 10 =? 0 then strip_zeros f (c / 10) (e + 1) else (c, e)
  end.

(** [Decimal.__truediv__] *)
Definition truediv (a b : Decimal) : result Decimal :=
  let sign := xorb (dsign a) (dsign b) in
  if coeff b =? 0 then Raise Unhandled
  else if coeff a =? 0 then _fix (mkDecimal sign 0 (dexp a - dexp b))
  else
    let shift := ndigits (coeff b) - ndigits (coeff a) + prec + 1 in
    let exp := dexp a - dexp b - shift in
    let '(q, r) :=
      if 0 <=? shift then
        ((coeff a * 10 ^ shift) / coeff b, (coeff a * 10 ^ shift) mod coeff b)
      else
        (coeff a / (coeff b * 10 ^ (- shift)), coeff a mod (coeff b * 10 ^ (- shift))) in
    if negb (r =? 0) then
      _fix (mkDecimal sign (if q mod 5 =? 0 then q + 1 else q) exp)
    else
      let ideal_exp := dexp a - dexp b in
      let '(q, exp) := strip_zeros (Z.to_nat (ideal_exp - exp)) q exp in
      _fix (mkDecimal sign q exp).

(** [Decimal(10) ** Decimal(n)] for [n >= 0]: [10 ** 0] is the constant one;
    otherwise the exact power [1] followed by [min n prec] zeros, with
    exponent [n - min n prec], goes through [_fix] (which rounds it to 60
    digits, or signals [Overflow] above [Emax]). *)
Definition pow10 (n : Z) : result Decimal :=
  if n =? 0 then Ok (mkDecimal false 1 0)
  else
    let z := Z.min n prec in
    _fix (mkDecimal false (10 ^ z) (n - z)).

(** [Decimal.normalize()] *)
Definition normalize (a : Decimal) : result Decimal :=
  dup <- _fix a ;;
  if coeff dup =? 0 then Ok (mkDecimal (dsign dup) 0 0)
  else
    let '(c, e) := strip_zeros (Z.to_nat (Emax - dexp dup)) (coeff dup) (dexp dup) in
    Ok (mkDecimal (dsign dup) c e).

(** [format(d, "f")] for a value [normalize] returned. *)
Definition format_f (a : Decimal) : pystr :=
  let a := if (coeff a =? 0) && (0 <? dexp a) then mkDecimal (dsign a) 0 0 else a in
  let ds := digits (coeff a) in
  let dotplace := dexp a + Z.of_nat (length ds) in
  let '(intpart, fracpart) :=
    if dotplace <? 0 then (lit "0", zeros (Z.to_nat (- dotplace)) ++ ds)
    else if Z.of_nat (length ds) <? dotplace then
      (ds ++ zeros (Z.to_nat (dotplace - Z.of_nat (length ds))), [])
    else
      let i := firstn (Z.to_nat dotplace) ds in
      (match i with [] => lit "0" | _ => i end, skipn (Z.to_nat dotplace) ds) in
  (if dsign a then lit "-" else []) ++ intpart ++
  match fracpart with
  | [] => []
  | _ => "."%char :: fracpart
  end.

(** *** [Decimal(s)] for a string *)

Fixpoint span_digits (s : pystr) : pystr * pystr :=
  match s with
  | c :: s' =>
      if is_digit c then let '(d, r) := span_digits s' in (c :: d, r)
      else ([], s)
  | [] => ([], [])
  end.

Definition take_sign (s : pystr) : bool * pystr :=
  match s with
  | c :: s' =>
      if Ascii.eqb c "-" then (true, s')
      else if Ascii.eqb c "+" then (false, s')
      else (false, s)
  | [] => (false, s)
  end.

(** The exponent part of a numeric string: empty, or [E], a sign and
    digits. *)
Definition parse_exponent (s : pystr) : option Z :=
  match s with
  | [] => Some 0
  | c :: s' =>
      if Ascii.eqb (lower_char c) "e" then
        let '(neg, s2) := take_sign s' in
        let '(ds, rest) := span_digits s2 in
        match ds, rest with
        | _ :: _, [] => Some (if neg then - int_of_digits ds else int_of_digits ds)
        | _, _ => None
        end
      else None
  end.

(** The special values of the numeric-string syntax: [Inf], [Infinity],
    [NaN] and [sNaN] with diagnostic digits, in any case. *)
Definition is_special_literal (s : pystr) : bool :=
  let s := lower s in
  str_eqb s "inf" || str_eqb s "infinity" ||
  (startswith s "nan" && forallb is_digit (skipn 3 s)) ||
  (startswith s "snan" && forallb is_digit (skipn 4 s)).

(** The widest exponent range of the module: a conversion is exact, and is
    refused when its result does not fit this range. *)
Definition MAX_EMAX : Z := 999999999999999999.
Definition MIN_ETINY : Z := -1999999999999999997.

(** [Decimal(s)]: surrounding whitespace and all underscores are dropped;
    then a sign, digits with an optional fraction, and an optional exponent.
    The conversion is exact (the context is not applied).  Infinities and
    NaNs are outside the embedding; any other string raises
    [InvalidOperation]. *)
Definition Decimal_of_str (s : pystr) : result Decimal :=
  let s := strip_by is_space s in
  let s := filter (fun c => negb (Ascii.eqb c "_")) s in
  let '(neg, s1) := take_sign s in
  let '(ip, s2) := span_digits s1 in
  let '(fp, s3) :=
    match s2 with
    | c :: s2' => if Ascii.eqb c "." then span_digits s2' else ([], s2)
    | [] => ([], s2)
    end in
  match ip ++ fp with
  | [] => if is_special_literal s1 then Raise NotModelled else Raise Unhandled
  | ds =>
      match parse_exponent s3 with
      | Some e =>
          let c := int_of_digits ds in
          let e := e - Z.of_nat (length fp) in
          if (e <? MIN_ETINY) || (MAX_EMAX <? e + ndigits c - 1) then Raise Unhandled
          else Ok (mkDecimal neg c e)
      | None => Raise Unhandled
      end
  end.

(** [Decimal(v)]: exact for strings, ints and bools; a list stands for a
    (sign, digits, exponent) triple, which is outside the embedding; [None]
    and dicts raise [TypeError]. *)
Definition Decimal_of (v : value) : result Decimal :=
  match v with
  | VStr s => Decimal_of_str s
  | VInt z => Ok (mkDecimal (z <? 0) (Z.abs z) 0)
  | VBool b => Ok (mkDecimal false (if b then 1 else 0) 0)
  | VList _ => Raise NotModelled
  | VNone | VDict _ => Raise Unhandled
  end.

(** ** Helpers of the backend *)

(** [_fmt_amount(raw, decimals)] *)
Definition _fmt_amount (raw : value) (decimals : Z) : result pystr :=
  d <- (if 0 <=? decimals then
          a <- Decimal_of raw ;;
          p <- pow10 decimals ;;
          truediv a p
        else Decimal_of raw) ;;
  n <- normalize d ;;
  let s := format_f n in
  let s := if has_char "." s then rstrip_chars "." (rstrip_chars "0" s) else s in
  Ok (match s with [] => lit "0" | _ => s end).

(** [_wei_to_eth(wei)] *)
Definition _wei_to_eth (wei : value) : result pystr := _fmt_amount wei 18.

(** *** Address syntax *)

(** The fragment of regular expressions [ADDR_RE] is written in. *)
Inductive re_atom : Type :=
| Caret
| Dollar
| Chr (c : ascii)
| Times (n : nat) (cls : ascii -> bool).

(** Consume exactly [n] characters of the class. *)
Fixpoint take_class (n : nat) (cls : ascii -> bool) (s : pystr) : option pystr :=
  match n with
  | O => Some s
  | S n' =>
      match s with
      | c :: s' => if cls c then take_class n' cls s' else None
      | [] => None
      end
  end.

(** [pattern.match(s)], as a truth value, read from the position [s] starts
    at; [at_start] says that this position is the beginning of the subject.
    Without [re.MULTILINE], [^] matches at the beginning only, and [$]
    matches at the end of the subject and also just before a newline that
    is its last character. *)
Fixpoint re_match_from (pat : list re_atom) (at_start : bool) (s : pystr) : bool :=
  match pat with
  | [] => true
  | Caret :: pat' => at_start && re_match_from pat' at_start s
  | Dollar :: pat' =>
      (str_eqb s [] || str_eqb s [chr 10]) && re_match_from pat' at_start s
  | Chr c :: pat' =>
      match s with
      | c' :: s' => Ascii.eqb c c' && re_match_from pat' false s'
      | [] => false
      end
  | Times n cls :: pat' =>
      match take_class n cls s with
      | Some s' => re_match_from pat' (at_start && Nat.eqb n 0) s'
      | None => false
      end
  end.

Definition re_match (pat : list re_atom) (s : pystr) : bool :=
  re_match_from pat true s.

(** The class [[0-9a-fA-F]] *)
Definition is_hex (c : ascii) : bool :=
  let n := ord c in
  ((48 <=? n) && (n <=? 57)) || ((97 <=? n) && (n <=? 102))
  || ((65 <=? n) && (n <=? 70)).

(** [ADDR_RE = re.compile(r"^0x[0-9a-fA-F]{40}$")] *)
Definition ADDR_RE : list re_atom :=
  [Caret; Chr "0"; Chr "x"; Times 40 is_hex; Dollar].

(** [_is_valid_address(addr)] *)
Definition _is_valid_address (addr : pystr) : bool :=
  re_match ADDR_RE addr.

(** *** Timestamps *)

(** The civil date (year, month, day) of a day number counted from
    1970-01-01, in the proleptic Gregorian calendar. *)
Definition civil_from_days (days : Z) : Z * Z * Z :=
  let z := days + 719468 in
  let era := z / 146097 in
  let doe := z - era * 146097 in
  let yoe := (doe - doe / 1460 + doe / 36524 - doe / 146096) / 365 in
  let doy := doe - (365 * yoe + yoe / 4 - yoe / 100) in
  let mp := (5 * doy + 2) / 153 in
  let d := doy - (153 * mp + 2) / 5 + 1 in
  let m := if mp <? 10 then mp + 3 else mp - 9 in
  let y := yoe + era * 400 + (if m <=? 2 then 1 else 0) in
  (y, m, d).

Definition pad (w : nat) (n : Z) : pystr := zfill w (digits n).

(** [_iso_utc(ts)]: [datetime.fromtimestamp] accepts the years 1 to 9999. *)
Definition _iso_utc (ts : Z) : result pystr :=
  if (ts <? -62135596800) || (253402300799 <? ts) then Raise Unhandled
  else
    let '(y, m, d) := civil_from_days (ts / 86400) in
    let secs := ts mod 86400 in
    Ok (pad 4 y ++ lit "-" ++ pad 2 m ++ lit "-" ++ pad 2 d ++ lit "T" ++
        pad 2 (secs / 3600) ++ lit ":" ++ pad 2 (secs mod 3600 / 60) ++ lit ":" ++
        pad 2 (secs mod 60) ++ lit "Z").

(** *** Direction *)

(** [(v or "").lower()]: a truthy object that is not a string has no
    [lower]. *)
Definition or_empty_lower (v : value) : result pystr :=
  match py_or v (VStr []) with
  | VStr s => Ok (lower s)
  | _ => Raise Unhandled
  end.

(** [_direction(me, from_addr, to_addr)] *)
Definition _direction (me from_addr to_addr : value) : result pystr :=
  me <- or_empty_lower me ;;
  f <- or_empty_lower from_addr ;;
  if str_eqb f me then Ok (lit "out")
  else
    t <- or_empty_lower to_addr ;;
    if str_eqb t me then Ok (lit "in")
    else Ok (lit "other").

(** ** The upstream gateway *)

(** What the HTTP GET of the gateway produces: a decoded JSON body, or a
    failure of the transport ([httpx] raising on a timeout, a connection
    error, a non-2xx status in [raise_for_status], or an undecodable
    body). *)
Inductive reply : Type :=
| TransportFailure
| Body (data : value).

(** The explorer, seen from the gateway: a reply for each query. *)
Definition upstream : Type := value -> reply.

(** Computations that talk to the explorer thread the log of the queries
    sent so far. *)
Definition Eff (A : Type) : Type := list value -> result A * list value.

Definition ret {A : Type} (a : A) : Eff A := fun log => (Ok a, log).

Definition raise {A : Type} (e : exn) : Eff A := fun log => (Raise e, log).

Definition lift {A : Type} (r : result A) : Eff A := fun log => (r, log).

Definition bindE {A B : Type} (m : Eff A) (k : A -> Eff B) : Eff B :=
  fun log =>
    match m log with
    | (Ok a, log') => k a log'
    | (Raise e, log') => (Raise e, log')
    end.

Notation "x <~ m ;; k" := (bindE m (fun x => k))
  (at level 61, m at next level, right associativity).

(** [client.get(API_BASE, params=q)], [raise_for_status()] and [json()] *)
Definition http_get (net : upstream) (q : value) : Eff value :=
  fun log =>
    (match net q with
     | Body data => Ok data
     | TransportFailure => Raise Unhandled
     end, log ++ [q]).

Definition ETHERSCAN_API_KEY : pystr := "WKVUI6DNJYCWF5YGT8QBA1Y5QU21528PQE".

Fixpoint assoc_set (k : pystr) (v : value) (d : list (pystr * value))
  : list (pystr * value) :=
  match d with
  | [] => [(k, v)]
  | (k', v') :: d' =>
      if str_eqb k k' then (k, v) :: d' else (k', v') :: assoc_set k v d'
  end.

(** [q = dict(params); q[k] = v] *)
Definition dict_with (params : value) (k : pystr) (v : value) : result value :=
  match params with
  | VDict d => Ok (VDict (assoc_set k v d))
  | _ => Raise Unhandled
  end.

(** [str(data.get(k, default))] *)
Definition str_field (data : value) (k : pystr) (default : value) : result pystr :=
  v <- py_get data k default ;;
  Ok (py_str v).

(** Lines 77 to 93 of [_etherscan]: the translation of the decoded body. *)
Definition translate_body (data : value) : result value :=
  status <- str_field data "status" VNone ;;
  message <- str_field data "message" (VStr []) ;;
  if str_eqb status "0" && str_eqb message "NOTOK" then
    r <- py_get data "result" VNone ;;
    let detail := py_str (py_or r (VStr "Etherscan NOTOK")) in
    if contains (lower detail) "rate limit" then
      Raise (HTTPException 429 (lit "Etherscan: " ++ detail))
    else
      Raise (HTTPException 502 (lit "Etherscan error: " ++ detail))
  else if str_eqb status "0" && startswith (lower message) "no transactions" then
    Ok (VDict [(lit "status", VStr "1"); (lit "result", VList [])])
  else
    Ok data.

(** [_etherscan(params)] *)
Definition _etherscan (net : upstream) (params : value) : Eff value :=
  if negb (truthy (VStr ETHERSCAN_API_KEY)) || startswith ETHERSCAN_API_KEY "PASTE_" then
    raise (HTTPException 500 "Server is not configured with an Etherscan API key.")
  else
    q <~ lift (dict_with params "apikey" (VStr ETHERSCAN_API_KEY)) ;;
    data <~ http_get net q ;;
    lift (translate_body data).

(** ** The item normalizers *)

(** [_normalize_eth_item(me, it)] *)
Definition _normalize_eth_item (me : pystr) (it : value) : result value :=
  t <- py_getitem it "timeStamp" ;;
  ts <- py_int t ;;
  e <- py_get it "isError" VNone ;;
  let is_error := eq_str e "1" in
  tx_status <-
    (if is_error then Ok (lit "failed")
     else
       r <- py_get it "txreceipt_status" VNone ;;
       Ok (if eq_str r "1" then lit "success" else lit "unknown")) ;;
  f <- py_get it "functionName" VNone ;;
  fn <-
    match py_or f (VStr []) with
    | VStr s => Ok (hd [] (split "(" s))
    | _ => Raise Unhandled
    end ;;
  time_utc <- _iso_utc ts ;;
  hash <- py_getitem it "hash" ;;
  from <- py_get it "from" VNone ;;
  to <- py_get it "to" VNone ;;
  from' <- py_get it "from" (VStr []) ;;
  to' <- py_get it "to" (VStr []) ;;
  direction <- _direction (VStr me) from' to' ;;
  value <- py_get it "value" (VStr "0") ;;
  amount <- _wei_to_eth value ;;
  hash' <- py_getitem it "hash" ;;
  Ok (VDict [
    (lit "type", VStr "ETH");
    (lit "timestamp", VInt ts);
    (lit "time_utc", VStr time_utc);
    (lit "hash", hash);
    (lit "from", from);
    (lit "to", to);
    (lit "direction", VStr direction);
    (lit "amount", VStr amount);
    (lit "symbol", VStr "ETH");
    (lit "functionName", VStr fn);
    (lit "status", VStr tx_status);
    (lit "link", VStr (lit "https://etherscan.io/tx/" ++ py_str hash'))
  ]).

(** [_normalize_erc20_item(me, it)] *)
Definition _normalize_erc20_item (me : pystr) (it : value) : result value :=
  t <- py_getitem it "timeStamp" ;;
  ts <- py_int t ;;
  td <- py_get it "tokenDecimal" VNone ;;
  decimals <- py_int (py_or td (VInt 0)) ;;
  tsym <- py_get it "tokenSymbol" VNone ;;
  let symbol := py_or tsym (VStr "TOKEN") in
  time_utc <- _iso_utc ts ;;
  hash <- py_getitem it "hash" ;;
  from <- py_get it "from" VNone ;;
  to <- py_get it "to" VNone ;;
  from' <- py_get it "from" (VStr []) ;;
  to' <- py_get it "to" (VStr []) ;;
  direction <- _direction (VStr me) from' to' ;;
  value <- py_get it "value" (VStr "0") ;;
  amount <- _fmt_amount value decimals ;;
  contract <- py_get it "contractAddress" VNone ;;
  hash' <- py_getitem it "hash" ;;
  Ok (VDict [
    (lit "type", VStr "ERC20");
    (lit "timestamp", VInt ts);
    (lit "time_utc", VStr time_utc);
    (lit "hash", hash);
    (lit "from", from);
    (lit "to", to);
    (lit "direction", VStr direction);
    (lit "amount", VStr amount);
    (lit "symbol", symbol);
    (lit "tokenContract", contract);
    (lit "functionName", VStr []);
    (lit "link", VStr (lit "https://etherscan.io/tx/" ++ py_str hash'))
  ]).

(** ** The request handler *)

(** The key of the sort, [x["timestamp"]]; the embedding orders integer
    keys only. *)
Definition sort_key (x : value) : result Z :=
  k <- py_getitem x "timestamp" ;;
  match k with
  | VInt z => Ok z
  | _ => Raise NotModelled
  end.

(** Insertion of a keyed element in front of a list sorted by decreasing
    key: it goes behind the elements with a larger key and in front of those
    with an equal or smaller key. *)
Fixpoint insert_desc (x : Z * value) (l : list (Z * value)) : list (Z * value) :=
  match l with
  | [] => [x]
  | y :: l' => if fst x <? fst y then y :: insert_desc x l' else x :: l
  end.

(** [list.sort(key=..., reverse=True)] on the list with its keys: the sort
    is stable, also when reversed, so elements with equal keys keep the
    order they had. *)
Definition sort_desc (l : list (Z * value)) : list (Z * value) :=
  fold_right insert_desc [] l.

(** [l[:n]] *)
Definition slice_to (n : Z) (l : list value) : list value :=
  if 0 <=? n then firstn (Z.to_nat n) l
  else firstn (length l - Z.to_nat (- n)) l.

(** [sum(1 for x in l if x["type"] == ty)] *)
Definition count_type (ty : pystr) (l : list value) : result Z :=
  tys <- mapM (fun x => py_getitem x "type") l ;;
  Ok (Z.of_nat (length (filter (fun t => eq_str t ty) tys))).

Definition txlist_params (address : pystr) (limit : Z) : value :=
  VDict [
    (lit "module", VStr "account"); (lit "action", VStr "txlist");
    (lit "address", VStr address);
    (lit "startblock", VInt 0); (lit "endblock", VInt 99999999);
    (lit "page", VInt 1); (lit "offset", VInt limit); (lit "sort", VStr "desc")
  ].

Definition tokentx_params (address : pystr) (limit : Z) : value :=
  VDict [
    (lit "module", VStr "account"); (lit "action", VStr "tokentx");
    (lit "address", VStr address);
    (lit "page", VInt 1); (lit "offset", VInt limit); (lit "sort", VStr "desc")
  ].

(** The detail of the 400 answer.  The literal of the source holds one
    character above the Latin-1 range (U+20AC); it stands here as 128, its
    Windows-1252 byte. *)
Definition invalid_address_detail : pystr :=
  lit "Invalid address. Expected a 0x" ++ [chr 226; chr 128; chr 166]
  ++ lit " EVM address.".

(** The merge of the two normalized lists, lines 162 to 176. *)
Definition merge_feed (address : pystr) (limit : Z) (eth_items erc20_items : list value)
  : result value :=
  let combined := eth_items ++ erc20_items in
  keys <- mapM sort_key combined ;;
  let combined := map snd (sort_desc (List.combine keys combined)) in
  let latest := slice_to limit combined in
  n_eth <- count_type "ETH" latest ;;
  n_erc20 <- count_type "ERC20" latest ;;
  Ok (VDict [
    (lit "address", VStr address);
    (lit "returned", VInt (Z.of_nat (length latest)));
    (lit "counts", VDict [(lit "ETH", VInt n_eth); (lit "ERC20", VInt n_erc20)]);
    (lit "items", VList latest)
  ]).

(** The query parameter [limit: int = Query(25, ge=1, le=200)]: 25 when the
    request has none; the framework rejects a value outside the bounds
    before it calls the function. *)
Definition query_limit (limit : option Z) : result Z :=
  match limit with
  | None => Ok 25
  | Some n => if (n <? 1) || (200 <? n) then Raise RequestValidationError else Ok n
  end.

(** [get_transactions(address, limit)], the endpoint [/api/transactions]. *)
Definition get_transactions (net : upstream) (address : pystr) (limit : option Z)
  : Eff value :=
  limit <~ lift (query_limit limit) ;;
  if negb (_is_valid_address address) then
    raise (HTTPException 400 invalid_address_detail)
  else
    txlist <~ _etherscan net (txlist_params address limit) ;;
    r1 <~ lift (py_get txlist "result" (VList [])) ;;
    its1 <~ lift (py_iter r1) ;;
    eth_items <~ lift (mapM (_normalize_eth_item address) its1) ;;
    tokentx <~ _etherscan net (tokentx_params address limit) ;;
    r2 <~ lift (py_get tokentx "result" (VList [])) ;;
    its2 <~ lift (py_iter r2) ;;
    erc20_items <~ lift (mapM (_normalize_erc20_item address) its2) ;;
    lift (merge_feed address limit eth_items erc20_items).

(** ** Vocabulary of the statements *)

(** Two strings are equal up to case when they lower to the same string. *)
Definition eq_ci (a b : pystr) : Prop := lower a = lower b.

(** [p] is a prefix of [s] up to case. *)
Definition prefix_ci (p s : pystr) : Prop :=
  exists a r, s = a ++ r /\ eq_ci a p.

(** [n] occurs in [s] up to case. *)
Definition contains_ci (s n : pystr) : Prop :=
  exists a m b, s = a ++ m ++ b /\ eq_ci m n.

(** The direction of a normalized item is [_direction] of the queried
    address and the record's [from] and [to] (the empty string when the
    record has none). *)
Definition item_direction_ok (normalizer : pystr -> value -> result value) : Prop :=
  forall (me : pystr) (it item : value),
    normalizer me it = Ok item ->
    exists f t d,
      py_get it "from" (VStr []) = Ok f /\ py_get it "to" (VStr []) = Ok t /\
      _direction (VStr me) f t = Ok d /\
      py_getitem item "direction" = Ok (VStr d).

(** [detail] carries the text [r]: [r] occurs in it. *)
Definition carries (detail r : pystr) : Prop :=
  exists a b, detail = a ++ r ++ b.

(** The explorer answers the query the gateway builds from [params] with
    the JSON body [data]. *)
Definition answers (net : upstream) (params q data : value) : Prop :=
  dict_with params "apikey" (VStr ETHERSCAN_API_KEY) = Ok q /\ net q = Body data.

(** The body has the given status and message, as the gateway reads them. *)
Definition status_message (data : value) (status message : pystr) : Prop :=
  str_field data "status" VNone = Ok status /\
  str_field data "message" (VStr []) = Ok message.

(** A body with status "0" and a message the gateway knows no rule for, and
    an explorer that answers every query with it. *)
Definition unknown_failure_body : value :=
  VDict [(lit "status", VStr "0"); (lit "message", VStr "Unexpected error");
         (lit "result", VStr "boom")].

Definition unknown_failure_net : upstream := fun _ => Body unknown_failure_body.

Definition sample_address : pystr := "0x00000000219ab540356cBB839Cbe05303d7705Fa".

(** An address in the syntax the handler means to accept: "0x" and 40
    hexadecimal characters. *)
Definition is_address (s : pystr) : Prop :=
  exists h, s = "0"%char :: "x"%char :: h /\ length h = 40%nat /\
            Forall (fun c => is_hex c = true) h.

(** A well-formed address followed by a newline. *)
Definition newline_address : pystr := sample_address ++ [chr 10].

(** An explorer that knows no transaction of any address. *)
Definition empty_net : upstream := fun _ =>
  Body (VDict [(lit "status", VStr "0"); (lit "message", VStr "No transactions found");
               (lit "result", VList [])]).

(** The timestamp and the category of a normalized item. *)
Definition timestamp_of (x : value) : Z :=
  match sort_key x with Ok z => z | Raise _ => 0 end.

Definition type_of (x : value) : value :=
  match py_getitem x "type" with Ok t => t | Raise _ => VNone end.

Definition count_of (ty : pystr) (l : list value) : Z :=
  Z.of_nat (length (filter (fun x => eq_str (type_of x) ty) l)).

(** The feed the handler answers with, given the items it returns. *)
Definition feed (address : pystr) (latest : list value) : value :=
  VDict [
    (lit "address", VStr address);
    (lit "returned", VInt (Z.of_nat (length latest)));
    (lit "counts", VDict [(lit "ETH", VInt (count_of "ETH" latest));
                          (lit "ERC20", VInt (count_of "ERC20" latest))]);
    (lit "items", VList latest)
  ].

(** An object with an integer timestamp and a category, as the normalizers
    build them. *)
Definition is_item (x : value) : Prop :=
  exists ts ty, sort_key x = Ok ts /\ py_getitem x "type" = Ok (VStr ty).

(** Decreasing timestamps. *)
Definition newer_first (x y : value) : Prop := timestamp_of y <= timestamp_of x.

Definition desc (a b : Z * value) : Prop := fst b <= fst a.

(** The items of the list with timestamp [t], in the order of the list. *)
Definition at_time (t : Z) (l : list value) : list value :=
  filter (fun x => timestamp_of x =? t) l.

(** What the handler gets from the two gateway calls of a request that goes
    through: the bodies [b1] and [b2] answer the two queries, the gateway
    turns them into results, and every record of the results normalizes. *)
Definition fetched (net : upstream) (address : pystr) (N : Z)
    (q1 q2 : value) (eth_items erc20_items : list value) : Prop :=
  exists b1 b2 r1 r2 its1 its2,
    answers net (txlist_params address N) q1 b1 /\
    translate_body b1 = Ok r1 /\
    (r <- py_get r1 "result" (VList []) ;; py_iter r) = Ok its1 /\
    mapM (_normalize_eth_item address) its1 = Ok eth_items /\
    answers net (tokentx_params address N) q2 b2 /\
    translate_body b2 = Ok r2 /\
    (r <- py_get r2 "result" (VList []) ;; py_iter r) = Ok its2 /\
    mapM (_normalize_erc20_item address) its2 = Ok erc20_items.

(** Raw records of the explorer, with the fields the normalizers read. *)
Definition native_record (ts : pystr) : value :=
  VDict [(lit "timeStamp", VStr ts); (lit "hash", VStr "0xabc");
         (lit "from", VStr "0x00000000219AB540356CBB839CBE05303D7705FA");
         (lit "to", VStr "0xb"); (lit "value", VStr "1500000000000000000");
         (lit "isError", VStr "0"); (lit "txreceipt_status", VStr "1");
         (lit "functionName", VStr "transfer(address to, uint256 v)")].

Definition token_record (ts : pystr) : value :=
  VDict [(lit "timeStamp", VStr ts); (lit "hash", VStr "0xdef");
         (lit "from", VStr "0xc"); (lit "to", VStr sample_address);
         (lit "value", VStr "1234567"); (lit "tokenDecimal", VStr "6");
         (lit "tokenSymbol", VStr "USDC"); (lit "contractAddress", VStr "0xa0b8")].

Definition ok_body (records : list value) : value :=
  VDict [(lit "status", VStr "1"); (lit "message", VStr "OK");
         (lit "result", VList records)].

(** An explorer with native-coin records at times 100 and 50 and a token
    record at time 80. *)
Definition sample_net : upstream := fun q =>
  match py_get q "action" VNone with
  | Ok (VStr a) =>
      if str_eqb a "txlist" then Body (ok_body [native_record "100"; native_record "50"])
      else Body (ok_body [token_record "80"])
  | _ => TransportFailure
  end.

(** The combined list in the order the handler sorts it into. *)
Definition sorted_feed (l : list value) : list value :=
  map snd (sort_desc (List.combine (map timestamp_of l) l)).

(** The items the sample records normalize to. *)
Definition item_or_none (r : result value) : value :=
  match r with Ok v => v | Raise _ => VNone end.

Definition x100 : value :=
  item_or_none (_normalize_eth_item sample_address (native_record "100")).
Definition x50 : value :=
  item_or_none (_normalize_eth_item sample_address (native_record "50")).
Definition x80 : value :=
  item_or_none (_normalize_erc20_item sample_address (token_record "80")).

(** Reading a plain decimal numeral: digits, or digits, a point and
    digits.  [Some (n, f)] says that the numeral denotes [n / 10^f]. *)
Definition read_decimal (s : pystr) : option (Z * Z) :=
  let '(ip, rest) := span_digits s in
  match ip, rest with
  | [], _ => None
  | _ :: _, [] => Some (int_of_digits ip, 0)
  | _ :: _, c :: fp =>
      match fp with
      | [] => None
      | _ :: _ =>
          if Ascii.eqb c "." && forallb is_digit fp
          then Some (int_of_digits (ip ++ fp), Z.of_nat (length fp))
          else None
      end
  end.

(** The string ends with a digit other than 0. *)
Definition ends_nonzero (s : pystr) : Prop :=
  exists s' r, s = s' ++ [digit_char r] /\ 1 <= r <= 9.

(** [2^256 - 1], the largest amount a token transfer can carry; it has 78
    digits. *)
Definition uint256_max : pystr :=
  "115792089237316195423570985008687907853269984665640564039457584007913129639935".

(** The query the gateway sends for [params]. *)
Definition with_apikey (params : value) : value :=
  item_or_none (dict_with params "apikey" (VStr ETHERSCAN_API_KEY)).

(** The body the explorer sends when its rate limit is hit, and an explorer
    that answers every query with it. *)
Definition rate_limited_body : value :=
  VDict [(lit "status", VStr "0"); (lit "message", VStr "NOTOK");
         (lit "result", VStr "Max rate limit reached")].

Definition rate_limited_net : upstream := fun _ => Body rate_limited_body.

Definition no_transactions_body : value :=
  VDict [(lit "status", VStr "0"); (lit "message", VStr "No transactions found");
         (lit "result", VList [])].

(** *** Well-formed records *)

(** A base-unit amount the formatter renders exactly: decimal digits, at
    most 60 of them significant. *)
Definition base_units (s : pystr) : Prop :=
  s <> [] /\ forallb is_digit s = true /\ Z.of_nat (length s) <= Emax + 1 /\
  exists c z, int_of_digits s = c * 10 ^ z /\ 0 <= z /\ 0 <= c < 10 ^ prec.

(** A timestamp in unix seconds, written with digits, up to the end of the
    year 9999. *)
Definition unix_time (t : pystr) : Prop :=
  t <> [] /\ forallb is_digit t = true /\ (length t <= int_max_str_digits)%nat /\
  int_of_digits t <= 253402300799.

(** A field that holds a string, or [null], or is missing. *)
Definition text_or_absent (o : option value) : Prop :=
  o = None \/ o = Some VNone \/ exists s, o = Some (VStr s).

(** A native-coin record as the explorer sends them. *)
Definition native_record_ok (it : value) : Prop :=
  exists d,
    it = VDict d /\
    (exists t, assoc "timeStamp" d = Some (VStr t) /\ unix_time t) /\
    (exists h, assoc "hash" d = Some h) /\
    text_or_absent (assoc "from" d) /\ text_or_absent (assoc "to" d) /\
    text_or_absent (assoc "functionName" d) /\
    (assoc "value" d = None \/ exists v, assoc "value" d = Some (VStr v) /\ base_units v).

(** A token-transfer record as the explorer sends them. *)
Definition token_record_ok (it : value) : Prop :=
  exists d,
    it = VDict d /\
    (exists t, assoc "timeStamp" d = Some (VStr t) /\ unix_time t) /\
    (exists h, assoc "hash" d = Some h) /\
    text_or_absent (assoc "from" d) /\ text_or_absent (assoc "to" d) /\
    (assoc "tokenDecimal" d = None \/
     exists n, assoc "tokenDecimal" d = Some (VStr n) /\ n <> [] /\
               forallb is_digit n = true /\ (length n <= int_max_str_digits)%nat /\
               int_of_digits n <= Emax) /\
    (assoc "value" d = None \/ exists v, assoc "value" d = Some (VStr v) /\ base_units v).

(** *** Vocabulary of the further properties *)

(** A plain decimal numeral: an optional minus sign, digits, and optionally
    a point followed by digits of which the last is not 0. *)
Definition plain_numeral (out : pystr) : Prop :=
  exists sign ip fp,
    out = sign ++ ip ++ match fp with [] => [] | _ :: _ => "."%char :: fp end /\
    (sign = [] \/ sign = lit "-") /\
    ip <> [] /\ forallb is_digit ip = true /\ forallb is_digit fp = true /\
    (fp = [] \/ last fp "1"%char <> "0"%char).

(** *** Reading a timestamp string back *)

(** The part of [civil_from_days] after the split into 400-year eras: the
    year of the era (counted from March), the month and the day of a day
    of the era. *)
Definition civil_of_doe (doe : Z) : Z * Z * Z :=
  let yoe := (doe - doe / 1460 + doe / 36524 - doe / 146096) / 365 in
  let doy := doe - (365 * yoe + yoe / 4 - yoe / 100) in
  let mp := (5 * doy + 2) / 153 in
  let d := doy - (153 * mp + 2) / 5 + 1 in
  let m := if mp <? 10 then mp + 3 else mp - 9 in
  (yoe, m, d).

(** The day number, counted from 1970-01-01, of a civil date. *)
Definition days_from_civil (y m d : Z) : Z :=
  let y' := if m <=? 2 then y - 1 else y in
  let era := y' / 400 in
  let yoe := y' - era * 400 in
  let doy := (153 * (if m <=? 2 then m + 9 else m - 3) + 2) / 5 + d - 1 in
  let doe := yoe * 365 + yoe / 4 - yoe / 100 + doy in
  era * 146097 + doe - 719468.

(** The number written in the columns [from .. from + len - 1]. *)
Definition field (s : pystr) (from len : nat) : Z :=
  int_of_digits (firstn len (skipn from s)).

(** The unix time a string [YYYY-MM-DDThh:mm:ssZ] denotes. *)
Definition read_iso (s : pystr) : Z :=
  days_from_civil (field s 0 4) (field s 5 2) (field s 8 2) * 86400 +
  field s 11 2 * 3600 + field s 14 2 * 60 + field s 17 2.

(** The layout [YYYY-MM-DDThh:mm:ssZ]. *)
Definition iso_layout (s : pystr) : Prop :=
  exists Y M D h m e,
    s = Y ++ lit "-" ++ M ++ lit "-" ++ D ++ lit "T" ++
        h ++ lit ":" ++ m ++ lit ":" ++ e ++ lit "Z" /\
    length Y = 4%nat /\ length M = 2%nat /\ length D = 2%nat /\
    length h = 2%nat /\ length m = 2%nat /\ length e = 2%nat /\
    forallb is_digit (Y ++ M ++ D ++ h ++ m ++ e) = true.

(** *** The request as a function of the explorer's replies *)

(** What a gateway call makes of the reply to the query [q]. *)
Definition gateway_result (net : upstream) (q : value) : result value :=
  match net q with
  | Body data => translate_body data
  | TransportFailure => Raise Unhandled
  end.

(** [body.get("result", [])], iterated. *)
Definition records_of (body : value) : result (list value) :=
  r <- py_get body "result" (VList []) ;; py_iter r.

(** The normalized native-coin items and token items of a request. *)
Definition eth_fetch (net : upstream) (address : pystr) (N : Z) : result (list value) :=
  body <- gateway_result net (with_apikey (txlist_params address N)) ;;
  its <- records_of body ;;
  mapM (_normalize_eth_item address) its.

Definition erc20_fetch (net : upstream) (address : pystr) (N : Z) : result (list value) :=
  body <- gateway_result net (with_apikey (tokentx_params address N)) ;;
  its <- records_of body ;;
  mapM (_normalize_erc20_item address) its.

(** A computation that raises nothing but exceptions no handler of the
    backend catches. *)
Definition only_plain {A : Type} (r : result A) : Prop :=
  match r with
  | Ok _ => True
  | Raise e => e = Unhandled \/ e = NotModelled
  end.

(** The two failures the gateway signals itself. *)
Definition gateway_failure (e : exn) : Prop :=
  exists detail,
    (e = HTTPException 429 (lit "Etherscan: " ++ detail) /\
     contains (lower detail) "rate limit" = true) \/
    (e = HTTPException 502 (lit "Etherscan error: " ++ detail) /\
     contains (lower detail) "rate limit" = false).

(** The limit a request asks for. *)
Definition asked_limit (limit : option Z) : Z :=
  match limit with Some n => n | None => 25 end.

(** An explorer that cannot be reached. *)
Definition unreachable_net : upstream := fun _ => TransportFailure.

(** A record without a timestamp, and an explorer that sends it after a
    well-formed one. *)
Definition untimed_record : value :=
  VDict [(lit "hash", VStr "0xabc"); (lit "value", VStr "1")].

Definition untimed_net : upstream := fun _ =>
  Body (ok_body [native_record "100"; untimed_record]).

(** An explorer that knows two native-coin transfers of the address and no
    token transfer. *)
Definition native_only_net : upstream := fun q =>
  match py_get q "action" VNone with
  | Ok (VStr a) =>
      if str_eqb a "txlist" then Body (ok_body [native_record "100"; native_record "50"])
      else Body no_transactions_body
  | _ => TransportFailure
  end.

(** A token record that names neither its decimals nor its symbol. *)
Definition bare_token_record : value :=
  VDict [(lit "timeStamp", VStr "80"); (lit "hash", VStr "0xdef");
         (lit "from", VStr "0xc"); (lit "to", VStr sample_address);
         (lit "value", VStr "1234567"); (lit "contractAddress", VStr "0xa0b8")].

(** What the items of both categories have in common with the record they
    were made from. *)
Definition item_consistent (it item : value) : Prop :=
  exists ts time dir amount hash,
    py_getitem item "timestamp" = Ok (VInt ts) /\
    py_getitem item "time_utc" = Ok (VStr time) /\ read_iso time = ts /\
    py_getitem item "direction" = Ok (VStr dir) /\
    (dir = lit "out" \/ dir = lit "in" \/ dir = lit "other") /\
    py_getitem item "amount" = Ok (VStr amount) /\ plain_numeral amount /\
    py_getitem it "hash" = Ok hash /\ py_getitem item "hash" = Ok hash /\
    py_getitem item "link" = Ok (VStr (lit "https://etherscan.io/tx/" ++ py_str hash)) /\
    py_getitem item "from" = py_get it "from" VNone /\
    py_getitem item "to" = py_get it "to" VNone.

(** What a token item takes from its record. *)
Definition token_fields (it item : value) : Prop :=
  exists td decimals sym value amount,
    py_get it "tokenDecimal" VNone = Ok td /\
    py_int (py_or td (VInt 0)) = Ok decimals /\
    (truthy td = false -> decimals = 0) /\
    py_get it "value" (VStr "0") = Ok value /\
    _fmt_amount value decimals = Ok amount /\
    py_getitem item "amount" = Ok (VStr amount) /\
    py_get it "tokenSymbol" VNone = Ok sym /\
    py_getitem item "symbol" = Ok (if truthy sym then sym else VStr "TOKEN") /\
    py_getitem item "tokenContract" = py_get it "contractAddress" VNone /\
    py_getitem item "type" = Ok (VStr "ERC20") /\
    py_getitem item "status" = Raise Unhandled.

(* ================================================================== *)
(** * Part II: properties *)
(* ================================================================== *)

(** ** Strings *)

Lemma str_eqb_eq (a b : pystr) : str_eqb a b = true <-> a = b.
Proof.
  revert b; induction a as [|x a IH]; intros [|y b]; simpl; split;
    try congruence; try discriminate.
  - intros H. apply andb_true_iff in H as [H1 H2].
    apply Ascii.eqb_eq in H1. apply IH in H2. congruence.
  - intros H. injection H as -> ->. rewrite Ascii.eqb_refl. simpl.
    now apply IH.
Qed.

Lemma str_eqb_refl (a : pystr) : str_eqb a a = true.
Proof. now apply str_eqb_eq. Qed.

Lemma str_eqb_neq (a b : pystr) : str_eqb a b = false <-> a <> b.
Proof.
  split.
  - intros H E. apply str_eqb_eq in E. congruence.
  - intros H. destruct (str_eqb a b) eqn:E; [|reflexivity].
    apply str_eqb_eq in E. contradiction.
Qed.

Lemma startswith_spec (s p : pystr) :
  startswith s p = true <-> exists r, s = p ++ r.
Proof.
  revert s; induction p as [|x p IH]; intros s; simpl.
  - split; [intros _; now exists s | reflexivity].
  - destruct s as [|y s].
    + split; [discriminate | intros [r H]; discriminate].
    + rewrite andb_true_iff, Ascii.eqb_eq, IH. split.
      * intros [-> [r ->]]. now exists r.
      * intros [r H]. injection H as -> ->. split; [reflexivity | now exists r].
Qed.

Lemma contains_spec (hay needle : pystr) :
  contains hay needle = true <-> exists a b, hay = a ++ needle ++ b.
Proof.
  induction hay as [|c hay IH].
  - simpl. rewrite orb_false_r, startswith_spec. split.
    + intros [r H]. now exists [], r.
    + intros [a [b H]]. destruct a; [now exists b | discriminate].
  - cbn [contains]. rewrite orb_true_iff, IH, startswith_spec. split.
    + intros [[r H] | [a [b H]]].
      * now exists [], r.
      * exists (c :: a), b. now rewrite H.
    + intros [[|c' a] [b H]].
      * left. now exists b.
      * right. injection H as _ H. now exists a, b.
Qed.

Lemma lower_app (a b : pystr) : lower (a ++ b) = lower a ++ lower b.
Proof. apply map_app. Qed.

Lemma lower_length (a : pystr) : length (lower a) = length a.
Proof. apply length_map. Qed.

(** Splitting the lowered string is lowering the parts of a split. *)
Lemma lower_eq_app (s x y : pystr) :
  lower s = x ++ y -> exists a b, s = a ++ b /\ lower a = x /\ lower b = y.
Proof.
  intros H. exists (firstn (length x) s), (skipn (length x) s).
  split; [now rewrite firstn_skipn|].
  unfold lower in *. rewrite <- firstn_map, <- skipn_map, H.
  rewrite firstn_app, Nat.sub_diag, firstn_all, skipn_app, Nat.sub_diag, skipn_all.
  simpl. now rewrite app_nil_r.
Qed.

Lemma startswith_lower_spec (s p : pystr) :
  lower p = p ->
  startswith (lower s) p = true <-> prefix_ci p s.
Proof.
  intros Hp. rewrite startswith_spec. unfold prefix_ci, eq_ci. rewrite Hp. split.
  - intros [r H]. apply lower_eq_app in H as (a & b & -> & Ha & _).
    now exists a, b.
  - intros (a & r & -> & Ha). exists (lower r). now rewrite lower_app, Ha.
Qed.

Lemma contains_lower_spec (s n : pystr) :
  lower n = n ->
  contains (lower s) n = true <-> contains_ci s n.
Proof.
  intros Hn. rewrite contains_spec. unfold contains_ci, eq_ci. rewrite Hn. split.
  - intros (x & y & H). apply lower_eq_app in H as (a & r & -> & Ha & Hr).
    apply lower_eq_app in Hr as (m & b & -> & Hm & _).
    now exists a, m, b.
  - intros (a & m & b & -> & Hm). exists (lower a), (lower b).
    now rewrite !lower_app, Hm.
Qed.

(** ** Direction *)

Lemma or_empty_lower_str (s : pystr) : or_empty_lower (VStr s) = Ok (lower s).
Proof. now destruct s. Qed.

Lemma _direction_str (A s r : pystr) :
  _direction (VStr A) (VStr s) (VStr r) =
  Ok (if str_eqb (lower s) (lower A) then lit "out"
      else if str_eqb (lower r) (lower A) then lit "in" else lit "other").
Proof.
  unfold _direction. do 2 (rewrite or_empty_lower_str; cbn [bind]).
  destruct (str_eqb (lower s) (lower A)); [reflexivity|].
  rewrite or_empty_lower_str. cbn [bind].
  now destruct (str_eqb (lower r) (lower A)).
Qed.

(** ** Normalizers *)

(** Peel the successful binds of a hypothesis [H : ... = Ok _]. *)
Ltac bind_inv H :=
  repeat match type of H with
         | bind ?m _ = Ok _ =>
             let E := fresh "E" in
             destruct m eqn:E; [cbn [bind] in H | discriminate H]
         end.

Lemma py_getitem_dict (it : value) (k : pystr) (v : value) :
  py_getitem it k = Ok v -> exists d, it = VDict d /\ assoc k d = Some v.
Proof.
  destruct it; try discriminate. simpl. intros H. exists d.
  destruct (assoc k d); [injection H as -> | discriminate]. auto.
Qed.

Lemma py_get_total (it : value) (k : pystr) (v : value) :
  py_getitem it k = Ok v ->
  forall k' default, exists r, py_get it k' default = Ok r.
Proof.
  intros H k' default. apply py_getitem_dict in H as (d & -> & _).
  simpl. eauto.
Qed.

Lemma split_hd_spec (c : ascii) (s : pystr) :
  ~ In c (hd [] (split c s)) /\
  (s = hd [] (split c s) \/ exists b, s = hd [] (split c s) ++ c :: b).
Proof.
  induction s as [|x s [IH1 IH2]]; simpl.
  - split; [tauto | now left].
  - destruct (Ascii.eqb x c) eqn:E.
    + apply Ascii.eqb_eq in E as ->. simpl. split; [tauto|]. right. now exists s.
    + apply Ascii.eqb_neq in E.
      destruct (split c s) as [|w ws]; simpl in *.
      * split; [intuition congruence|].
        destruct IH2 as [-> | [b ->]]; [now left | right; now exists b].
      * split; [intuition congruence|].
        destruct IH2 as [-> | [b ->]]; [now left | right; now exists b].
Qed.

Lemma eth_item_direction : item_direction_ok _normalize_eth_item.
Proof.
  intros me it item H. unfold _normalize_eth_item in H. bind_inv H.
  injection H as <-. eauto 10.
Qed.

Lemma erc20_item_direction : item_direction_ok _normalize_erc20_item.
Proof.
  intros me it item H. unfold _normalize_erc20_item in H. bind_inv H.
  injection H as <-. eauto 10.
Qed.

(** ** The gateway *)

Lemma key_configured :
  negb (truthy (VStr ETHERSCAN_API_KEY)) || startswith ETHERSCAN_API_KEY "PASTE_" = false.
Proof. reflexivity. Qed.

Lemma _etherscan_answered (net : upstream) (params q data : value) (log : list value) :
  answers net params q data ->
  _etherscan net params log = (translate_body data, log ++ [q]).
Proof.
  intros [Hq Hn]. unfold _etherscan. rewrite key_configured.
  unfold bindE, lift, http_get. rewrite Hq, Hn.
  now destruct (translate_body data).
Qed.

Lemma translate_body_eq (data : value) (status message : pystr) :
  status_message data status message ->
  translate_body data =
  if str_eqb status "0" && str_eqb message "NOTOK" then
    r <- py_get data "result" VNone ;;
    let detail := py_str (py_or r (VStr "Etherscan NOTOK")) in
    if contains (lower detail) "rate limit" then
      Raise (HTTPException 429 (lit "Etherscan: " ++ detail))
    else
      Raise (HTTPException 502 (lit "Etherscan error: " ++ detail))
  else if str_eqb status "0" && startswith (lower message) "no transactions" then
    Ok (VDict [(lit "status", VStr "1"); (lit "result", VList [])])
  else
    Ok data.
Proof.
  intros [Hs Hm]. unfold translate_body. now rewrite Hs, Hm.
Qed.

Lemma str_field_dict (data : value) (k : pystr) (default : value) (s : pystr) :
  str_field data k default = Ok s -> exists d, data = VDict d.
Proof.
  destruct data; try discriminate. eauto.
Qed.

(** ** Sorting *)

Section SortDesc.

Lemma insert_desc_perm (x : Z * value) (l : list (Z * value)) :
  Permutation (insert_desc x l) (x :: l).
Proof.
  induction l as [|y l IH]; simpl; [reflexivity|].
  destruct (fst x <? fst y); [|reflexivity].
  rewrite IH. apply perm_swap.
Qed.

Lemma sort_desc_perm (l : list (Z * value)) : Permutation (sort_desc l) l.
Proof.
  induction l as [|x l IH]; simpl; [reflexivity|].
  rewrite insert_desc_perm. now constructor.
Qed.

Lemma insert_desc_sorted (x : Z * value) (l : list (Z * value)) :
  StronglySorted desc l -> StronglySorted desc (insert_desc x l).
Proof.
  induction l as [|y l IH]; simpl; intros Hs.
  - constructor; constructor.
  - inversion_clear Hs as [|? ? Hl Hy].
    destruct (fst x <? fst y) eqn:E.
    + apply Z.ltb_lt in E. constructor; [now apply IH|].
      eapply Permutation_Forall; [symmetry; apply insert_desc_perm|].
      constructor; [unfold desc; lia | assumption].
    + apply Z.ltb_ge in E. constructor; [now constructor|].
      constructor; [exact E|].
      eapply Forall_impl; [|exact Hy]. unfold desc. intros; lia.
Qed.

Lemma sort_desc_sorted (l : list (Z * value)) : StronglySorted desc (sort_desc l).
Proof.
  induction l as [|x l IH]; simpl; [constructor | now apply insert_desc_sorted].
Qed.

(** The insertion keeps the order among the elements of each key. *)
Lemma insert_desc_stable (t : Z) (x : Z * value) (l : list (Z * value)) :
  filter (fun p => fst p =? t) (insert_desc x l) =
  filter (fun p => fst p =? t) (x :: l).
Proof.
  induction l as [|y l IH]; [reflexivity|].
  cbn [insert_desc]. destruct (fst x <? fst y) eqn:E; [|reflexivity].
  apply Z.ltb_lt in E. cbn [filter] in *. rewrite IH.
  destruct (fst y =? t) eqn:Ey, (fst x =? t) eqn:Ex; try reflexivity.
  apply Z.eqb_eq in Ey, Ex. lia.
Qed.

Lemma sort_desc_stable (t : Z) (l : list (Z * value)) :
  filter (fun p => fst p =? t) (sort_desc l) = filter (fun p => fst p =? t) l.
Proof.
  induction l as [|x l IH]; [reflexivity|].
  cbn [sort_desc fold_right]. rewrite insert_desc_stable.
  cbn [filter]. fold (sort_desc l). now rewrite IH.
Qed.

(** A list sorted by decreasing key is determined by its elements of each
    key in their order: the stable sort has one possible result. *)
Lemma stable_sort_unique (l1 l2 : list (Z * value)) :
  StronglySorted desc l1 -> StronglySorted desc l2 ->
  (forall t, filter (fun p => fst p =? t) l1 = filter (fun p => fst p =? t) l2) ->
  l1 = l2.
Proof.
  revert l2. induction l1 as [|x l1 IH]; intros l2 H1 H2 Hf.
  - destruct l2 as [|y l2]; [reflexivity|].
    specialize (Hf (fst y)). simpl in Hf. now rewrite Z.eqb_refl in Hf.
  - destruct l2 as [|y l2].
    { specialize (Hf (fst x)). simpl in Hf. now rewrite Z.eqb_refl in Hf. }
    inversion_clear H1 as [|? ? Hs1 Hx]. inversion_clear H2 as [|? ? Hs2 Hy].
    assert (Hin : forall (a : Z * value) l l',
               (forall t, filter (fun p => fst p =? t) l = filter (fun p => fst p =? t) l') ->
               In a l -> In a l').
    { intros a l l' Hll Ha.
      assert (Ha' : In a (filter (fun p => fst p =? fst a) l))
        by (apply filter_In; split; [assumption | apply Z.eqb_refl]).
      rewrite Hll in Ha'. now apply filter_In in Ha'. }
    assert (Hxy : fst x = fst y).
    { assert (In x (y :: l2)) as [<- | Hx2] by (eapply Hin; [exact Hf | now left]);
        [reflexivity|].
      assert (In y (x :: l1)) as [<- | Hy1]
          by (eapply Hin; [intros t; symmetry; apply Hf | now left]);
        [reflexivity|].
      rewrite Forall_forall in Hx, Hy.
      specialize (Hx _ Hy1). specialize (Hy _ Hx2). unfold desc in *. lia. }
    assert (x = y).
    { specialize (Hf (fst x)). simpl in Hf.
      rewrite <- Hxy, Z.eqb_refl in Hf. congruence. }
    subst y. f_equal. apply IH; try assumption.
    intros t. specialize (Hf t). simpl in Hf.
    destruct (fst x =? t); congruence.
Qed.

End SortDesc.

(** ** The handler *)

Lemma mapM_Forall {A B : Type} (f : A -> result B) (l : list A) (l' : list B) :
  mapM f l = Ok l' -> Forall (fun y => exists x, f x = Ok y) l'.
Proof.
  revert l'. induction l as [|a l IH]; simpl; intros l' H.
  - injection H as <-. constructor.
  - bind_inv H. injection H as <-. constructor; eauto.
Qed.

Lemma eth_item_is_item (me : pystr) (it item : value) :
  _normalize_eth_item me it = Ok item ->
  is_item item /\ type_of item = VStr "ETH".
Proof.
  intros H. unfold _normalize_eth_item in H. bind_inv H. injection H as <-.
  split; [|reflexivity]. now do 2 eexists.
Qed.

Lemma erc20_item_is_item (me : pystr) (it item : value) :
  _normalize_erc20_item me it = Ok item ->
  is_item item /\ type_of item = VStr "ERC20".
Proof.
  intros H. unfold _normalize_erc20_item in H. bind_inv H. injection H as <-.
  split; [|reflexivity]. now do 2 eexists.
Qed.

Lemma mapM_sort_key (l : list value) :
  Forall is_item l -> mapM sort_key l = Ok (map timestamp_of l).
Proof.
  induction 1 as [|x l (ts & ty & Hk & _) _ IH]; [reflexivity|].
  cbn [mapM map]. unfold timestamp_of at 1. rewrite Hk, IH. reflexivity.
Qed.

Lemma count_type_items (ty : pystr) (l : list value) :
  Forall is_item l -> count_type ty l = Ok (count_of ty l).
Proof.
  intros Hl. unfold count_type, count_of.
  assert (H : mapM (fun x => py_getitem x "type") l = Ok (map type_of l)).
  { induction Hl as [|x l (ts & t & _ & Ht) _ IH]; [reflexivity|].
    cbn [mapM map]. unfold type_of at 1. rewrite Ht, IH. reflexivity. }
  rewrite H. cbn [bind]. do 2 f_equal.
  clear. induction l as [|x l IH]; [reflexivity|].
  cbn [map filter]. destruct (eq_str (type_of x) ty); cbn [length]; now rewrite IH.
Qed.

Lemma In_firstn {A : Type} (n : nat) (l : list A) (x : A) :
  In x (firstn n l) -> In x l.
Proof.
  revert l. induction n as [|n IH]; intros [|y l]; simpl; try tauto.
  intros [H | H]; auto.
Qed.

Lemma combine_map_self {A B : Type} (f : A -> B) (l : list A) :
  List.combine (map f l) l = map (fun x => (f x, x)) l.
Proof. induction l; simpl; congruence. Qed.

(** Every pair of the sorted list still carries the timestamp of its
    item. *)
Lemma sorted_pairs_keyed (l : list value) :
  Forall (fun p => fst p = timestamp_of (snd p))
         (sort_desc (List.combine (map timestamp_of l) l)).
Proof.
  eapply Permutation_Forall; [symmetry; apply sort_desc_perm|].
  rewrite combine_map_self. apply Forall_map, Forall_forall. reflexivity.
Qed.

Lemma sorted_feed_perm (l : list value) : Permutation (sorted_feed l) l.
Proof.
  unfold sorted_feed. rewrite sort_desc_perm, combine_map_self, map_map.
  simpl. now rewrite map_id.
Qed.

Lemma sorted_feed_sorted (l : list value) :
  StronglySorted newer_first (sorted_feed l).
Proof.
  unfold sorted_feed.
  pose proof (sorted_pairs_keyed l) as Hk.
  pose proof (sort_desc_sorted (List.combine (map timestamp_of l) l)) as Hs.
  induction Hs as [|p S HS IH Hp]; simpl; [constructor|].
  inversion_clear Hk as [|? ? Hkp HkS].
  constructor; [now apply IH|].
  apply Forall_map. rewrite Forall_forall in *.
  intros q Hq. unfold newer_first, desc in *.
  rewrite <- Hkp, <- (HkS q Hq). now apply Hp.
Qed.

Lemma sorted_feed_stable (t : Z) (l : list value) :
  at_time t (sorted_feed l) = at_time t l.
Proof.
  unfold at_time, sorted_feed.
  transitivity (map snd (filter (fun p => fst p =? t)
                                (sort_desc (List.combine (map timestamp_of l) l)))).
  - pose proof (sorted_pairs_keyed l) as Hk.
    induction Hk as [|p S Hp _ IH]; [reflexivity|].
    cbn [map filter]. rewrite <- Hp.
    destruct (fst p =? t); cbn [map]; now rewrite IH.
  - rewrite sort_desc_stable, combine_map_self.
    induction l as [|x l IH]; [reflexivity|].
    cbn [map filter fst]. destruct (timestamp_of x =? t); cbn [map snd]; now rewrite IH.
Qed.

Lemma merge_feed_eq (address : pystr) (N : Z) (eth_items erc20_items : list value) :
  0 <= N ->
  Forall is_item (eth_items ++ erc20_items) ->
  merge_feed address N eth_items erc20_items =
  Ok (feed address (firstn (Z.to_nat N) (sorted_feed (eth_items ++ erc20_items)))).
Proof.
  intros HN Hl. unfold merge_feed. rewrite (mapM_sort_key _ Hl). cbn [bind].
  fold (sorted_feed (eth_items ++ erc20_items)).
  unfold slice_to. apply Z.leb_le in HN. rewrite HN.
  assert (Hlatest : Forall is_item
            (firstn (Z.to_nat N) (sorted_feed (eth_items ++ erc20_items)))).
  { apply Forall_forall. intros x Hx. apply In_firstn in Hx.
    rewrite Forall_forall in Hl. apply Hl.
    eapply Permutation_in; [apply sorted_feed_perm | exact Hx]. }
  rewrite !(count_type_items _ _ Hlatest). reflexivity.
Qed.

Lemma get_transactions_fetched (net : upstream) (address : pystr) (N : Z)
    (q1 q2 : value) (eth_items erc20_items : list value) (log : list value) :
  _is_valid_address address = true ->
  1 <= N <= 200 ->
  fetched net address N q1 q2 eth_items erc20_items ->
  get_transactions net address (Some N) log =
  (merge_feed address N eth_items erc20_items, log ++ [q1; q2]).
Proof.
  intros Hv HN (b1 & b2 & r1 & r2 & its1 & its2 & A1 & T1 & I1 & M1 & A2 & T2 & I2 & M2).
  unfold get_transactions, query_limit.
  replace ((N <? 1) || (200 <? N)) with false
    by (symmetry; apply orb_false_iff; split; [apply Z.ltb_ge | apply Z.ltb_ge]; lia).
  unfold bindE at 1. unfold lift at 1. rewrite Hv. cbn [negb].
  unfold bindE, lift.
  rewrite (_etherscan_answered _ _ _ _ _ A1), T1.
  destruct (py_get r1 "result" (VList [])) as [x1|]; [|discriminate I1].
  cbn [bind] in I1. rewrite I1, M1.
  rewrite (_etherscan_answered _ _ _ _ _ A2), T2.
  destruct (py_get r2 "result" (VList [])) as [x2|]; [|discriminate I2].
  cbn [bind] in I2. rewrite I2, M2.
  now rewrite <- app_assoc.
Qed.

Lemma fetched_items (net : upstream) (address : pystr) (N : Z)
    (q1 q2 : value) (eth_items erc20_items : list value) :
  fetched net address N q1 q2 eth_items erc20_items ->
  Forall (fun x => is_item x /\ type_of x = VStr "ETH") eth_items /\
  Forall (fun x => is_item x /\ type_of x = VStr "ERC20") erc20_items.
Proof.
  intros (b1 & b2 & r1 & r2 & its1 & its2 & _ & _ & _ & M1 & _ & _ & _ & M2).
  split.
  - eapply Forall_impl; [|exact (mapM_Forall _ _ _ M1)].
    intros x [it H]. eapply eth_item_is_item, H.
  - eapply Forall_impl; [|exact (mapM_Forall _ _ _ M2)].
    intros x [it H]. eapply erc20_item_is_item, H.
Qed.

(** ** Validation *)

Lemma take_class_spec (n : nat) (cls : ascii -> bool) (s s' : pystr) :
  take_class n cls s = Some s' <->
  exists h, s = h ++ s' /\ length h = n /\ Forall (fun c => cls c = true) h.
Proof.
  revert s. induction n as [|n IH]; intros s; simpl.
  - split.
    + intros H. injection H as <-. exists []. auto.
    + intros (h & -> & Hl & _). destruct h; [reflexivity | discriminate].
  - destruct s as [|c s].
    + split; [discriminate|]. intros (h & H & Hl & _).
      destruct h; discriminate.
    + destruct (cls c) eqn:Ec.
      * rewrite IH. split.
        -- intros (h & -> & Hl & Hh). exists (c :: h). simpl. repeat split; auto.
        -- intros (h & H & Hl & Hh). destruct h as [|c' h]; [discriminate|].
           injection H as <- ->. injection Hl as Hl.
           inversion_clear Hh. eauto.
      * split; [discriminate|]. intros (h & H & Hl & Hh).
        destruct h as [|c' h]; [discriminate|]. injection H as <- ->.
        inversion_clear Hh. congruence.
Qed.

(** What [ADDR_RE] accepts: the addresses, and also an address followed by
    one newline. *)
Lemma valid_address_iff (s : pystr) :
  _is_valid_address s = true <->
  is_address s \/ exists a, s = a ++ [chr 10] /\ is_address a.
Proof.
  unfold _is_valid_address, re_match, ADDR_RE. cbn [re_match_from andb].
  destruct s as [|c0 [|c1 s]].
  - split; [discriminate|]. intros [(h & H & _) | (a & H & (h & -> & _))];
      discriminate.
  - split; [now rewrite andb_false_r|].
    intros [(h & H & _) | (a & H & (h & -> & _))]; discriminate.
  - destruct (take_class 40 is_hex s) as [s'|] eqn:E.
    + apply take_class_spec in E as (h & -> & Hl & Hh).
      rewrite andb_true_r, !andb_true_iff, orb_true_iff, !str_eqb_eq.
      change (Ascii.eqb "0" c0 = true) with (Ascii.eqb "0"%char c0 = true).
      rewrite !Ascii.eqb_eq. split.
      * intros (<- & <- & [-> | ->]).
        -- left. exists h. now rewrite app_nil_r.
        -- right. exists ("0"%char :: "x"%char :: h). split; [reflexivity|].
           now exists h.
      * intros [(h' & H & Hl' & _) | (a & H & (h' & -> & Hl' & _))];
          injection H as <- <- H; repeat split.
        -- left. apply (f_equal (@length ascii)) in H.
           rewrite length_app in H. destruct s'; [reflexivity|simpl in H; lia].
        -- right. assert (Hs : h = h' /\ s' = [chr 10]).
           { revert h' Hl' H. clear Hh. revert Hl.
             generalize 40%nat as n. intros n. revert h.
             induction n as [|n IH]; intros [|x h] Hl [|y h'] Hl' H;
               try discriminate; simpl in *.
             - auto.
             - injection H as <- H. injection Hl as Hl. injection Hl' as Hl'.
               destruct (IH _ Hl _ Hl' H) as [-> ->]. auto. }
           apply Hs.
    + split; [now rewrite !andb_false_r|].
      assert (Hn : forall h s', s = h ++ s' -> length h = 40%nat ->
                                Forall (fun c => is_hex c = true) h -> False).
      { intros h s' -> Hl Hh.
        assert (take_class 40 is_hex (h ++ s') = Some s') as H
            by (apply take_class_spec; eauto).
        congruence. }
      intros [(h & H & Hl & Hh) | (a & H & (h & -> & Hl & Hh))];
        injection H as _ _ H; exfalso.
      * apply (Hn h []); auto. now rewrite app_nil_r.
      * apply (Hn h [chr 10]); auto.
Qed.

Lemma invalid_address_rejected (net : upstream) (address : pystr)
    (limit : option Z) (n : Z) (log : list value) :
  query_limit limit = Ok n ->
  _is_valid_address address = false ->
  get_transactions net address limit log =
  (Raise (HTTPException 400 invalid_address_detail), log).
Proof.
  intros Hl Hv. unfold get_transactions, bindE, lift. now rewrite Hl, Hv.
Qed.

Lemma limit_out_of_range_rejected (net : upstream) (address : pystr)
    (n : Z) (log : list value) :
  n < 1 \/ 200 < n ->
  get_transactions net address (Some n) log = (Raise RequestValidationError, log).
Proof.
  intros Hn. unfold get_transactions, bindE, lift, query_limit.
  replace ((n <? 1) || (200 <? n)) with true; [reflexivity|].
  symmetry. apply orb_true_iff. rewrite !Z.ltb_lt. exact Hn.
Qed.

(** The parts of C8 that hold: an address that is neither of the accepted
    shapes gets a 400 and no query is sent; the limits 0 and 201 are
    rejected, with no query sent either. *)
Lemma malformed_request_rejected (net : upstream) (address : pystr) (log : list value) :
  (~ is_address address ->
   (forall a, address = a ++ [chr 10] -> ~ is_address a) ->
   forall limit n, query_limit limit = Ok n ->
     get_transactions net address limit log =
     (Raise (HTTPException 400 invalid_address_detail), log)) /\
  get_transactions net address (Some 0) log = (Raise RequestValidationError, log) /\
  get_transactions net address (Some 201) log = (Raise RequestValidationError, log) /\
  query_limit None = Ok 25.
Proof.
  split; [|split; [|split; [|reflexivity]]; apply limit_out_of_range_rejected; lia].
  intros H1 H2 limit n Hl. eapply invalid_address_rejected; [exact Hl|].
  destruct (_is_valid_address address) eqn:E; [|reflexivity].
  apply valid_address_iff in E as [E | (a & -> & E)]; [contradiction|].
  now apply H2 in E.
Qed.

(** ** Decimal digits *)

Lemma ord_chr (z : Z) : 0 <= z < 256 -> ord (chr z) = z.
Proof.
  intros H. unfold ord, chr. rewrite N_ascii_embedding; lia.
Qed.

Lemma digit_val_char (d : Z) : 0 <= d <= 9 -> digit_val (digit_char d) = d.
Proof.
  intros H. unfold digit_val, digit_char. rewrite ord_chr; lia.
Qed.

Lemma is_digit_char (d : Z) : 0 <= d <= 9 -> is_digit (digit_char d) = true.
Proof.
  intros H. unfold is_digit, digit_char. rewrite ord_chr by lia.
  apply andb_true_iff. split; apply Z.leb_le; lia.
Qed.

Lemma is_digit_val (c : ascii) : is_digit c = true -> 0 <= digit_val c <= 9.
Proof.
  unfold is_digit, digit_val. intros H.
  apply andb_true_iff in H as [H1 H2]. apply Z.leb_le in H1, H2. lia.
Qed.

Lemma digit_char_val (c : ascii) : is_digit c = true -> digit_char (digit_val c) = c.
Proof.
  intros H. apply is_digit_val in H. unfold digit_char, digit_val in *.
  replace (48 + (ord c - 48)) with (ord c) by lia.
  unfold chr, ord. rewrite N2Z.id. apply ascii_N_embedding.
Qed.

Lemma digits_fuel_acc (fuel : nat) (n : Z) (acc : pystr) :
  digits_fuel fuel n acc = digits_fuel fuel n [] ++ acc.
Proof.
  revert n acc. induction fuel as [|f IH]; intros n acc; [reflexivity|].
  cbn [digits_fuel]. destruct (n <? 10); [reflexivity|].
  rewrite IH, (IH _ [_]), <- app_assoc. reflexivity.
Qed.

Lemma digits_fuel_irrel (f1 f2 : nat) (n : Z) (acc : pystr) :
  0 <= n < 2 ^ Z.of_nat f1 -> 0 <= n < 2 ^ Z.of_nat f2 ->
  (1 <= f1)%nat -> (1 <= f2)%nat ->
  digits_fuel f1 n acc = digits_fuel f2 n acc.
Proof.
  revert f2 n acc. induction f1 as [|f1 IH]; intros f2 n acc H1 H2 L1 L2; [lia|].
  destruct f2 as [|f2]; [lia|]. cbn [digits_fuel].
  destruct (n <? 10) eqn:E; [reflexivity|]. apply Z.ltb_ge in E.
  rewrite !Nat2Z.inj_succ, !Z.pow_succ_r in * by lia.
  assert (Hd : 0 <= n / 10 <= n / 2).
  { split; [apply Z.div_pos; lia|].
    apply Z.div_le_lower_bound; [lia|].
    pose proof (Z.mul_div_le n 10 ltac:(lia)). lia. }
  assert (Hh : forall f : nat, n < 2 * 2 ^ Z.of_nat f -> n / 10 < 2 ^ Z.of_nat f /\ (1 <= f)%nat).
  { intros f Hf. split.
    - apply Z.le_lt_trans with (n / 2); [lia|].
      apply Z.div_lt_upper_bound; lia.
    - destruct f; [simpl in Hf; lia | lia]. }
  apply IH; try (apply Hh; lia); split; try lia; apply Hh; lia.
Qed.

Lemma digits_small (n : Z) : 0 <= n < 10 -> digits n = [digit_char n].
Proof.
  intros H. unfold digits. cbn [digits_fuel].
  replace (n <? 10) with true by (symmetry; apply Z.ltb_lt; lia).
  now rewrite Z.mod_small.
Qed.

Lemma digits_step (n : Z) :
  10 <= n -> digits n = digits (n / 10) ++ [digit_char (n mod 10)].
Proof.
  intros H. unfold digits at 1. cbn [digits_fuel].
  replace (n <? 10) with false by (symmetry; apply Z.ltb_ge; lia).
  rewrite digits_fuel_acc. f_equal. unfold digits.
  pose proof (Z.log2_spec n ltac:(lia)) as [Hlo Hhi].
  assert (Hq : 0 < n / 10) by (apply Z.div_str_pos; lia).
  pose proof (Z.log2_spec (n / 10) Hq) as [Hlo' Hhi'].
  assert (Hl3 : 3 <= Z.log2 n) by (apply Z.log2_le_pow2; simpl; lia).
  assert (Hl0 : 0 <= Z.log2 (n / 10)) by apply Z.log2_nonneg.
  apply digits_fuel_irrel; try lia.
  - rewrite Z2Nat.id by lia. split; [lia|].
    apply Z.div_lt_upper_bound; [lia|].
    replace (Z.succ (Z.log2 n)) with (Z.log2 n + 1) in Hhi by lia.
    rewrite Z.pow_add_r in Hhi by lia. simpl in Hhi. lia.
  - rewrite Nat2Z.inj_succ, Z2Nat.id by lia. lia.
Qed.

(** Induction along the digits of a number. *)
Lemma digits_ind (P : Z -> Prop) :
  (forall n, 0 <= n < 10 -> P n) ->
  (forall n, 10 <= n -> P (n / 10) -> P n) ->
  forall n, 0 <= n -> P n.
Proof.
  intros Hs Hr n Hn. pattern n. apply Zlt_0_ind; [|exact Hn].
  intros x IH Hx. destruct (Z_lt_le_dec x 10) as [Hlt | Hge].
  - apply Hs. lia.
  - apply Hr; [exact Hge|]. apply IH. split.
    + apply Z.div_pos; lia.
    + apply Z.div_lt; lia.
Qed.

Lemma int_of_digits_app (a b : pystr) :
  int_of_digits (a ++ b) = int_of_digits a * 10 ^ Z.of_nat (length b) + int_of_digits b.
Proof.
  unfold int_of_digits. rewrite fold_left_app.
  generalize (fold_left (fun a c => 10 * a + digit_val c) a 0) as x.
  induction b as [|c b IH]; intros x.
  - simpl. lia.
  - cbn [fold_left length]. rewrite IH, (IH (10 * 0 + digit_val c)).
    rewrite Nat2Z.inj_succ, Z.pow_succ_r by lia. lia.
Qed.

Lemma int_of_digits_digits (n : Z) : 0 <= n -> int_of_digits (digits n) = n.
Proof.
  intros Hn. pattern n. apply digits_ind; [| |exact Hn]; clear n Hn.
  - intros n H. rewrite digits_small by lia. unfold int_of_digits. simpl.
    rewrite digit_val_char; lia.
  - intros n H IH. rewrite digits_step, int_of_digits_app, IH by lia.
    unfold int_of_digits at 1. simpl.
    pose proof (Z.mod_pos_bound n 10 ltac:(lia)).
    rewrite digit_val_char by lia.
    pose proof (Z.div_mod n 10 ltac:(lia)). lia.
Qed.

Lemma digits_are_digits (n : Z) : 0 <= n -> forallb is_digit (digits n) = true.
Proof.
  intros Hn. pattern n. apply digits_ind; [| |exact Hn]; clear n Hn.
  - intros n H. rewrite digits_small by lia. simpl.
    rewrite is_digit_char; [reflexivity | lia].
  - intros n H IH. rewrite digits_step, forallb_app, IH by lia. simpl.
    pose proof (Z.mod_pos_bound n 10 ltac:(lia)).
    rewrite is_digit_char; [reflexivity | lia].
Qed.

Lemma digits_last (n : Z) (c : ascii) :
  0 <= n -> last (digits n) c = digit_char (n mod 10).
Proof.
  intros Hn. destruct (Z_lt_le_dec n 10).
  - rewrite digits_small, Z.mod_small by lia. reflexivity.
  - rewrite digits_step by lia. apply last_last.
Qed.

Lemma digits_nonempty (n : Z) : 0 <= n -> digits n <> [].
Proof.
  intros Hn. destruct (Z_lt_le_dec n 10).
  - rewrite digits_small by lia. discriminate.
  - rewrite digits_step by lia. intros H. now apply app_eq_nil in H as [_ H].
Qed.

(** The number of digits of a positive number is the position of the power
    of ten above it. *)
Lemma ndigits_spec (n : Z) :
  0 < n -> 1 <= ndigits n /\ 10 ^ (ndigits n - 1) <= n < 10 ^ ndigits n.
Proof.
  intros Hn. assert (H0 : 0 <= n) by lia. revert Hn. pattern n.
  apply digits_ind; [| |exact H0]; clear n H0.
  - intros n H Hn. unfold ndigits. rewrite digits_small by lia. simpl. lia.
  - intros n H IH _. unfold ndigits in *. rewrite digits_step by lia.
    rewrite length_app. cbn [length]. rewrite Nat2Z.inj_add. simpl Z.of_nat.
    assert (Hq : 0 < n / 10) by (apply Z.div_str_pos; lia).
    destruct (IH Hq) as (H1 & H2 & H3).
    set (k := Z.of_nat (length (digits (n / 10)))) in *.
    replace (k + 1 - 1) with (k - 1 + 1) by lia.
    rewrite !Z.pow_add_r by lia. simpl (10 ^ 1).
    pose proof (Z.div_mod n 10 ltac:(lia)).
    pose proof (Z.mod_pos_bound n 10 ltac:(lia)). lia.
Qed.

Lemma ndigits_unique (n k : Z) :
  10 ^ (k - 1) <= n < 10 ^ k -> 0 < n -> 1 <= k -> ndigits n = k.
Proof.
  intros [H1 H2] Hn Hk. destruct (ndigits_spec n Hn) as (G0 & G1 & G2).
  destruct (Z.lt_trichotomy (ndigits n) k) as [Hlt | [Heq | Hgt]]; [|exact Heq|].
  - assert (10 ^ ndigits n <= 10 ^ (k - 1)) by (apply Z.pow_le_mono_r; lia). lia.
  - assert (10 ^ k <= 10 ^ (ndigits n - 1)) by (apply Z.pow_le_mono_r; lia). lia.
Qed.

Lemma ndigits_mul_pow (c w : Z) :
  0 < c -> 0 <= w -> ndigits (c * 10 ^ w) = ndigits c + w.
Proof.
  intros Hc Hw. destruct (ndigits_spec c Hc) as (G0 & G1 & G2).
  assert (Hp : 0 < 10 ^ w) by (apply Z.pow_pos_nonneg; lia).
  apply ndigits_unique; try nia.
  replace (ndigits c + w - 1) with (ndigits c - 1 + w) by lia.
  rewrite !Z.pow_add_r by lia. nia.
Qed.

Lemma ndigits_pow10 (w : Z) : 0 <= w -> ndigits (10 ^ w) = w + 1.
Proof.
  intros Hw. replace (10 ^ w) with (1 * 10 ^ w) by lia.
  rewrite ndigits_mul_pow by lia.
  replace (ndigits 1) with 1 by reflexivity. lia.
Qed.

(** ** Decimal arithmetic on exactly representable values *)

(** Decide the comparisons of the goal, closing the impossible branches by
    linear arithmetic. *)
Ltac zcases :=
  repeat match goal with
         | |- context [?a <? ?b] =>
             destruct (Z.ltb_spec a b); try lia
         | |- context [?a <=? ?b] =>
             destruct (Z.leb_spec a b); try lia
         | |- context [?a =? ?b] =>
             destruct (Z.eqb_spec a b); try lia
         end.

Lemma pow10_pos (w : Z) : 0 <= w -> 0 < 10 ^ w.
Proof. intros. apply Z.pow_pos_nonneg; lia. Qed.

Lemma pow10_split (a b : Z) : 0 <= b <= a -> 10 ^ a = 10 ^ (a - b) * 10 ^ b.
Proof.
  intros H. rewrite <- Z.pow_add_r by lia. f_equal. lia.
Qed.

Lemma mul_pow10_mod10 (c w : Z) : 0 < w -> (c * 10 ^ w) mod 10 = 0.
Proof.
  intros H. rewrite (pow10_split w 1) by lia.
  rewrite Z.mul_assoc. apply Z.mod_mul. discriminate.
Qed.

Lemma mul_pow10_div10 (c w : Z) : 0 < w -> c * 10 ^ w / 10 = c * 10 ^ (w - 1).
Proof.
  intros H. rewrite (pow10_split w 1) by lia.
  rewrite Z.mul_assoc. apply Z.div_mul. discriminate.
Qed.

(** The loop strips the trailing zeros, as many as the fuel allows. *)
Lemma strip_zeros_exact (fuel : nat) (c w e : Z) :
  c mod 10 <> 0 -> 0 <= w ->
  strip_zeros fuel (c * 10 ^ w) e =
  (c * 10 ^ (w - Z.min (Z.of_nat fuel) w), e + Z.min (Z.of_nat fuel) w).
Proof.
  intros Hc. revert w e. induction fuel as [|f IH]; intros w e Hw.
  - cbn [strip_zeros]. rewrite Z.min_l by lia. simpl Z.of_nat.
    now rewrite Z.sub_0_r, Z.add_0_r.
  - cbn [strip_zeros]. destruct (Z.eq_dec w 0) as [-> | Hw0].
    + rewrite Z.mul_1_r. apply Z.eqb_neq in Hc. rewrite Hc.
      rewrite Z.min_r by lia. rewrite Z.mul_1_r. f_equal. lia.
    + rewrite mul_pow10_mod10, mul_pow10_div10 by lia. cbn [Z.eqb].
      rewrite IH by lia.
      assert (Hm : Z.min (Z.of_nat (S f)) w = Z.min (Z.of_nat f) (w - 1) + 1)
        by (rewrite Nat2Z.inj_succ; lia).
      rewrite Hm. f_equal; [f_equal; f_equal|]; lia.
Qed.

Lemma round_half_even_exact (x t : Z) :
  1 <= t -> round_half_even (x * 10 ^ t) t = x.
Proof.
  intros Ht. unfold round_half_even.
  pose proof (pow10_pos t ltac:(lia)). pose proof (pow10_pos (t - 1) ltac:(lia)).
  rewrite Z.mod_mul, Z.div_mul by lia.
  zcases. reflexivity.
Qed.

(** [_fix] returns a value with at most 60 digits and an exponent in range
    as it is. *)
Lemma fix_unchanged (a : Decimal) :
  0 < coeff a -> ndigits (coeff a) <= prec ->
  Etiny <= dexp a -> ndigits (coeff a) + dexp a - prec <= Etop ->
  _fix a = Ok a.
Proof.
  intros Hc Hn He Ht. unfold _fix. zcases. reflexivity.
Qed.

(** [_fix] drops zeros only from a coefficient whose other digits fit the
    precision. *)
Lemma fix_exact (sign : bool) (c w e : Z) :
  0 < c -> ndigits c <= prec -> 0 <= w -> Etiny <= e ->
  ndigits c + w + e - prec <= Etop ->
  _fix (mkDecimal sign (c * 10 ^ w) e) =
  Ok (mkDecimal sign (c * 10 ^ Z.min w (prec - ndigits c))
                (e + w - Z.min w (prec - ndigits c))).
Proof.
  intros Hc Hn Hw He Ht.
  pose proof (pow10_pos w Hw) as Hp.
  assert (Hcw : 0 < c * 10 ^ w) by nia.
  destruct (Z_le_gt_dec (ndigits c + w) prec) as [Hfit | Hbig].
  - rewrite Z.min_l by lia. replace (e + w - w) with e by lia.
    apply fix_unchanged; cbn [coeff dexp]; rewrite ?ndigits_mul_pow; lia.
  - rewrite Z.min_r by lia.
    set (t := ndigits c + w - prec).
    assert (Ht1 : 1 <= t <= w) by (unfold t; lia).
    replace (prec - ndigits c) with (w - t) by (unfold t; lia).
    unfold _fix. cbn [coeff dexp dsign].
    rewrite ndigits_mul_pow by lia.
    destruct (c * 10 ^ w =? 0) eqn:E0; [apply Z.eqb_eq in E0; lia|].
    destruct (Etop <? ndigits c + w + e - prec) eqn:E1; [apply Z.ltb_lt in E1; lia|].
    rewrite (Z.max_l (ndigits c + w + e - prec) Etiny) by lia.
    destruct (e <? ndigits c + w + e - prec) eqn:E2; [|apply Z.ltb_ge in E2; lia].
    replace (ndigits c + w + e - (ndigits c + w + e - prec)) with prec by lia.
    change (prec <? 0) with false. cbv iota.
    fold t.
    rewrite (pow10_split w t) by lia.
    rewrite Z.mul_assoc, round_half_even_exact by lia.
    rewrite ndigits_mul_pow by lia.
    destruct (prec <? ndigits c + (w - t)) eqn:E3; [apply Z.ltb_lt in E3; unfold t in E3; lia|].
    rewrite E1. do 2 f_equal. unfold t. lia.
Qed.

Lemma pow10_eq (d : Z) :
  0 <= d <= Emax ->
  pow10 d = Ok (mkDecimal false (10 ^ Z.min d 59) (d - Z.min d 59)).
Proof.
  intros Hd. unfold pow10. destruct (Z.eqb_spec d 0) as [-> | Hd0]; [reflexivity|].
  replace (10 ^ Z.min d prec) with (1 * 10 ^ Z.min d prec) by lia.
  assert (H1 : ndigits 1 = 1) by reflexivity.
  rewrite fix_exact; rewrite ?H1; unfold Etiny, Etop, Emin, Emax, prec in *; try lia.
  rewrite Z.mul_1_l.
  replace (Z.min (Z.min d 60) (60 - 1)) with (Z.min d 59) by lia.
  do 2 f_equal. lia.
Qed.

(** The quotient of [c * 10^z] by [10^d], where [c] has at most 60 digits:
    the division is exact, and so is the rounding of its result. *)
Lemma truediv_exact (c z d : Z) :
  0 < c -> c mod 10 <> 0 -> ndigits c <= prec -> 0 <= z ->
  0 <= d <= Emax -> ndigits c + z - d <= Emax + 1 ->
  exists w,
    0 <= w /\ ndigits c + w <= prec /\ - d <= z - d - w /\
    truediv (mkDecimal false (c * 10 ^ z) 0)
            (mkDecimal false (10 ^ Z.min d 59) (d - Z.min d 59))
    = Ok (mkDecimal false (c * 10 ^ w) (z - d - w)).
Proof.
  intros Hc Hc10 Hn Hz Hd Hmax.
  destruct (ndigits_spec c Hc) as (Hl1 & _).
  set (m := Z.min d 59). assert (Hm : 0 <= m <= 59 /\ m <= d) by (unfold m; lia).
  set (lc := ndigits c) in *. set (W := prec + 2 - lc).
  pose proof (pow10_pos z Hz) as Hpz. pose proof (pow10_pos m ltac:(lia)) as Hpm.
  unfold truediv. cbn [coeff dexp dsign xorb].
  destruct (10 ^ m =? 0) eqn:E0; [apply Z.eqb_eq in E0; lia|].
  destruct (c * 10 ^ z =? 0) eqn:E1; [apply Z.eqb_eq in E1; nia|].
  rewrite ndigits_pow10, ndigits_mul_pow by lia. fold lc.
  set (shift := m + 1 - (lc + z) + prec + 1).
  assert (HW : 0 <= W) by (unfold W, prec in *; lia).
  assert (Hq : (if 0 <=? shift
                then (c * 10 ^ z * 10 ^ shift / 10 ^ m, (c * 10 ^ z * 10 ^ shift) mod 10 ^ m)
                else (c * 10 ^ z / (10 ^ m * 10 ^ (- shift)),
                      (c * 10 ^ z) mod (10 ^ m * 10 ^ (- shift))))
               = (c * 10 ^ W, 0)).
  { destruct (Z.leb_spec 0 shift) as [Hs | Hs].
    - replace (c * 10 ^ z * 10 ^ shift) with (c * 10 ^ W * 10 ^ m).
      + rewrite Z.div_mul, Z.mod_mul by lia. reflexivity.
      + rewrite <- !Z.mul_assoc, <- !Z.pow_add_r by lia.
        do 2 f_equal. unfold W, shift. lia.
    - rewrite <- Z.pow_add_r by lia.
      replace (c * 10 ^ z) with (c * 10 ^ W * 10 ^ (m + - shift)).
      + pose proof (pow10_pos (m + - shift) ltac:(lia)).
        rewrite Z.div_mul, Z.mod_mul by lia. reflexivity.
      + rewrite <- !Z.mul_assoc, <- !Z.pow_add_r by lia.
        do 2 f_equal. unfold W, shift. lia. }
  rewrite Hq. cbn [Z.eqb negb]. cbv iota.
  rewrite strip_zeros_exact by assumption.
  set (j := Z.min (Z.of_nat (Z.to_nat (0 - (d - m) - (0 - (d - m) - shift)))) W).
  assert (Hj : 0 <= j <= W /\ - d <= 0 - (d - m) - shift + j).
  { unfold j. destruct (Z_le_gt_dec 0 shift).
    - rewrite Z2Nat.id by lia. unfold W, shift, prec in *. lia.
    - replace (Z.to_nat (0 - (d - m) - (0 - (d - m) - shift))) with 0%nat by lia.
      simpl Z.of_nat. lia. }
  rewrite fix_exact; fold lc;
    try (unfold Etiny, Etop, Emin, Emax, W, shift, prec in *; lia).
  exists (Z.min (W - j) (prec - lc)).
  split; [unfold prec in *; lia|]. split; [lia|]. split.
  - unfold W, shift, prec in *. lia.
  - do 2 f_equal. unfold W, shift, prec in *. lia.
Qed.

Lemma normalize_exact (c w e : Z) :
  0 < c -> c mod 10 <> 0 -> 0 <= w -> ndigits c + w <= prec ->
  Etiny <= e -> ndigits c + w + e <= Emax + 1 ->
  normalize (mkDecimal false (c * 10 ^ w) e) = Ok (mkDecimal false c (e + w)).
Proof.
  intros Hc Hc10 Hw Hn He Hmax.
  destruct (ndigits_spec c Hc) as (Hl1 & _).
  pose proof (pow10_pos w Hw) as Hp.
  assert (Hcw : 0 < c * 10 ^ w) by nia.
  unfold normalize. rewrite fix_unchanged; cbn [coeff dexp];
    rewrite ?ndigits_mul_pow by lia;
    try (unfold Etiny, Etop, Emin, Emax, prec in *; lia).
  cbn [bind coeff dexp dsign].
  destruct (c * 10 ^ w =? 0) eqn:E0; [apply Z.eqb_eq in E0; nia|].
  rewrite strip_zeros_exact by assumption.
  rewrite Z2Nat.id, Z.min_r by (unfold Emax in *; lia).
  rewrite Z.sub_diag, Z.mul_1_r. reflexivity.
Qed.

(** ** Digit strings *)

Lemma forallb_digit_In (s : pystr) (c : ascii) :
  forallb is_digit s = true -> In c s -> is_digit c = true.
Proof. intros H. now apply forallb_forall. Qed.

Lemma digit_not_space (c : ascii) : is_digit c = true -> is_space c = false.
Proof.
  intros H. apply is_digit_val in H. unfold digit_val, is_space in *.
  zcases; reflexivity.
Qed.

Lemma digit_not_char (c x : ascii) :
  is_digit c = true -> is_digit x = false -> Ascii.eqb c x = false.
Proof.
  intros Hc Hx. destruct (Ascii.eqb_spec c x) as [-> | ]; congruence.
Qed.

Lemma strip_by_digits (s : pystr) :
  forallb is_digit s = true -> strip_by is_space s = s.
Proof.
  intros H. unfold strip_by.
  assert (Hl : forall t, forallb is_digit t = true -> lstrip_by is_space t = t).
  { intros [|c t] Ht; [reflexivity|]. cbn [forallb lstrip_by] in *.
    apply andb_true_iff in Ht as [Hc _]. now rewrite digit_not_space. }
  rewrite (Hl s H), Hl, rev_involutive; [reflexivity|].
  apply forallb_forall. intros c Hc. apply in_rev in Hc.
  eapply forallb_digit_In; eassumption.
Qed.

Lemma filter_underscore_digits (s : pystr) :
  forallb is_digit s = true ->
  filter (fun c => negb (Ascii.eqb c "_")) s = s.
Proof.
  induction s as [|c s IH]; [reflexivity|]. cbn [forallb filter]. intros H.
  apply andb_true_iff in H as [Hc Hs].
  rewrite (digit_not_char c "_" Hc eq_refl). cbn [negb]. now rewrite IH.
Qed.

Lemma span_digits_all (s rest : pystr) :
  forallb is_digit s = true ->
  match rest with [] => True | c :: _ => is_digit c = false end ->
  span_digits (s ++ rest) = (s, rest).
Proof.
  intros Hs Hr. induction s as [|c s IH]; cbn [span_digits app forallb] in *.
  - destruct rest as [|c rest]; [reflexivity|]. cbn [span_digits]. now rewrite Hr.
  - apply andb_true_iff in Hs as [Hc Hs]. now rewrite Hc, IH.
Qed.

(** A string of digits converts to the integer it denotes, exactly. *)
Lemma Decimal_of_digits (s : pystr) :
  s <> [] -> forallb is_digit s = true ->
  ndigits (int_of_digits s) <= Emax + 1 ->
  Decimal_of (VStr s) = Ok (mkDecimal false (int_of_digits s) 0).
Proof.
  intros Hne Hs Hn. unfold Decimal_of, Decimal_of_str.
  rewrite strip_by_digits by (now rewrite filter_underscore_digits || assumption).
  rewrite filter_underscore_digits by assumption.
  destruct s as [|c s]; [contradiction|].
  assert (Hc : is_digit c = true)
    by (cbn [forallb] in Hs; now apply andb_true_iff in Hs).
  unfold take_sign.
  rewrite (digit_not_char c "-" Hc eq_refl), (digit_not_char c "+" Hc eq_refl).
  rewrite <- (app_nil_r (c :: s)) at 1.
  rewrite span_digits_all by (assumption || exact I).
  rewrite app_nil_r. cbn [parse_exponent length Z.of_nat].
  replace ((0 - 0 <? MIN_ETINY) || (MAX_EMAX <? 0 - 0 + ndigits (int_of_digits (c :: s)) - 1))
    with false; [reflexivity|].
  symmetry. apply orb_false_iff. split; [reflexivity|].
  apply Z.ltb_ge. unfold MAX_EMAX, Emax in *. lia.
Qed.

Lemma int_of_digits_bound (s : pystr) :
  forallb is_digit s = true ->
  0 <= int_of_digits s < 10 ^ Z.of_nat (length s).
Proof.
  induction s as [|c s IH] using rev_ind; intros H.
  - simpl. unfold int_of_digits. simpl. lia.
  - rewrite forallb_app in H. apply andb_true_iff in H as [Hs Hc].
    cbn [forallb] in Hc. rewrite andb_true_r in Hc. apply is_digit_val in Hc.
    specialize (IH Hs).
    rewrite int_of_digits_app, length_app. cbn [length].
    rewrite Nat2Z.inj_add, Z.pow_add_r by lia.
    replace (int_of_digits [c]) with (digit_val c)
      by (unfold int_of_digits; simpl; lia).
    simpl (Z.of_nat 1). simpl (10 ^ 1). lia.
Qed.

Lemma ndigits_le_length (s : pystr) :
  forallb is_digit s = true -> 0 < int_of_digits s ->
  ndigits (int_of_digits s) <= Z.of_nat (length s).
Proof.
  intros Hs Hv. pose proof (int_of_digits_bound s Hs) as [_ Hb].
  destruct (ndigits_spec _ Hv) as (H1 & H2 & _).
  destruct (Z_le_gt_dec (ndigits (int_of_digits s)) (Z.of_nat (length s)));
    [assumption|].
  assert (10 ^ Z.of_nat (length s) <= 10 ^ (ndigits (int_of_digits s) - 1))
    by (apply Z.pow_le_mono_r; lia).
  lia.
Qed.

(** A positive number is a number not divisible by ten, times a power of
    ten. *)
Lemma trailing_zeros_decomposition (c : Z) :
  0 < c -> exists c' t, 0 <= t /\ c = c' * 10 ^ t /\ c' mod 10 <> 0 /\ 0 < c' <= c.
Proof.
  intros Hc. assert (H0 : 0 <= c) by lia. revert Hc. pattern c.
  apply Zlt_0_ind; [|exact H0]. clear c H0. intros c IH _ Hc.
  destruct (Z.eq_dec (c mod 10) 0) as [Hm | Hm].
  - assert (Hq : c = 10 * (c / 10)) by (pose proof (Z.div_mod c 10); lia).
    destruct (IH (c / 10) ltac:(lia) ltac:(lia)) as (c' & t & Ht & Hc' & Hm' & Hb).
    exists c', (t + 1). rewrite Z.pow_add_r by lia. simpl (10 ^ 1).
    repeat split; try lia.
  - exists c, 0. simpl. repeat split; lia.
Qed.

Lemma ndigits_le_prec (c : Z) : 0 < c < 10 ^ prec -> ndigits c <= prec.
Proof.
  intros [Hc Hb]. destruct (ndigits_spec c Hc) as (H1 & H2 & _).
  destruct (Z_le_gt_dec (ndigits c) prec); [assumption|].
  assert (10 ^ prec <= 10 ^ (ndigits c - 1)) by (apply Z.pow_le_mono_r; lia).
  lia.
Qed.

(** ** The formatted amount *)

Lemma int_of_digits_zeros (n : nat) : int_of_digits (zeros n) = 0.
Proof.
  induction n as [|n IH]; [reflexivity|].
  change (zeros (S n)) with ([ "0"%char ] ++ zeros n).
  rewrite int_of_digits_app, IH. reflexivity.
Qed.

Lemma int_of_digits_leading_zeros (n : nat) (ds : pystr) :
  int_of_digits (zeros n ++ ds) = int_of_digits ds.
Proof. rewrite int_of_digits_app, int_of_digits_zeros. lia. Qed.

Lemma int_of_digits_trailing_zeros (n : nat) (ds : pystr) :
  int_of_digits (ds ++ zeros n) = int_of_digits ds * 10 ^ Z.of_nat n.
Proof.
  rewrite int_of_digits_app, int_of_digits_zeros.
  unfold zeros. rewrite repeat_length. lia.
Qed.

Lemma zeros_are_digits (n : nat) : forallb is_digit (zeros n) = true.
Proof. induction n; [reflexivity | assumption]. Qed.

Lemma digits_no_point (s : pystr) :
  forallb is_digit s = true -> has_char "." s = false.
Proof.
  induction s as [|c s IH]; [reflexivity|]. cbn [forallb has_char existsb].
  intros H. apply andb_true_iff in H as [Hc Hs].
  rewrite Ascii.eqb_sym, (digit_not_char c "." Hc eq_refl). now apply IH.
Qed.

Lemma read_decimal_integer (ds : pystr) :
  ds <> [] -> forallb is_digit ds = true ->
  read_decimal ds = Some (int_of_digits ds, 0).
Proof.
  intros Hne Hd. unfold read_decimal.
  rewrite <- (app_nil_r ds) at 1.
  rewrite span_digits_all by (assumption || exact I).
  destruct ds; [contradiction | reflexivity].
Qed.

Lemma read_decimal_fraction (ip fp : pystr) :
  ip <> [] -> fp <> [] ->
  forallb is_digit ip = true -> forallb is_digit fp = true ->
  read_decimal (ip ++ "."%char :: fp)
  = Some (int_of_digits (ip ++ fp), Z.of_nat (length fp)).
Proof.
  intros Hi Hf Hdi Hdf. unfold read_decimal.
  rewrite span_digits_all by (assumption || reflexivity).
  destruct ip; [contradiction|]. destruct fp; [contradiction|].
  rewrite Hdf. reflexivity.
Qed.

Lemma digits_snoc (n : Z) :
  0 <= n -> exists ds, digits n = ds ++ [digit_char (n mod 10)].
Proof.
  intros Hn. destruct (Z_lt_le_dec n 10).
  - exists []. rewrite digits_small, Z.mod_small by lia. reflexivity.
  - eexists. apply digits_step. lia.
Qed.

Lemma forallb_firstn (f : ascii -> bool) (n : nat) (l : pystr) :
  forallb f l = true -> forallb f (firstn n l) = true.
Proof.
  intros H. apply forallb_forall. intros x Hx. apply In_firstn in Hx.
  rewrite forallb_forall in H. now apply H.
Qed.

Lemma forallb_skipn (f : ascii -> bool) (n : nat) (l : pystr) :
  forallb f l = true -> forallb f (skipn n l) = true.
Proof.
  intros H. rewrite <- (firstn_skipn n l), forallb_app in H.
  now apply andb_true_iff in H.
Qed.

Lemma with_point (l : pystr) :
  l <> [] -> match l with [] => [] | _ :: _ => "."%char :: l end = "."%char :: l.
Proof. destruct l; [contradiction | reflexivity]. Qed.

(** The plain notation of [c * 10^k], for [c] not divisible by ten: it reads
    back as this number, and when it has a point it ends with the last digit
    of [c]. *)
Lemma format_f_exact (c k : Z) :
  0 < c -> c mod 10 <> 0 ->
  read_decimal (format_f (mkDecimal false c k))
    = Some (c * 10 ^ Z.max k 0, Z.max (- k) 0) /\
  format_f (mkDecimal false c k) <> [] /\
  (has_char "." (format_f (mkDecimal false c k)) = true ->
   ends_nonzero (format_f (mkDecimal false c k))).
Proof.
  intros Hc Hc10.
  pose proof (digits_are_digits c ltac:(lia)) as Hd.
  pose proof (digits_nonempty c ltac:(lia)) as Hne.
  pose proof (int_of_digits_digits c ltac:(lia)) as Hv.
  destruct (digits_snoc c ltac:(lia)) as [ds' Hsn].
  pose proof (Z.mod_pos_bound c 10 ltac:(lia)) as Hr.
  assert (Hend : forall pre suf, suf <> [] -> (exists a, digits c = a ++ suf) ->
                                 ends_nonzero (pre ++ suf)).
  { intros pre suf Hsuf [a Ha]. rewrite Hsn in Ha.
    destruct (exists_last Hsuf) as (suf' & x & ->).
    rewrite app_assoc in Ha. apply app_inj_tail in Ha as [_ <-].
    exists (pre ++ suf'), (c mod 10). rewrite app_assoc. split; [reflexivity | lia]. }
  unfold format_f. cbn [coeff dexp dsign].
  replace (c =? 0) with false by (symmetry; apply Z.eqb_neq; lia).
  cbn [andb coeff dexp dsign app].
  set (ds := digits c) in *. set (n := length ds).
  assert (Hn : (1 <= n)%nat) by (unfold n; destruct ds; [contradiction | simpl; lia]).
  destruct (Z.ltb_spec (k + Z.of_nat n) 0) as [Hneg | Hnn].
  - (* 0.000ddd *)
    set (j := Z.to_nat (- (k + Z.of_nat n))).
    assert (Hfp : zeros j ++ ds <> []) by (intros H; now apply app_eq_nil in H).
    rewrite (with_point _ Hfp).
    split; [|split].
    + change (lit "0" ++ "."%char :: zeros j ++ ds)
        with (zeros 1 ++ "."%char :: (zeros j ++ ds)).
      rewrite read_decimal_fraction;
        try (discriminate || assumption || apply zeros_are_digits).
      * rewrite !int_of_digits_leading_zeros, Hv, length_app.
        unfold zeros at 1. rewrite repeat_length. fold n.
        rewrite Z.max_r, Z.max_l, Z.mul_1_r by lia.
        do 2 f_equal. lia.
      * rewrite forallb_app, zeros_are_digits. exact Hd.
    + discriminate.
    + intros _. apply (Hend (lit "0" ++ "."%char :: zeros j) ds Hne).
      now exists [].
  - destruct (Z.ltb_spec (Z.of_nat n) (k + Z.of_nat n)) as [Hpos | Hmid].
    + (* ddd000 *)
      replace (k + Z.of_nat n - Z.of_nat n) with k by lia. rewrite app_nil_r.
      assert (Hall : forallb is_digit (ds ++ zeros (Z.to_nat k)) = true)
        by (rewrite forallb_app, Hd; apply zeros_are_digits).
      split; [|split].
      * rewrite read_decimal_integer; try assumption.
        -- rewrite int_of_digits_trailing_zeros, Hv, Z2Nat.id by lia.
           now rewrite Z.max_l, Z.max_r by lia.
        -- intros H. now apply app_eq_nil in H.
      * intros H. now apply app_eq_nil in H.
      * intros H. rewrite digits_no_point in H by assumption. discriminate.
    + (* ddd.ddd *)
      set (p := Z.to_nat (k + Z.of_nat n)).
      assert (Hp : (p <= n)%nat) by (unfold p; lia).
      destruct (skipn p ds) as [|f0 fp] eqn:Efp.
      * (* no fraction *)
        assert (Hpn : p = n).
        { apply (f_equal (@length ascii)) in Efp. rewrite length_skipn in Efp.
          fold n in Efp. simpl in Efp. lia. }
        rewrite Hpn. unfold n. rewrite firstn_all, app_nil_r.
        destruct ds as [|d0 ds0] eqn:Eds; [contradiction|]. rewrite <- Eds in *.
        split; [|split].
        -- rewrite read_decimal_integer, Hv by assumption.
           assert (k = 0) by (unfold p in Hpn; lia). subst k.
           simpl. now rewrite Z.mul_1_r.
        -- assumption.
        -- intros H. rewrite digits_no_point in H by assumption. discriminate.
      * assert (Hfne : skipn p ds <> []) by (rewrite Efp; discriminate).
        rewrite <- Efp.
        assert (Hlen : length (skipn p ds) = (n - p)%nat) by apply length_skipn.
        assert (Hk : k < 0).
        { destruct (Z_lt_le_dec k 0); [assumption|].
          assert (Hpn : p = n) by (unfold p; lia).
          rewrite Hpn in Hfne. unfold n in Hfne. now rewrite skipn_all in Hfne. }
        clear Efp f0 fp.
        assert (Hread : forall ip, ip <> [] -> forallb is_digit ip = true ->
                  int_of_digits (ip ++ skipn p ds) = c ->
                  read_decimal (ip ++ "."%char :: skipn p ds)
                  = Some (c * 10 ^ Z.max k 0, Z.max (- k) 0)).
        { intros ip Hip Hdip Hval.
          rewrite read_decimal_fraction, Hval, Hlen;
            try assumption; [|now apply forallb_skipn].
          rewrite Z.max_r, Z.max_l, Z.mul_1_r by lia.
          do 2 f_equal. unfold p. lia. }
        assert (Hsuf : exists a, ds = a ++ skipn p ds)
          by (exists (firstn p ds); now rewrite firstn_skipn).
        destruct (firstn p ds) as [|i0 ip] eqn:Eip.
        -- assert (Hp0 : skipn p ds = ds).
           { rewrite <- (firstn_skipn p ds) at 2. now rewrite Eip. }
           split; [|split].
           ++ apply Hread; [discriminate | reflexivity |].
              change (lit "0") with (zeros 1).
              now rewrite int_of_digits_leading_zeros, Hp0.
           ++ discriminate.
           ++ intros _. apply (Hend (lit "0" ++ ["."%char]) (skipn p ds) Hfne) in Hsuf.
              now rewrite <- app_assoc in Hsuf.
        -- rewrite <- Eip.
           assert (Hine : firstn p ds <> []) by (rewrite Eip; discriminate).
           split; [|split].
           ++ apply Hread; [assumption | now apply forallb_firstn |].
              now rewrite firstn_skipn.
           ++ intros H. now apply app_eq_nil in H as [H _].
           ++ intros _.
              apply (Hend (firstn p ds ++ ["."%char]) (skipn p ds) Hfne) in Hsuf.
              now rewrite <- app_assoc in Hsuf.
Qed.

Lemma rstrip_chars_id (chars s : pystr) :
  (exists s' x, s = s' ++ [x] /\ has_char x chars = false) ->
  rstrip_chars chars s = s.
Proof.
  intros (s' & x & -> & Hx). unfold rstrip_chars.
  rewrite rev_app_distr. cbn [rev app lstrip_chars]. rewrite Hx.
  cbn [rev]. now rewrite rev_involutive.
Qed.

Lemma nonzero_digit_kept (r : Z) :
  1 <= r <= 9 ->
  has_char (digit_char r) "0" = false /\ has_char (digit_char r) "." = false.
Proof.
  intros H.
  assert (r = 1 \/ r = 2 \/ r = 3 \/ r = 4 \/ r = 5 \/ r = 6 \/ r = 7 \/ r = 8 \/ r = 9)
    as Hr by lia.
  repeat destruct Hr as [-> | Hr]; try subst r; split; reflexivity.
Qed.

(** The two [rstrip] calls and the [or "0"] of [_fmt_amount] change nothing
    in a numeral that does not end with a zero of its fraction. *)
Lemma postprocess_id (out : pystr) :
  out <> [] -> (has_char "." out = true -> ends_nonzero out) ->
  match (if has_char "." out then rstrip_chars "." (rstrip_chars "0" out) else out) with
  | [] => lit "0"
  | _ :: _ => if has_char "." out then rstrip_chars "." (rstrip_chars "0" out) else out
  end = out.
Proof.
  intros Hne Hend.
  assert (H : (if has_char "." out then rstrip_chars "." (rstrip_chars "0" out) else out)
              = out).
  { destruct (has_char "." out); [|reflexivity].
    destruct (Hend eq_refl) as (s' & r & -> & Hr).
    destruct (nonzero_digit_kept r Hr) as [H0 Hp].
    rewrite (rstrip_chars_id "0") by eauto. apply rstrip_chars_id. eauto. }
  rewrite H. destruct out; [contradiction | reflexivity].
Qed.

Lemma _fmt_amount_eq (raw : value) (d : Z) (a p q n : Decimal) :
  0 <= d -> Decimal_of raw = Ok a -> pow10 d = Ok p -> truediv a p = Ok q ->
  normalize q = Ok n ->
  format_f n <> [] -> (has_char "." (format_f n) = true -> ends_nonzero (format_f n)) ->
  _fmt_amount raw d = Ok (format_f n).
Proof.
  intros Hd Ha Hp Hq Hn Hne Hend. unfold _fmt_amount.
  replace (0 <=? d) with true by (symmetry; apply Z.leb_le; lia).
  rewrite Ha, Hp. cbn [bind]. rewrite Hq. cbn [bind]. rewrite Hn. cbn [bind].
  f_equal. now apply postprocess_id.
Qed.

Lemma fmt_amount_zero (s : pystr) (d : Z) :
  s <> [] -> forallb is_digit s = true -> int_of_digits s = 0 ->
  0 <= d <= Emax ->
  _fmt_amount (VStr s) d = Ok (lit "0").
Proof.
  intros Hne Hs Hv Hd.
  pose proof (pow10_pos (Z.min d 59) ltac:(lia)) as Hp.
  assert (Hz : forall e, _fix (mkDecimal false 0 e)
                         = Ok (mkDecimal false 0 (Z.min (Z.max e Etiny) Emax)))
    by reflexivity.
  apply (_fmt_amount_eq (VStr s) d (mkDecimal false 0 0)
           (mkDecimal false (10 ^ Z.min d 59) (d - Z.min d 59))
           (mkDecimal false 0 (Z.min (Z.max (0 - (d - Z.min d 59)) Etiny) Emax))
           (mkDecimal false 0 0)).
  - lia.
  - rewrite Decimal_of_digits, Hv; try assumption; [reflexivity|].
    rewrite Hv. vm_compute. discriminate.
  - now apply pow10_eq.
  - unfold truediv. cbn [coeff dexp dsign xorb].
    replace (10 ^ Z.min d 59 =? 0) with false by (symmetry; apply Z.eqb_neq; lia).
    cbn [Z.eqb]. apply Hz.
  - unfold normalize. rewrite Hz. reflexivity.
  - discriminate.
  - discriminate.
Qed.

(** The formatter on a value with at most 60 significant digits. *)
Lemma fmt_amount_quotient (s : pystr) (d : Z) :
  base_units s -> 0 <= d <= Emax ->
  exists out n f,
    _fmt_amount (VStr s) d = Ok out /\
    read_decimal out = Some (n, f) /\
    n * 10 ^ d = int_of_digits s * 10 ^ f /\
    (has_char "." out = true -> ends_nonzero out) /\
    (int_of_digits s = 0 -> out = lit "0").
Proof.
  intros (Hne & Hs & Hlen & c & z & Hv & Hz & Hc) Hd.
  destruct (Z.eq_dec c 0) as [-> | Hc0].
  - assert (Hv0 : int_of_digits s = 0) by lia.
    exists (lit "0"), 0, 0. rewrite fmt_amount_zero, Hv0 by assumption.
    repeat split; try reflexivity; discriminate.
  - destruct (trailing_zeros_decomposition c ltac:(lia)) as (c' & t & Ht & Hct & Hm & Hb).
    assert (Hv' : int_of_digits s = c' * 10 ^ (t + z))
      by (rewrite Hv, Hct, Z.pow_add_r by lia; lia).
    pose proof (pow10_pos (t + z) ltac:(lia)) as Hp.
    assert (Hpos : 0 < int_of_digits s) by nia.
    assert (Hn : ndigits c' <= prec) by (apply ndigits_le_prec; lia).
    pose proof (ndigits_le_length s Hs Hpos) as Hl.
    rewrite Hv', ndigits_mul_pow in Hl by lia.
    destruct (truediv_exact c' (t + z) d) as (w & Hw & Hnw & Hew & Hdiv);
      try lia.
    pose proof (normalize_exact c' w (t + z - d - w)) as Hnorm.
    replace (t + z - d - w + w) with (t + z - d) in Hnorm by lia.
    destruct (format_f_exact c' (t + z - d) ltac:(lia) Hm) as (Hread & Hfne & Hend).
    exists (format_f (mkDecimal false c' (t + z - d))).
    exists (c' * 10 ^ Z.max (t + z - d) 0), (Z.max (- (t + z - d)) 0).
    split; [|split; [exact Hread | split; [|split; [exact Hend | lia]]]].
    + eapply _fmt_amount_eq; try eassumption.
      * lia.
      * rewrite Decimal_of_digits, Hv'; try assumption; [reflexivity|].
        rewrite Hv', ndigits_mul_pow by lia. lia.
      * now apply pow10_eq.
      * apply Hnorm; unfold Etiny, Emin, Emax, prec in *; lia.
    + rewrite Hv', <- !Z.mul_assoc, <- !Z.pow_add_r by lia.
      do 2 f_equal. lia.
Qed.

(** ** Well-formed records *)

Lemma digit_not_int_space (c : ascii) : is_digit c = true -> is_int_space c = false.
Proof.
  intros H. apply is_digit_val in H. unfold digit_val, is_int_space in *.
  zcases; reflexivity.
Qed.

Lemma int_literal_digits_all (s : pystr) (after_digit : bool) :
  forallb is_digit s = true -> s <> [] \/ after_digit = true ->
  int_literal_digits s after_digit = Some s.
Proof.
  revert after_digit. induction s as [|c s IH]; intros b Hs Hb.
  - destruct Hb as [Hb | ->]; [contradiction | reflexivity].
  - cbn [forallb int_literal_digits] in *.
    apply andb_true_iff in Hs as [Hc Hs]. rewrite Hc, IH; auto.
Qed.

(** [int] of a string of digits. *)
Lemma int_of_str_digits (s : pystr) :
  s <> [] -> forallb is_digit s = true -> (length s <= int_max_str_digits)%nat ->
  int_of_str s = Ok (int_of_digits s).
Proof.
  intros Hne Hs Hl. unfold int_of_str, strip_by.
  assert (Hstrip : forall t, forallb is_digit t = true -> lstrip_by is_int_space t = t).
  { intros [|c t] Ht; [reflexivity|]. cbn [forallb lstrip_by] in *.
    apply andb_true_iff in Ht as [Hc _]. now rewrite digit_not_int_space. }
  rewrite (Hstrip s Hs), Hstrip, rev_involutive.
  - destruct s as [|c s]; [contradiction|].
    assert (Hc : is_digit c = true)
      by (cbn [forallb] in Hs; now apply andb_true_iff in Hs).
    rewrite (digit_not_char c "-" Hc eq_refl), (digit_not_char c "+" Hc eq_refl).
    rewrite int_literal_digits_all by (auto; left; discriminate).
    replace (int_max_str_digits <? length (c :: s))%nat with false; [reflexivity|].
    symmetry. apply Nat.ltb_ge. exact Hl.
  - apply forallb_forall. intros c Hc. apply in_rev in Hc.
    eapply forallb_digit_In; eassumption.
Qed.

Lemma _iso_utc_returns (ts : Z) :
  -62135596800 <= ts <= 253402300799 -> exists s, _iso_utc ts = Ok s.
Proof.
  intros H. unfold _iso_utc.
  replace ((ts <? -62135596800) || (253402300799 <? ts)) with false
    by (symmetry; apply orb_false_iff; split; apply Z.ltb_ge; lia).
  destruct (civil_from_days (ts / 86400)) as [[y m] d]. eauto.
Qed.

Lemma unix_time_parsed (t : pystr) :
  unix_time t ->
  py_int (VStr t) = Ok (int_of_digits t) /\ exists s, _iso_utc (int_of_digits t) = Ok s.
Proof.
  intros (Hne & Hd & Hl & Hmax). split.
  - now apply int_of_str_digits.
  - apply _iso_utc_returns. pose proof (int_of_digits_bound t Hd). lia.
Qed.

Lemma or_empty_lower_text (o : option value) :
  text_or_absent o ->
  exists s, or_empty_lower (match o with Some v => v | None => VStr [] end) = Ok s.
Proof.
  intros [-> | [-> | [s ->]]]; try (now exists []).
  exists (lower s). apply or_empty_lower_str.
Qed.

Lemma _direction_returns (me : pystr) (f t : option value) :
  text_or_absent f -> text_or_absent t ->
  exists dir,
    _direction (VStr me) (match f with Some v => v | None => VStr [] end)
               (match t with Some v => v | None => VStr [] end) = Ok dir.
Proof.
  intros Hf Ht. unfold _direction. rewrite or_empty_lower_str. cbn [bind].
  destruct (or_empty_lower_text f Hf) as [sf ->]. cbn [bind].
  destruct (str_eqb sf (lower me)); [eauto|].
  destruct (or_empty_lower_text t Ht) as [st ->]. cbn [bind].
  destruct (str_eqb st (lower me)); eauto.
Qed.

Lemma amount_returns (o : option value) (d : Z) :
  o = None \/ (exists v, o = Some (VStr v) /\ base_units v) ->
  0 <= d <= Emax ->
  exists out, _fmt_amount (match o with Some v => v | None => VStr "0" end) d = Ok out.
Proof.
  intros [-> | (v & -> & Hv)] Hd.
  - exists (lit "0"). apply fmt_amount_zero; try reflexivity; [discriminate | assumption].
  - destruct (fmt_amount_quotient v d Hv Hd) as (out & _ & _ & H & _). eauto.
Qed.

Lemma bind_returns {A B : Type} (m : result A) (k : A -> result B) (a : A) :
  m = Ok a -> (exists b, k a = Ok b) -> exists b, bind m k = Ok b.
Proof. intros -> H. exact H. Qed.

(** One step of a computation that returns: the first bind returns by [tac],
    the rest is left. *)
Ltac returns_by tac :=
  match goal with
  | |- exists b, bind ?m _ = Ok b =>
      let H := fresh "H" in
      assert (H : exists a, m = Ok a) by tac;
      let a := fresh "a" in
      destruct H as [a H];
      apply (bind_returns _ _ a H); clear H; cbv beta
  end.

(** A well-formed native-coin record always normalizes. *)
Lemma eth_item_returns (me : pystr) (it : value) :
  native_record_ok it -> exists item, _normalize_eth_item me it = Ok item.
Proof.
  intros (d & -> & (t & Ht & Htime) & (h & Hh) & Hf & Hto & Hfn & Hv).
  destruct (unix_time_parsed t Htime) as (Hint & iso & Hiso).
  pose proof (_direction_returns me _ _ Hf Hto) as Hdir.
  pose proof (amount_returns _ 18 Hv ltac:(unfold Emax; lia)) as Ham.
  unfold _normalize_eth_item, _wei_to_eth.
  apply (bind_returns _ _ (VStr t)); [unfold py_getitem; now rewrite Ht|].
  apply (bind_returns _ _ _ Hint).
  apply (bind_returns _ _ _ eq_refl).
  returns_by ltac:(destruct (eq_str _ "1"); simpl; eauto).
  apply (bind_returns _ _ _ eq_refl).
  returns_by ltac:(
    destruct Hfn as [Hn | [Hn | [s Hn]]]; rewrite Hn;
    unfold py_or; try destruct (truthy (VStr s)); simpl; eauto).
  returns_by ltac:(eauto).
  returns_by ltac:(unfold py_getitem; rewrite Hh; eauto).
  do 4 apply (bind_returns _ _ _ eq_refl).
  returns_by ltac:(exact Hdir).
  apply (bind_returns _ _ _ eq_refl).
  returns_by ltac:(exact Ham).
  returns_by ltac:(unfold py_getitem; rewrite Hh; eauto).
  eauto.
Qed.

(** A well-formed token record always normalizes. *)
Lemma erc20_item_returns (me : pystr) (it : value) :
  token_record_ok it -> exists item, _normalize_erc20_item me it = Ok item.
Proof.
  intros (d & -> & (t & Ht & Htime) & (h & Hh) & Hf & Hto & Hdec & Hv).
  destruct (unix_time_parsed t Htime) as (Hint & iso & Hiso).
  pose proof (_direction_returns me _ _ Hf Hto) as Hdir.
  assert (Hn : exists n,
             py_int (py_or (match assoc "tokenDecimal" d with
                            | Some v => v | None => VNone end) (VInt 0)) = Ok n
             /\ 0 <= n <= Emax).
  { destruct Hdec as [-> | (n & -> & Hne & Hd & Hl & Hmax)].
    - exists 0. split; [reflexivity | unfold Emax; lia].
    - exists (int_of_digits n). unfold py_or.
      replace (truthy (VStr n)) with true by (destruct n; [contradiction | reflexivity]).
      split; [now apply int_of_str_digits|].
      pose proof (int_of_digits_bound n Hd). lia. }
  destruct Hn as (n & Hn & Hrange).
  pose proof (amount_returns _ n Hv Hrange) as Ham.
  unfold _normalize_erc20_item.
  apply (bind_returns _ _ (VStr t)); [unfold py_getitem; now rewrite Ht|].
  apply (bind_returns _ _ _ Hint).
  apply (bind_returns _ _ _ eq_refl).
  apply (bind_returns _ _ _ Hn).
  apply (bind_returns _ _ _ eq_refl). cbv zeta.
  returns_by ltac:(eauto).
  returns_by ltac:(unfold py_getitem; rewrite Hh; eauto).
  do 4 apply (bind_returns _ _ _ eq_refl).
  returns_by ltac:(exact Hdir).
  apply (bind_returns _ _ _ eq_refl).
  returns_by ltac:(exact Ham).
  apply (bind_returns _ _ _ eq_refl).
  returns_by ltac:(unfold py_getitem; rewrite Hh; eauto).
  eauto.
Qed.

Lemma counts_cover (l : list value) :
  Forall (fun x => type_of x = VStr "ETH" \/ type_of x = VStr "ERC20") l ->
  count_of "ETH" l + count_of "ERC20" l = Z.of_nat (length l).
Proof.
  unfold count_of. induction 1 as [|x l [Hx | Hx] _ IH]; [reflexivity| |];
    cbn [filter]; rewrite Hx.
  - change (eq_str (VStr "ETH") "ETH") with true.
    change (eq_str (VStr "ETH") "ERC20") with false.
    cbn [length]. rewrite !Nat2Z.inj_succ. lia.
  - change (eq_str (VStr "ERC20") "ETH") with false.
    change (eq_str (VStr "ERC20") "ERC20") with true.
    cbn [length]. rewrite !Nat2Z.inj_succ. lia.
Qed.

(* ================================================================== *)
(** * Part III: the statements of the specification *)
(* ================================================================== *)

(** C1, as the code has it: a body that is covered neither by the NOTOK rule
    nor by the no-transactions rule is returned as it is, whatever its
    status; the gateway raises nothing for it. *)
Theorem other_body_returned (net : upstream) (params q data : value)
    (status message : pystr) (log : list value) :
  answers net params q data ->
  status_message data status message ->
  ~ (status = lit "0" /\ message = lit "NOTOK") ->
  ~ (status = lit "0" /\ prefix_ci "no transactions" message) ->
  _etherscan net params log = (Ok data, log ++ [q]).
Proof.
  intros Ha Hsm H1 H2.
  rewrite (_etherscan_answered _ _ _ _ _ Ha), (translate_body_eq _ _ _ Hsm).
  destruct (str_eqb status "0" && str_eqb message "NOTOK") eqn:E1.
  - apply andb_true_iff in E1 as [Ea Eb]. apply str_eqb_eq in Ea, Eb. tauto.
  - destruct (str_eqb status "0" && startswith (lower message) "no transactions") eqn:E2;
      [|reflexivity].
    apply andb_true_iff in E2 as [Ea Eb]. apply str_eqb_eq in Ea.
    apply startswith_lower_spec in Eb; [tauto | reflexivity].
Qed.

Lemma other_body_returned_witness :
  answers unknown_failure_net (txlist_params sample_address 25)
          (with_apikey (txlist_params sample_address 25)) unknown_failure_body /\
  status_message unknown_failure_body "0" "Unexpected error" /\
  _etherscan unknown_failure_net (txlist_params sample_address 25) []
    = (Ok unknown_failure_body, [] ++ [with_apikey (txlist_params sample_address 25)]).
Proof.
  split; [split; reflexivity|]. split; [split; reflexivity|].
  apply (other_body_returned unknown_failure_net (txlist_params sample_address 25)
           (with_apikey (txlist_params sample_address 25)) unknown_failure_body
           "0" "Unexpected error" []).
  - split; reflexivity.
  - split; reflexivity.
  - intros [_ H]. discriminate H.
  - intros [_ H]. apply startswith_lower_spec in H; [discriminate H | reflexivity].
Defined.

(** C1 fails as stated: for a body with status "0" and a message that is
    neither "NOTOK" nor starts with "no transactions", the gateway returns
    the body instead of raising a 502. *)
Lemma other_status_not_an_error :
  status_message unknown_failure_body "0" "Unexpected error" /\
  lit "Unexpected error" <> lit "NOTOK" /\
  startswith (lower "Unexpected error") "no transactions" = false /\
  fst (_etherscan unknown_failure_net (txlist_params sample_address 25) [])
    = Ok unknown_failure_body /\
  (forall detail,
      fst (_etherscan unknown_failure_net (txlist_params sample_address 25) [])
      <> Raise (HTTPException 502 detail)).
Proof.
  repeat split; try reflexivity; try discriminate.
Qed.

(** C2: for a valid address and a limit [N] between 1 and 200, the handler
    answers with the first [N] items of the list [sorted], which holds the
    normalized native-coin items followed by the normalized token items,
    rearranged into decreasing timestamps with the items of each timestamp
    in the order they had in the concatenation (hence native before token);
    the counts of the answer are those of the returned items, each of which
    is counted in one of the two categories.  With native
    records at 100 and 50 and a token record at 80, the order is 100, 80, 50
    and the limit 2 gives the items at 100 and 80 with one item of each
    category. *)
Theorem feed_merge :
  (forall (net : upstream) (address : pystr) (N : Z) (q1 q2 : value)
          (eth_items erc20_items : list value) (log : list value),
      _is_valid_address address = true ->
      1 <= N <= 200 ->
      fetched net address N q1 q2 eth_items erc20_items ->
      exists sorted,
        get_transactions net address (Some N) log =
          (Ok (feed address (firstn (Z.to_nat N) sorted)), log ++ [q1; q2]) /\
        Permutation sorted (eth_items ++ erc20_items) /\
        StronglySorted newer_first sorted /\
        (forall t, at_time t sorted = at_time t eth_items ++ at_time t erc20_items) /\
        count_of "ETH" (firstn (Z.to_nat N) sorted)
          + count_of "ERC20" (firstn (Z.to_nat N) sorted)
          = Z.of_nat (length (firstn (Z.to_nat N) sorted)) /\
        Forall (fun x => type_of x = VStr "ETH") eth_items /\
        Forall (fun x => type_of x = VStr "ERC20") erc20_items) /\
  (fst (get_transactions sample_net sample_address (Some 3) [])
     = Ok (feed sample_address [x100; x80; x50]) /\
   fst (get_transactions sample_net sample_address (Some 2) [])
     = Ok (feed sample_address [x100; x80]) /\
   map timestamp_of [x100; x80; x50] = [100; 80; 50] /\
   map type_of [x100; x80; x50] = [VStr "ETH"; VStr "ERC20"; VStr "ETH"] /\
   count_of "ETH" [x100; x80] = 1 /\ count_of "ERC20" [x100; x80] = 1).
Proof.
  split.
  - intros net address N q1 q2 eth erc log Hv HN Hf.
    destruct (fetched_items _ _ _ _ _ _ _ Hf) as [He Hr].
    assert (Hl : Forall is_item (eth ++ erc)).
    { apply Forall_app. split; eapply Forall_impl; try eassumption; now intros x [H _]. }
    exists (sorted_feed (eth ++ erc)).
    rewrite (get_transactions_fetched _ _ _ _ _ _ _ _ Hv HN Hf).
    rewrite merge_feed_eq by (assumption || lia).
    split; [reflexivity|]. split; [apply sorted_feed_perm|].
    split; [apply sorted_feed_sorted|].
    split; [intros t; rewrite sorted_feed_stable; apply filter_app|].
    split; [|split; eapply Forall_impl; try eassumption; now intros x [_ H]].
    apply counts_cover, Forall_forall. intros x Hx. apply In_firstn in Hx.
    eapply Permutation_in in Hx; [|apply sorted_feed_perm].
    apply in_app_or in Hx as [Hx | Hx]; [left | right].
    + rewrite Forall_forall in He. now apply He.
    + rewrite Forall_forall in Hr. now apply Hr.
  - repeat apply conj; vm_compute; reflexivity.
Qed.

Lemma feed_merge_witness :
  _is_valid_address sample_address = true /\
  1 <= 2 <= 200 /\
  exists sorted,
    get_transactions sample_net sample_address (Some 2) [] =
      (Ok (feed sample_address (firstn (Z.to_nat 2) sorted)),
       [] ++ [with_apikey (txlist_params sample_address 2);
              with_apikey (tokentx_params sample_address 2)]) /\
    Permutation sorted ([x100; x50] ++ [x80]) /\
    StronglySorted newer_first sorted.
Proof.
  split; [vm_compute; reflexivity|]. split; [lia|].
  destruct (proj1 feed_merge sample_net sample_address 2
              (with_apikey (txlist_params sample_address 2))
              (with_apikey (tokentx_params sample_address 2))
              [x100; x50] [x80] [])
    as (sorted & H1 & H2 & H3 & _).
  - vm_compute; reflexivity.
  - lia.
  - exists (ok_body [native_record "100"; native_record "50"]),
           (ok_body [token_record "80"]),
           (ok_body [native_record "100"; native_record "50"]),
           (ok_body [token_record "80"]),
           [native_record "100"; native_record "50"], [token_record "80"].
    repeat apply conj; vm_compute; reflexivity.
  - exists sorted. auto.
Defined.

(** C3, as the code has it: for a value written with decimal digits, of
    which at most 60 are significant (it is [c * 10^z] with [c < 10^60]),
    and a precision [d] from 0 to 999999, the formatter returns a numeral
    that denotes the quotient [value / 10^d] exactly ([n / 10^f] with
    [n * 10^d = value * 10^f]), that has no trailing zero behind a point and
    no trailing point, and that is "0" for the value 0; 10^18 with precision
    18 gives "1", and 15 * 10^17 gives "1.5". *)
Theorem fmt_amount_exact :
  (forall (s : pystr) (d c z : Z),
      s <> [] -> forallb is_digit s = true ->
      Z.of_nat (length s) <= Emax + 1 ->
      0 <= d <= Emax ->
      int_of_digits s = c * 10 ^ z -> 0 <= z -> 0 <= c < 10 ^ prec ->
      exists out n f,
        _fmt_amount (VStr s) d = Ok out /\
        read_decimal out = Some (n, f) /\
        n * 10 ^ d = int_of_digits s * 10 ^ f /\
        (has_char "." out = true -> ends_nonzero out) /\
        (int_of_digits s = 0 -> out = lit "0")) /\
  _fmt_amount (VStr "1000000000000000000") 18 = Ok (lit "1") /\
  _fmt_amount (VStr "1500000000000000000") 18 = Ok (lit "1.5").
Proof.
  split; [|split; vm_compute; reflexivity].
  intros s d c z Hne Hs Hlen Hd Hv Hz Hc.
  apply fmt_amount_quotient; [|exact Hd].
  repeat split; try assumption. exists c, z. auto.
Qed.

Lemma fmt_amount_exact_witness :
  int_of_digits "1500000000000000000" = 15 * 10 ^ 17 /\
  exists out n f,
    _fmt_amount (VStr "1500000000000000000") 18 = Ok out /\
    read_decimal out = Some (n, f) /\
    n * 10 ^ 18 = int_of_digits "1500000000000000000" * 10 ^ f.
Proof.
  split; [vm_compute; reflexivity|].
  destruct (proj1 fmt_amount_exact "1500000000000000000" 18 15 17)
    as (out & n & f & H1 & H2 & H3 & _).
  - discriminate.
  - vm_compute; reflexivity.
  - vm_compute; discriminate.
  - unfold Emax; lia.
  - vm_compute; reflexivity.
  - lia.
  - split; [lia | vm_compute; reflexivity].
  - exists out, n, f. auto.
Defined.

(** C3 fails as stated: [2^256 - 1] has 78 significant digits, and with
    precision 18 the formatter returns the quotient rounded to 60 of them,
    an integer, while the exact quotient has 18 digits behind the point. *)
Lemma fmt_amount_rounds :
  forallb is_digit uint256_max = true /\
  _fmt_amount (VStr uint256_max) 18
    = Ok (lit "115792089237316195423570985008687907853269984665640564039458") /\
  read_decimal "115792089237316195423570985008687907853269984665640564039458"
    = Some (115792089237316195423570985008687907853269984665640564039458, 0) /\
  115792089237316195423570985008687907853269984665640564039458 * 10 ^ 18
    <> int_of_digits uint256_max * 10 ^ 0.
Proof.
  repeat split; try (vm_compute; reflexivity).
  vm_compute. discriminate.
Qed.

(** C4: a body with status "0" and message "NOTOK" makes the gateway fail:
    with a 429 that carries the result text when this text contains "rate
    limit" up to case, with a 502 that carries it otherwise.  (The detail is
    the text behind a fixed prefix; an empty text is replaced by "Etherscan
    NOTOK".)  Whatever the result payload is, the gateway fails with one of
    the two. *)
Theorem notok_fails (net : upstream) (params q data : value) (log : list value) :
  answers net params q data ->
  status_message data "0" "NOTOK" ->
  (forall r : pystr,
      py_get data "result" VNone = Ok (VStr r) ->
      (contains_ci r "rate limit" ->
       _etherscan net params log =
         (Raise (HTTPException 429 (lit "Etherscan: " ++ r)), log ++ [q]) /\
       carries (lit "Etherscan: " ++ r) r) /\
      (~ contains_ci r "rate limit" ->
       exists detail,
         _etherscan net params log = (Raise (HTTPException 502 detail), log ++ [q]) /\
         carries detail r /\
         detail = lit "Etherscan error: " ++ (if str_eqb r [] then lit "Etherscan NOTOK" else r))) /\
  (exists code detail,
      _etherscan net params log = (Raise (HTTPException code detail), log ++ [q]) /\
      (code = 429 \/ code = 502)).
Proof.
  intros Ha Hsm. rewrite (_etherscan_answered _ _ _ _ _ Ha).
  rewrite (translate_body_eq _ _ _ Hsm). cbn [str_eqb andb].
  change (str_eqb "0" "0" && str_eqb "NOTOK" "NOTOK") with true. cbv iota.
  destruct Hsm as [Hs _]. apply str_field_dict in Hs as [d ->]. split.
  - intros r Hr. rewrite Hr. cbn [bind]. unfold py_or. cbn [truthy].
    destruct (str_eqb r []) eqn:Er.
    + apply str_eqb_eq in Er. subst r. split.
      * intros (a & m & b & H & Hm). exfalso.
        destruct a, m; discriminate.
      * intros _. eexists. split; [reflexivity|]. split; [|reflexivity].
        now exists (lit "Etherscan error: Etherscan NOTOK"), [].
    + cbn [negb py_str]. split.
      * intros Hc. apply contains_lower_spec in Hc; [|reflexivity].
        rewrite Hc. split; [reflexivity|]. exists (lit "Etherscan: "), [].
        now rewrite app_nil_r.
      * intros Hc. destruct (contains (lower r) "rate limit") eqn:Ec.
        { apply contains_lower_spec in Ec; [contradiction | reflexivity]. }
        eexists. split; [reflexivity|]. split; [|reflexivity].
        exists (lit "Etherscan error: "), []. now rewrite app_nil_r.
  - simpl py_get. cbn [bind].
    match goal with |- context [contains ?x ?y] => destruct (contains x y) end;
      do 2 eexists; split; try reflexivity; auto.
Qed.

Lemma notok_fails_witness :
  answers rate_limited_net (txlist_params sample_address 25)
          (with_apikey (txlist_params sample_address 25)) rate_limited_body /\
  status_message rate_limited_body "0" "NOTOK" /\
  contains_ci "Max rate limit reached" "rate limit" /\
  _etherscan rate_limited_net (txlist_params sample_address 25) [] =
    (Raise (HTTPException 429 (lit "Etherscan: " ++ lit "Max rate limit reached")),
     [] ++ [with_apikey (txlist_params sample_address 25)]).
Proof.
  assert (Hc : contains_ci "Max rate limit reached" "rate limit")
    by (exists (lit "Max "), (lit "rate limit"), (lit " reached"); split; reflexivity).
  split; [split; reflexivity|]. split; [split; reflexivity|]. split; [exact Hc|].
  apply (proj1 (notok_fails rate_limited_net (txlist_params sample_address 25)
                  (with_apikey (txlist_params sample_address 25)) rate_limited_body []
                  (conj eq_refl eq_refl) (conj eq_refl eq_refl))
               "Max rate limit reached" eq_refl).
  exact Hc.
Defined.

(** C5: a body with status "0" whose message starts with "no transactions"
    up to case is not a failure: the gateway returns a success with the
    empty list as result. *)
Theorem no_transactions_remap (net : upstream) (params q data : value)
    (message : pystr) (log : list value) :
  answers net params q data ->
  status_message data "0" message ->
  prefix_ci "no transactions" message ->
  _etherscan net params log =
    (Ok (VDict [(lit "status", VStr "1"); (lit "result", VList [])]), log ++ [q]) /\
  py_get (VDict [(lit "status", VStr "1"); (lit "result", VList [])]) "result" (VList [])
    = Ok (VList []).
Proof.
  intros Ha Hsm Hp. split; [|reflexivity].
  rewrite (_etherscan_answered _ _ _ _ _ Ha), (translate_body_eq _ _ _ Hsm).
  apply startswith_lower_spec in Hp; [|reflexivity].
  destruct (str_eqb message "NOTOK") eqn:En.
  - apply str_eqb_eq in En. subst message. discriminate Hp.
  - rewrite Hp. now rewrite andb_false_r.
Qed.

Lemma no_transactions_remap_witness :
  answers empty_net (tokentx_params sample_address 25)
          (with_apikey (tokentx_params sample_address 25)) no_transactions_body /\
  status_message no_transactions_body "0" "No transactions found" /\
  prefix_ci "no transactions" "No transactions found" /\
  _etherscan empty_net (tokentx_params sample_address 25) [] =
    (Ok (VDict [(lit "status", VStr "1"); (lit "result", VList [])]),
     [] ++ [with_apikey (tokentx_params sample_address 25)]).
Proof.
  assert (Hp : prefix_ci "no transactions" "No transactions found")
    by (exists (lit "No transactions"), (lit " found"); split; reflexivity).
  split; [split; reflexivity|]. split; [split; reflexivity|]. split; [exact Hp|].
  apply (no_transactions_remap empty_net (tokentx_params sample_address 25)
           (with_apikey (tokentx_params sample_address 25)) no_transactions_body
           "No transactions found" []
           (conj eq_refl eq_refl) (conj eq_refl eq_refl) Hp).
Defined.

(** C6: the direction is "out" when the sender is the queried address up to
    case, else "in" when the recipient is, else "other"; the native-coin and
    the token normalizer both derive the direction of their item by this
    rule. *)
Theorem direction_rule :
  (forall A sender recipient : pystr,
      (eq_ci sender A ->
       _direction (VStr A) (VStr sender) (VStr recipient) = Ok (lit "out")) /\
      (~ eq_ci sender A -> eq_ci recipient A ->
       _direction (VStr A) (VStr sender) (VStr recipient) = Ok (lit "in")) /\
      (~ eq_ci sender A -> ~ eq_ci recipient A ->
       _direction (VStr A) (VStr sender) (VStr recipient) = Ok (lit "other"))) /\
  item_direction_ok _normalize_eth_item /\
  item_direction_ok _normalize_erc20_item.
Proof.
  split; [|split; [apply eth_item_direction | apply erc20_item_direction]].
  intros A s r. unfold eq_ci. rewrite _direction_str.
  destruct (str_eqb (lower s) (lower A)) eqn:Es;
    [apply str_eqb_eq in Es | apply str_eqb_neq in Es];
    (destruct (str_eqb (lower r) (lower A)) eqn:Er;
     [apply str_eqb_eq in Er | apply str_eqb_neq in Er]);
    (split; [|split]); intros; try reflexivity; contradiction.
Qed.

Lemma direction_rule_witness :
  eq_ci "0x00000000219AB540356CBB839CBE05303D7705FA" sample_address /\
  _direction (VStr sample_address)
             (VStr "0x00000000219AB540356CBB839CBE05303D7705FA") (VStr "0xb")
    = Ok (lit "out") /\
  ~ eq_ci "0xc" sample_address /\
  _direction (VStr sample_address) (VStr "0xc")
             (VStr "0x00000000219AB540356CBB839CBE05303D7705FA")
    = Ok (lit "in") /\
  _direction (VStr sample_address) (VStr "0xc") (VStr "0xd") = Ok (lit "other").
Proof.
  assert (H1 : eq_ci "0x00000000219AB540356CBB839CBE05303D7705FA" sample_address)
    by reflexivity.
  assert (H2 : ~ eq_ci "0xc" sample_address) by discriminate.
  assert (H3 : ~ eq_ci "0xd" sample_address) by discriminate.
  split; [exact H1|]. split.
  - apply (proj1 (proj1 direction_rule sample_address
                    "0x00000000219AB540356CBB839CBE05303D7705FA" "0xb") H1).
  - split; [exact H2|]. split.
    + apply (proj1 (proj2 (proj1 direction_rule sample_address "0xc"
                             "0x00000000219AB540356CBB839CBE05303D7705FA")) H2 H1).
    + apply (proj2 (proj2 (proj1 direction_rule sample_address "0xc" "0xd")) H2 H3).
Defined.

(** C7: the item of the native-coin normalizer has as amount the record's
    value formatted with precision 18; as status "failed" when [isError] is
    "1", else "success" when [txreceipt_status] is "1", else "unknown"; and
    as function name the part of the record's [functionName] before its
    first "(" (all of it when it has none), the empty string when the record
    has no signature.  A well-formed record always normalizes. *)
Theorem eth_item_fields (me : pystr) (it : value) :
  (native_record_ok it -> exists item, _normalize_eth_item me it = Ok item) /\
  forall item,
  _normalize_eth_item me it = Ok item ->
  (exists v amount,
      py_get it "value" (VStr "0") = Ok v /\ _fmt_amount v 18 = Ok amount /\
      py_getitem item "amount" = Ok (VStr amount)) /\
  (exists e r,
      py_get it "isError" VNone = Ok e /\
      py_get it "txreceipt_status" VNone = Ok r /\
      py_getitem item "status" =
        Ok (VStr (if eq_str e "1" then lit "failed"
                  else if eq_str r "1" then lit "success" else lit "unknown"))) /\
  (exists f fn,
      py_get it "functionName" VNone = Ok f /\
      py_getitem item "functionName" = Ok (VStr fn) /\
      (truthy f = false -> fn = []) /\
      (forall s, f = VStr s ->
         ~ In "("%char fn /\ (s = fn \/ exists rest, s = fn ++ "("%char :: rest))).
Proof.
  split; [apply eth_item_returns|].
  intros item H. unfold _normalize_eth_item in H. bind_inv H.
  injection H as <-.
  split; [|split].
  - do 2 eexists. split; [reflexivity|]. split; [|reflexivity].
    match goal with E : _wei_to_eth _ = Ok _ |- _ => exact E end.
  - pose proof (py_get_total _ _ _ E "txreceipt_status" VNone) as [r Hr].
    match goal with
    | E : (if eq_str ?e _ then _ else _) = Ok _ |- _ =>
        exists e, r; split; [reflexivity|]; split; [assumption|];
        rewrite Hr in E;
        destruct (eq_str e "1"); cbn [bind] in E; now injection E as <-
    end.
  - match goal with
    | E : match py_or ?f _ with _ => _ end = Ok ?fn |- _ =>
        exists f, fn; split; [reflexivity|]; split; [reflexivity|];
        unfold py_or in E; split;
        [ intros Hf; rewrite Hf in E; now injection E as <-
        | intros s ->; destruct (truthy (VStr s)) eqn:Ht;
          [ injection E as <-; apply split_hd_spec
          | injection E as <-; simpl in Ht;
            apply negb_false_iff, str_eqb_eq in Ht; subst s; simpl; tauto ] ]
    end.
Qed.

Lemma eth_item_fields_witness :
  native_record_ok (native_record "100") /\
  (exists item, _normalize_eth_item sample_address (native_record "100") = Ok item) /\
  _normalize_eth_item sample_address (native_record "100") = Ok x100 /\
  py_getitem x100 "amount" = Ok (VStr "1.5") /\
  py_getitem x100 "status" = Ok (VStr "success") /\
  py_getitem x100 "functionName" = Ok (VStr "transfer").
Proof.
  assert (H : _normalize_eth_item sample_address (native_record "100") = Ok x100)
    by (vm_compute; reflexivity).
  assert (Hok : native_record_ok (native_record "100")).
  { eexists. split; [reflexivity|].
    split; [exists (lit "100"); split; [reflexivity|];
            split; [discriminate|]; split; [reflexivity|];
            split; [apply Nat.leb_le; vm_compute; reflexivity | vm_compute; discriminate]|].
    split; [eexists; reflexivity|].
    split; [right; right; eexists; reflexivity|].
    split; [right; right; eexists; reflexivity|].
    split; [right; right; eexists; reflexivity|].
    right. exists (lit "1500000000000000000"). split; [reflexivity|].
    split; [discriminate|]. split; [reflexivity|].
    split; [vm_compute; discriminate|].
    exists 15, 17. split; [reflexivity|]. split; [lia|]. split; [lia | reflexivity]. }
  split; [exact Hok|].
  split; [exact (proj1 (eth_item_fields sample_address (native_record "100")) Hok)|].
  split; [exact H|].
  destruct (proj2 (eth_item_fields sample_address (native_record "100")) x100 H)
    as ((v & amount & Hv & Ha & Hamount) & (e & r & He & Hr & Hstatus)
        & (f & fn & Hf & Hfn & _ & Hsig)).
  split; [|split].
  - rewrite Hamount. vm_compute in Hv. injection Hv as <-.
    vm_compute in Ha. injection Ha as <-. reflexivity.
  - rewrite Hstatus. vm_compute in He. injection He as <-.
    vm_compute in Hr. injection Hr as <-. reflexivity.
  - vm_compute in Hfn. injection Hfn as <-. reflexivity.
Defined.

(** C8 on the address ["0x" + 40 hex digits + "\n"]: it is not an address,
    yet [ADDR_RE] accepts it; the handler sends both queries with it and
    answers with a feed instead of a 400. *)
Theorem address_with_newline_accepted :
  ~ is_address newline_address /\
  _is_valid_address newline_address = true /\
  fst (get_transactions empty_net newline_address None []) = Ok (feed newline_address []) /\
  map (fun q => py_get q "address" VNone)
      (snd (get_transactions empty_net newline_address None []))
    = [Ok (VStr newline_address); Ok (VStr newline_address)].
Proof.
  split; [|repeat split; vm_compute; reflexivity].
  intros (h & H & Hl & _). apply (f_equal (@length ascii)) in H.
  cbn [length] in H. rewrite Hl in H. vm_compute in H. discriminate H.
Qed.

(** C9: a self-transfer, whose sender and recipient both are the queried
    address up to case, has direction "out". *)
Theorem direction_self_transfer (A sender recipient : pystr) :
  eq_ci sender A -> eq_ci recipient A ->
  _direction (VStr A) (VStr sender) (VStr recipient) = Ok (lit "out").
Proof.
  unfold eq_ci. intros Hs _. rewrite _direction_str.
  apply str_eqb_eq in Hs. now rewrite Hs.
Qed.

Lemma direction_self_transfer_witness :
  eq_ci "0x00000000219AB540356CBB839CBE05303D7705FA" sample_address /\
  eq_ci "0x00000000219ab540356cbb839cbe05303d7705fa" sample_address /\
  _direction (VStr sample_address)
             (VStr "0x00000000219AB540356CBB839CBE05303D7705FA")
             (VStr "0x00000000219ab540356cbb839cbe05303d7705fa")
    = Ok (lit "out").
Proof.
  split; [reflexivity|]. split; [reflexivity|].
  apply (direction_self_transfer sample_address
           "0x00000000219AB540356CBB839CBE05303D7705FA"
           "0x00000000219ab540356cbb839cbe05303d7705fa"); reflexivity.
Defined.

(** C10: the item of the token normalizer has a [functionName] field, and
    its value is the empty string.  A well-formed record always
    normalizes. *)
Theorem erc20_item_functionName (me : pystr) (it : value) :
  (token_record_ok it -> exists item, _normalize_erc20_item me it = Ok item) /\
  forall item,
    _normalize_erc20_item me it = Ok item ->
    py_getitem item "functionName" = Ok (VStr []).
Proof.
  split; [apply erc20_item_returns|].
  intros item H. unfold _normalize_erc20_item in H. bind_inv H.
  now injection H as <-.
Qed.

Lemma erc20_item_functionName_witness :
  token_record_ok (token_record "80") /\
  (exists item, _normalize_erc20_item sample_address (token_record "80") = Ok item) /\
  _normalize_erc20_item sample_address (token_record "80") = Ok x80 /\
  py_getitem x80 "functionName" = Ok (VStr []).
Proof.
  assert (H : _normalize_erc20_item sample_address (token_record "80") = Ok x80)
    by (vm_compute; reflexivity).
  assert (Hok : token_record_ok (token_record "80")).
  { eexists. split; [reflexivity|].
    split; [exists (lit "80"); split; [reflexivity|];
            split; [discriminate|]; split; [reflexivity|];
            split; [apply Nat.leb_le; vm_compute; reflexivity | vm_compute; discriminate]|].
    split; [eexists; reflexivity|].
    split; [right; right; eexists; reflexivity|].
    split; [right; right; eexists; reflexivity|].
    split.
    - right. exists (lit "6"). split; [reflexivity|]. split; [discriminate|].
      split; [reflexivity|].
      split; [apply Nat.leb_le; vm_compute; reflexivity | vm_compute; discriminate].
    - right. exists (lit "1234567"). split; [reflexivity|].
      split; [discriminate|]. split; [reflexivity|].
      split; [vm_compute; discriminate|].
      exists 1234567, 0. split; [reflexivity|]. split; [lia|].
      split; [lia | reflexivity]. }
  split; [exact Hok|].
  split; [exact (proj1 (erc20_item_functionName sample_address (token_record "80")) Hok)|].
  split; [exact H|].
  apply (proj2 (erc20_item_functionName sample_address (token_record "80")) x80 H).
Defined.

(* ================================================================== *)
(** * Part IV: further properties of the code *)
(* ================================================================== *)

(** ** The amount formatter beyond fractions *)

Lemma digits_mul_pow10 (c : Z) (k : nat) :
  0 < c -> digits (c * 10 ^ Z.of_nat k) = digits c ++ zeros k.
Proof.
  intros Hc. induction k as [|k IH].
  - simpl. now rewrite Z.mul_1_r, app_nil_r.
  - pose proof (pow10_pos (Z.of_nat k) ltac:(lia)) as Hp.
    rewrite Nat2Z.inj_succ, Z.pow_succ_r by lia.
    replace (c * (10 * 10 ^ Z.of_nat k)) with (c * 10 ^ Z.of_nat k * 10) by lia.
    rewrite digits_step by nia.
    rewrite Z.div_mul, Z.mod_mul, IH by lia.
    unfold zeros. cbn [repeat]. rewrite repeat_cons, app_assoc. reflexivity.
Qed.

(** [normalize] of an exactly representable value is its shortest
    coefficient. *)
Lemma normalize_value (c w e : Z) :
  0 < c -> c mod 10 <> 0 -> ndigits c <= prec -> 0 <= w ->
  Etiny <= e -> ndigits c + w + e <= Emax + 1 ->
  normalize (mkDecimal false (c * 10 ^ w) e) = Ok (mkDecimal false c (e + w)).
Proof.
  intros Hc Hc10 Hn Hw He Hmax.
  destruct (ndigits_spec c Hc) as (Hl1 & _).
  unfold normalize.
  rewrite fix_exact by (unfold Etiny, Etop, Emin, Emax, prec in *; lia).
  set (w' := Z.min w (prec - ndigits c)).
  assert (Hw' : 0 <= w' <= w) by (unfold w'; lia).
  pose proof (pow10_pos w' ltac:(lia)) as Hp.
  cbn [bind coeff dexp dsign].
  destruct (c * 10 ^ w' =? 0) eqn:E0; [apply Z.eqb_eq in E0; nia|].
  rewrite strip_zeros_exact by (assumption || lia).
  rewrite Z2Nat.id, Z.min_r by (unfold Emax in *; lia).
  rewrite Z.sub_diag, Z.mul_1_r. do 2 f_equal. lia.
Qed.

Lemma format_f_integer (c k : Z) :
  0 < c -> 0 <= k ->
  format_f (mkDecimal false c k) = digits c ++ zeros (Z.to_nat k).
Proof.
  intros Hc Hk. pose proof (digits_nonempty c ltac:(lia)) as Hne.
  unfold format_f. cbn [coeff dexp dsign].
  replace (c =? 0) with false by (symmetry; apply Z.eqb_neq; lia).
  cbn [andb coeff dexp dsign app].
  destruct (Z.ltb_spec (k + Z.of_nat (length (digits c))) 0); [lia|].
  destruct (Z.ltb_spec (Z.of_nat (length (digits c))) (k + Z.of_nat (length (digits c)))).
  - rewrite app_nil_r. do 2 f_equal. lia.
  - assert (k = 0) by lia. subst k. rewrite Z.add_0_l, Nat2Z.id.
    rewrite firstn_all, skipn_all, !app_nil_r.
    destruct (digits c); [contradiction | reflexivity].
Qed.

Lemma _fmt_amount_negative_eq (raw : value) (d : Z) (a n : Decimal) :
  d < 0 -> Decimal_of raw = Ok a -> normalize a = Ok n ->
  format_f n <> [] -> (has_char "." (format_f n) = true -> ends_nonzero (format_f n)) ->
  _fmt_amount raw d = Ok (format_f n).
Proof.
  intros Hd Ha Hn Hne Hend. unfold _fmt_amount.
  replace (0 <=? d) with false by (symmetry; apply Z.leb_gt; lia).
  rewrite Ha. cbn [bind]. rewrite Hn. cbn [bind].
  f_equal. now apply postprocess_id.
Qed.

(** The value of a digit string in its shortest form. *)
Lemma base_units_canonical (s : pystr) :
  base_units s -> 0 < int_of_digits s ->
  exists c z,
    int_of_digits s = c * 10 ^ z /\ 0 <= z /\ 0 < c /\ c mod 10 <> 0 /\
    ndigits c <= prec /\ ndigits c + z <= Emax + 1.
Proof.
  intros (Hne & Hs & Hlen & c & z & Hv & Hz & Hc) Hpos.
  assert (Hc0 : 0 < c).
  { destruct (Z.eq_dec c 0) as [-> | ]; lia. }
  destruct (trailing_zeros_decomposition c Hc0) as (c' & t & Ht & Hct & Hm & Hb).
  exists c', (t + z).
  assert (Hv' : int_of_digits s = c' * 10 ^ (t + z))
    by (rewrite Hv, Hct, Z.pow_add_r by lia; lia).
  pose proof (ndigits_le_length s Hs Hpos) as Hl.
  rewrite Hv', ndigits_mul_pow in Hl by lia.
  repeat split; try lia. apply ndigits_le_prec. lia.
Qed.

Lemma digits_integer_numeral (c : Z) (k : nat) :
  0 < c ->
  digits c ++ zeros k <> [] /\
  (has_char "." (digits c ++ zeros k) = true -> ends_nonzero (digits c ++ zeros k)).
Proof.
  intros Hc. split.
  - intros H. apply app_eq_nil in H as [H _]. now apply digits_nonempty in H; [|lia].
  - intros H. rewrite digits_no_point in H; [discriminate|].
    rewrite forallb_app, digits_are_digits by lia. apply zeros_are_digits.
Qed.

(** The formatter on a value in its shortest form [c * 10^z]. *)
Lemma fmt_amount_canonical (s : pystr) (d c z : Z) :
  s <> [] -> forallb is_digit s = true ->
  0 <= d <= Emax ->
  int_of_digits s = c * 10 ^ z -> 0 <= z -> 0 < c -> c mod 10 <> 0 ->
  ndigits c <= prec -> ndigits c + z <= Emax + 1 ->
  _fmt_amount (VStr s) d = Ok (format_f (mkDecimal false c (z - d))).
Proof.
  intros Hne Hs Hd Hv Hz Hc Hm Hn Hl.
  destruct (truediv_exact c z d) as (w & Hw & Hnw & Hew & Hdiv); try lia.
  pose proof (normalize_exact c w (z - d - w)) as Hnorm.
  replace (z - d - w + w) with (z - d) in Hnorm by lia.
  destruct (format_f_exact c (z - d) Hc Hm) as (_ & Hfne & Hend).
  eapply _fmt_amount_eq; try eassumption.
  - lia.
  - rewrite Decimal_of_digits, Hv; try assumption; [reflexivity|].
    rewrite Hv, ndigits_mul_pow by lia. lia.
  - now apply pow10_eq.
  - apply Hnorm; unfold Etiny, Emin, Emax, prec in *; lia.
Qed.

(** X1: with a negative precision nothing is scaled: a value written with
    digits comes back as the integer it denotes, without leading zeros. *)
Theorem fmt_amount_unscaled (s : pystr) (d : Z) :
  base_units s -> d < 0 ->
  _fmt_amount (VStr s) d = Ok (digits (int_of_digits s)).
Proof.
  intros Hb Hd. pose proof Hb as (Hne & Hs & Hlen & _).
  pose proof (int_of_digits_bound s Hs) as [H0 _].
  destruct (Z.eq_dec (int_of_digits s) 0) as [Hv | Hv].
  - rewrite Hv.
    apply (_fmt_amount_negative_eq (VStr s) d (mkDecimal false 0 0) (mkDecimal false 0 0));
      try assumption; try discriminate; try reflexivity.
    rewrite Decimal_of_digits, Hv; try assumption; [reflexivity|].
    rewrite Hv. vm_compute. discriminate.
  - destruct (base_units_canonical s Hb ltac:(lia)) as (c & z & Hcz & Hz & Hc & Hm & Hn & Hl).
    rewrite Hcz.
    replace (10 ^ z) with (10 ^ Z.of_nat (Z.to_nat z)) by (now rewrite Z2Nat.id).
    rewrite digits_mul_pow10 by assumption.
    rewrite <- (format_f_integer c z Hc Hz).
    destruct (digits_integer_numeral c (Z.to_nat z) Hc) as [Hfne Hend].
    rewrite <- (format_f_integer c z Hc Hz) in Hfne, Hend.
    eapply _fmt_amount_negative_eq; try eassumption.
    + rewrite Decimal_of_digits, Hcz; try assumption; [reflexivity|].
      rewrite Hcz, ndigits_mul_pow by lia. lia.
    + pose proof (normalize_value c z 0 Hc Hm Hn Hz) as Hnorm.
      rewrite Z.add_0_l in Hnorm. apply Hnorm; unfold Etiny, Emin, Emax, prec in *; lia.
Qed.

Lemma fmt_amount_unscaled_witness :
  base_units "007500" /\ _fmt_amount (VStr "007500") (-1) = Ok (lit "7500").
Proof.
  assert (Hb : base_units "007500").
  { split; [discriminate|]. split; [reflexivity|]. split; [vm_compute; discriminate|].
    exists 75, 2. split; [reflexivity|]. split; [lia|]. split; [lia | reflexivity]. }
  split; [exact Hb|].
  exact (fmt_amount_unscaled "007500" (-1) Hb ltac:(lia)).
Defined.

(** X2: a value that is a whole multiple [m * 10^d] of the unit comes back
    as the integer [m], without a point. *)
Theorem fmt_amount_whole (s : pystr) (d m : Z) :
  base_units s -> 0 <= d <= Emax ->
  int_of_digits s = m * 10 ^ d ->
  _fmt_amount (VStr s) d = Ok (digits m).
Proof.
  intros Hb Hd Hv. pose proof Hb as (Hne & Hs & Hlen & _).
  pose proof (int_of_digits_bound s Hs) as [H0 _].
  pose proof (pow10_pos d ltac:(lia)) as Hpd.
  destruct (Z.eq_dec (int_of_digits s) 0) as [Hv0 | Hv0].
  - assert (m = 0) by nia. subst m. now apply fmt_amount_zero.
  - destruct (base_units_canonical s Hb ltac:(lia)) as (c & z & Hcz & Hz & Hc & Hm & Hn & Hl).
    assert (Hzd : d <= z).
    { destruct (Z_le_gt_dec d z); [assumption|]. exfalso. apply Hm.
      assert (c = m * 10 ^ (d - z)).
      { pose proof (pow10_pos z Hz).
        apply (Z.mul_reg_r _ _ (10 ^ z)); [lia|].
        rewrite <- Z.mul_assoc, <- Z.pow_add_r by lia.
        replace (d - z + z) with d by lia. lia. }
      subst c. apply mul_pow10_mod10. lia. }
    assert (Hmc : m = c * 10 ^ (z - d)).
    { apply (Z.mul_reg_r _ _ (10 ^ d)); [lia|].
      rewrite <- Z.mul_assoc, <- Z.pow_add_r by lia.
      replace (z - d + d) with z by lia. lia. }
    rewrite (fmt_amount_canonical s d c z) by (assumption || lia).
    rewrite format_f_integer by lia.
    rewrite Hmc.
    replace (10 ^ (z - d)) with (10 ^ Z.of_nat (Z.to_nat (z - d)))
      by (rewrite Z2Nat.id; [reflexivity | lia]).
    now rewrite digits_mul_pow10.
Qed.

Lemma fmt_amount_whole_witness :
  base_units "2000000" /\ int_of_digits "2000000" = 2 * 10 ^ 6 /\
  _fmt_amount (VStr "2000000") 6 = Ok (lit "2").
Proof.
  assert (Hb : base_units "2000000").
  { split; [discriminate|]. split; [reflexivity|]. split; [vm_compute; discriminate|].
    exists 2, 6. split; [reflexivity|]. split; [lia|]. split; [lia | reflexivity]. }
  split; [exact Hb|]. split; [reflexivity|].
  exact (fmt_amount_whole "2000000" 6 2 Hb ltac:(unfold Emax; lia) eq_refl).
Defined.

(** ** The shape of every formatted amount *)

Lemma digits_fuel_all_digits (f : nat) (n : Z) (acc : pystr) :
  forallb is_digit acc = true -> forallb is_digit (digits_fuel f n acc) = true.
Proof.
  revert n acc. induction f as [|f IH]; intros n acc Hacc; [exact Hacc|].
  cbn [digits_fuel].
  assert (H : forallb is_digit (digit_char (n mod 10) :: acc) = true).
  { cbn [forallb]. rewrite Hacc.
    pose proof (Z.mod_pos_bound n 10 ltac:(lia)).
    rewrite is_digit_char; [reflexivity | lia]. }
  destruct (n <? 10); [exact H | now apply IH].
Qed.

Lemma digits_fuel_kept (f : nat) (n : Z) (acc : pystr) :
  acc <> [] -> digits_fuel f n acc <> [].
Proof.
  revert n acc. induction f as [|f IH]; intros n acc Hacc; [exact Hacc|].
  cbn [digits_fuel]. destruct (n <? 10); [discriminate | apply IH; discriminate].
Qed.

Lemma digits_all_digits (n : Z) : forallb is_digit (digits n) = true.
Proof. unfold digits. now apply digits_fuel_all_digits. Qed.

Lemma digits_never_empty (n : Z) : digits n <> [].
Proof.
  unfold digits. cbn [digits_fuel].
  destruct (n <? 10); [discriminate | apply digits_fuel_kept; discriminate].
Qed.

Lemma lstrip_chars_stop (chars x y : pystr) (c : ascii) :
  has_char c chars = false ->
  lstrip_chars chars (x ++ c :: y) = lstrip_chars chars x ++ c :: y.
Proof.
  intros Hc. induction x as [|h x IH].
  - cbn [app lstrip_chars]. now rewrite Hc.
  - cbn [app lstrip_chars]. destruct (has_char h chars); [exact IH | reflexivity].
Qed.

(** [rstrip] stops at the last character that is not to be stripped. *)
Lemma rstrip_chars_stop (chars a b : pystr) (c : ascii) :
  has_char c chars = false ->
  rstrip_chars chars (a ++ c :: b) = a ++ c :: rstrip_chars chars b.
Proof.
  intros Hc. unfold rstrip_chars.
  rewrite rev_app_distr. cbn [rev]. rewrite <- app_assoc. cbn [app].
  rewrite lstrip_chars_stop by assumption.
  rewrite rev_app_distr. cbn [rev]. rewrite rev_involutive.
  now rewrite <- app_assoc.
Qed.

Lemma lstrip_chars_spec (chars l : pystr) :
  exists pre, l = pre ++ lstrip_chars chars l /\
    forallb (fun c => has_char c chars) pre = true /\
    (lstrip_chars chars l = [] \/
     exists x t, lstrip_chars chars l = x :: t /\ has_char x chars = false).
Proof.
  induction l as [|h l (pre & Hl & Hpre & Hrest)].
  - exists []. repeat split. now left.
  - cbn [lstrip_chars]. destruct (has_char h chars) eqn:Hh.
    + exists (h :: pre). cbn [app forallb]. rewrite Hh, Hpre, <- Hl. now repeat split.
    + exists []. repeat split. right. eauto.
Qed.

(** What [rstrip] leaves is a prefix, and it does not end with a stripped
    character. *)
Lemma rstrip_chars_spec (chars s : pystr) :
  exists suf, s = rstrip_chars chars s ++ suf /\
    (rstrip_chars chars s = [] \/
     exists p x, rstrip_chars chars s = p ++ [x] /\ has_char x chars = false).
Proof.
  unfold rstrip_chars.
  destruct (lstrip_chars_spec chars (rev s)) as (pre & Hl & _ & Hrest).
  exists (rev pre). split.
  - rewrite <- rev_app_distr, <- Hl. now rewrite rev_involutive.
  - destruct Hrest as [-> | (x & t & -> & Hx)]; [now left|].
    right. exists (rev t), x. now split.
Qed.

Lemma forallb_app_l {A} (f : A -> bool) (a b : list A) :
  forallb f (a ++ b) = true -> forallb f a = true.
Proof. rewrite forallb_app. now intros [H _]%andb_prop. Qed.

Lemma digit_not_point (c : ascii) : is_digit c = true -> has_char c "." = false.
Proof.
  intros H. cbn. destruct (Ascii.eqb_spec c "."%char) as [-> |]; [discriminate H | reflexivity].
Qed.

Lemma last_digit_not_point (ip : pystr) :
  ip <> [] -> forallb is_digit ip = true ->
  exists p x, ip = p ++ [x] /\ has_char x "." = false.
Proof.
  intros Hne Hd. destruct (exists_last Hne) as (p & x & ->).
  exists p, x. split; [reflexivity|].
  rewrite forallb_app in Hd. apply andb_prop in Hd as [_ Hx].
  cbn [forallb] in Hx. apply andb_prop in Hx as [Hx _]. now apply digit_not_point.
Qed.

(** The shape of what [format(d, "f")] returns. *)
Lemma format_f_shape (a : Decimal) :
  exists ip fp,
    format_f a = (if dsign a then lit "-" else []) ++ ip ++
                 match fp with [] => [] | _ :: _ => "."%char :: fp end /\
    ip <> [] /\ forallb is_digit ip = true /\ forallb is_digit fp = true.
Proof.
  unfold format_f.
  set (a' := if (coeff a =? 0) && (0 <? dexp a) then mkDecimal (dsign a) 0 0 else a).
  assert (Hs : dsign a' = dsign a) by (unfold a'; destruct (_ && _); reflexivity).
  rewrite Hs.
  pose proof (digits_all_digits (coeff a')) as Hd.
  pose proof (digits_never_empty (coeff a')) as Hne.
  set (ds := digits (coeff a')) in *.
  destruct (dexp a' + Z.of_nat (length ds) <? 0).
  - exists (lit "0"), (zeros (Z.to_nat (- (dexp a' + Z.of_nat (length ds)))) ++ ds).
    repeat split; try discriminate.
    now rewrite forallb_app, zeros_are_digits, Hd.
  - destruct (Z.of_nat (length ds) <? dexp a' + Z.of_nat (length ds)).
    + exists (ds ++ zeros (Z.to_nat (dexp a' + Z.of_nat (length ds) - Z.of_nat (length ds)))), [].
      repeat split.
      * intros H. now apply app_eq_nil in H as [H _].
      * now rewrite forallb_app, zeros_are_digits, Hd.
    + exists (match firstn (Z.to_nat (dexp a' + Z.of_nat (length ds))) ds with
              | [] => lit "0" | _ :: _ => firstn (Z.to_nat (dexp a' + Z.of_nat (length ds))) ds
              end),
             (skipn (Z.to_nat (dexp a' + Z.of_nat (length ds))) ds).
      repeat split.
      * destruct (firstn _ ds); discriminate.
      * pose proof (forallb_firstn is_digit (Z.to_nat (dexp a' + Z.of_nat (length ds))) ds Hd).
        destruct (firstn _ ds); [reflexivity | assumption].
      * now apply forallb_skipn.
Qed.

Lemma sign_digits_no_point (sign ip : pystr) :
  sign = [] \/ sign = lit "-" -> forallb is_digit ip = true ->
  has_char "." (sign ++ ip) = false.
Proof.
  intros Hs Hd. unfold has_char. rewrite existsb_app.
  fold (has_char "." ip). rewrite digits_no_point by assumption.
  destruct Hs as [-> | ->]; reflexivity.
Qed.

(** The two [rstrip] calls and the [or "0"] of [_fmt_amount] turn every
    numeral with a fraction into a plain numeral. *)
Lemma postprocess_plain (sign ip fp : pystr) :
  sign = [] \/ sign = lit "-" ->
  ip <> [] -> forallb is_digit ip = true -> forallb is_digit fp = true ->
  let s := sign ++ ip ++ match fp with [] => [] | _ :: _ => "."%char :: fp end in
  let s' := if has_char "." s then rstrip_chars "." (rstrip_chars "0" s) else s in
  plain_numeral (match s' with [] => lit "0" | _ :: _ => s' end).
Proof.
  intros Hs Hne Hip Hfp s s'.
  assert (Hsi : sign ++ ip <> []).
  { intros H. now apply app_eq_nil in H as [_ H]. }
  destruct fp as [|f fp'].
  - subst s' s. rewrite app_nil_r, sign_digits_no_point by assumption.
    exists sign, ip, []. rewrite app_nil_r.
    destruct (sign ++ ip) eqn:E; [contradiction|]. repeat split; auto.
  - set (fp := f :: fp') in *.
    assert (Hsplit : s = (sign ++ ip) ++ "."%char :: fp)
      by (subst s; now rewrite <- app_assoc).
    assert (Hdot : has_char "." s = true).
    { rewrite Hsplit. unfold has_char. rewrite existsb_app. cbn [existsb].
      rewrite Ascii.eqb_refl. now rewrite orb_true_r. }
    subst s'. rewrite Hdot, Hsplit.
    rewrite (rstrip_chars_stop "0") by reflexivity.
    destruct (rstrip_chars_spec "0" fp) as (suf & Hfp0 & Hlast).
    assert (Hd0 : forallb is_digit (rstrip_chars "0" fp) = true).
    { rewrite Hfp0 in Hfp. now apply forallb_app_l in Hfp. }
    destruct Hlast as [-> | (p & x & Hpx & Hx)].
    + destruct (last_digit_not_point ip Hne Hip) as (q & y & -> & Hy).
      replace ((sign ++ q ++ [y]) ++ ["."%char]) with ((sign ++ q) ++ y :: ["."%char])
        by (rewrite <- !app_assoc; reflexivity).
      rewrite rstrip_chars_stop by assumption.
      change (rstrip_chars "." ["."%char]) with (@nil ascii).
      exists sign, (q ++ [y]), [].
      replace ((sign ++ q) ++ [y]) with (sign ++ q ++ [y]) by (now rewrite <- app_assoc).
      rewrite app_nil_r.
      destruct (sign ++ q ++ [y]) eqn:E; [contradiction|]. repeat split; auto.
    + rewrite Hpx in *.
      assert (Hxd : is_digit x = true).
      { rewrite forallb_app in Hd0. apply andb_prop in Hd0 as [_ Hd0].
        cbn [forallb] in Hd0. now apply andb_prop in Hd0 as [Hd0 _]. }
      replace ((sign ++ ip) ++ "."%char :: p ++ [x])
        with (((sign ++ ip) ++ "."%char :: p) ++ [x])
        by (rewrite <- !app_assoc; reflexivity).
      rewrite rstrip_chars_id by (do 2 eexists; split; [reflexivity | now apply digit_not_point]).
      exists sign, ip, (p ++ [x]).
      destruct (((sign ++ ip) ++ "."%char :: p) ++ [x]) eqn:E.
      { now apply app_eq_nil in E as [_ E]. }
      rewrite <- E. split.
      { rewrite <- !app_assoc. cbn [app].
        destruct (p ++ [x]) eqn:E'; [now apply app_eq_nil in E' as [_ E']|].
        reflexivity. }
      repeat split; auto. right. rewrite last_last.
      intros ->. cbn in Hx. discriminate.
Qed.

Lemma _fmt_amount_numeral (raw : value) (d : Z) (out : pystr) :
  _fmt_amount raw d = Ok out -> plain_numeral out.
Proof.
  unfold _fmt_amount. intros H.
  destruct (if 0 <=? d then _ else _) as [q|]; [|discriminate H].
  cbn [bind] in H. destruct (normalize q) as [n|]; [|discriminate H].
  cbn [bind] in H. injection H as <-.
  destruct (format_f_shape n) as (ip & fp & -> & Hne & Hip & Hfp).
  apply postprocess_plain; try assumption.
  destruct (dsign n); [now right | now left].
Qed.

(** X3: whatever the value and the precision count are, an amount that the
    formatter or the wei conversion returns is a plain numeral: an optional
    minus sign, at least one digit, and either nothing more or a point
    followed by digits that do not end with a zero.  (Infinities and NaNs
    are outside the embedding: [Decimal_of] answers [NotModelled] for
    them.) *)
Theorem fmt_amount_plain_numeral (raw : value) (d : Z) (out : pystr) :
  _fmt_amount raw d = Ok out \/ _wei_to_eth raw = Ok out -> plain_numeral out.
Proof.
  intros [H | H]; [|unfold _wei_to_eth in H]; eapply _fmt_amount_numeral, H.
Qed.

Lemma fmt_amount_plain_numeral_witness :
  _fmt_amount (VStr "-1230") 2 = Ok (lit "-12.3") /\ plain_numeral "-12.3".
Proof.
  assert (H : _fmt_amount (VStr "-1230") 2 = Ok (lit "-12.3"))
    by (vm_compute; reflexivity).
  split; [exact H|].
  exact (fmt_amount_plain_numeral (VStr "-1230") 2 "-12.3" (or_introl H)).
Defined.

(** ** Timestamps as text *)

(** The date of a day of an era, and the way back. *)
Lemma civil_of_doe_spec (doe : Z) :
  0 <= doe < 146097 ->
  let '(yoe, m, d) := civil_of_doe doe in
  let up := if m <=? 2 then 1 else 0 in
  0 <= yoe <= 399 /\ 1 <= m <= 12 /\ 1 <= d <= 31 /\
  yoe * 365 + yoe / 4 - yoe / 100 +
    ((153 * (if m <=? 2 then m + 9 else m - 3) + 2) / 5 + d - 1) = doe /\
  (doe <= 146036 -> yoe + up <= 399) /\ (306 <= doe -> 1 <= yoe + up).
Proof.
  intros H. unfold civil_of_doe. cbv zeta.
  set (yoe := (doe - doe / 1460 + doe / 36524 - doe / 146096) / 365).
  assert (Hy : 0 <= yoe <= 399 /\ 0 <= doe - (365 * yoe + yoe / 4 - yoe / 100) <= 365).
  { subst yoe. Z.div_mod_to_equations. lia. }
  destruct Hy as [Hy Hdoy].
  set (doy := doe - (365 * yoe + yoe / 4 - yoe / 100)) in *.
  assert (Hdoe : doe = yoe * 365 + yoe / 4 - yoe / 100 + doy) by (subst doy; lia).
  set (mp := (5 * doy + 2) / 153).
  assert (Hmp : 0 <= mp <= 11) by (subst mp; Z.div_mod_to_equations; lia).
  assert (Hd : 1 <= doy - (153 * mp + 2) / 5 + 1 <= 31)
    by (subst mp; Z.div_mod_to_equations; lia).
  assert (Hup : (doy < 306 <-> mp < 10)) by (subst mp; Z.div_mod_to_equations; lia).
  assert (Hcases : (mp < 10 /\ (mp <? 10) = true /\ (mp + 3 <=? 2) = false) \/
                   (10 <= mp /\ (mp <? 10) = false /\ (mp - 9 <=? 2) = true)).
  { destruct (Z.ltb_spec mp 10); [left | right];
      (split; [assumption|]); (split; [reflexivity|]).
    - apply Z.leb_gt. lia.
    - apply Z.leb_le. lia. }
  destruct Hcases as [(Hlt & -> & ->) | (Hge & -> & ->)].
  - replace (mp + 3 - 3) with mp by lia.
    repeat split; try lia.
    clearbody doy. subst yoe. Z.div_mod_to_equations. lia.
  - replace (mp - 9 + 9) with mp by lia.
    repeat split; try lia.
    clearbody doy. subst yoe. Z.div_mod_to_equations. lia.
Qed.

Lemma civil_from_days_era (days : Z) :
  civil_from_days days =
  let '(yoe, m, d) := civil_of_doe ((days + 719468) mod 146097) in
  (yoe + (days + 719468) / 146097 * 400 + (if m <=? 2 then 1 else 0), m, d).
Proof.
  unfold civil_from_days, civil_of_doe. cbv zeta.
  replace (days + 719468 - (days + 719468) / 146097 * 146097)
    with ((days + 719468) mod 146097)
    by (rewrite Z.mod_eq by lia; lia).
  reflexivity.
Qed.

Lemma days_from_civil_era (era yoe m d doe : Z) :
  0 <= yoe <= 399 ->
  yoe * 365 + yoe / 4 - yoe / 100 +
    ((153 * (if m <=? 2 then m + 9 else m - 3) + 2) / 5 + d - 1) = doe ->
  days_from_civil (yoe + era * 400 + (if m <=? 2 then 1 else 0)) m d =
  era * 146097 + doe - 719468.
Proof.
  intros Hy Hdoe. unfold days_from_civil. cbv zeta.
  replace (if m <=? 2
           then yoe + era * 400 + (if m <=? 2 then 1 else 0) - 1
           else yoe + era * 400 + (if m <=? 2 then 1 else 0))
    with (yoe + era * 400) by (destruct (m <=? 2); lia).
  rewrite Z.div_add, Z.div_small by lia.
  replace (yoe + era * 400 - (0 + era) * 400) with yoe by lia.
  rewrite <- Hdoe. lia.
Qed.

Lemma digits_length_le (w : nat) (n : Z) :
  (0 < w)%nat -> 0 <= n < 10 ^ Z.of_nat w -> (length (digits n) <= w)%nat.
Proof.
  intros Hw Hn. destruct (Z.eq_dec n 0) as [-> | H0].
  - rewrite digits_small by lia. cbn [length]. lia.
  - destruct (ndigits_spec n ltac:(lia)) as (H1 & Hlo & _).
    assert (Hlt : 10 ^ (ndigits n - 1) < 10 ^ Z.of_nat w) by lia.
    apply Z.pow_lt_mono_r_iff in Hlt; [|lia|lia].
    unfold ndigits in *. lia.
Qed.

(** A number below [10^w] padded to [w] columns. *)
Lemma pad_spec (w : nat) (n : Z) :
  (0 < w)%nat -> 0 <= n < 10 ^ Z.of_nat w ->
  length (pad w n) = w /\ forallb is_digit (pad w n) = true /\
  int_of_digits (pad w n) = n.
Proof.
  intros Hw Hn. pose proof (digits_length_le w n Hw Hn) as Hl.
  unfold pad, zfill. repeat split.
  - rewrite length_app. unfold zeros. rewrite repeat_length. lia.
  - rewrite forallb_app, zeros_are_digits, digits_all_digits. reflexivity.
  - rewrite int_of_digits_leading_zeros. apply int_of_digits_digits. lia.
Qed.

Ltac bools :=
  repeat match goal with
         | H : _ && _ = true |- _ => apply andb_prop in H as [? ?]
         | H : _ || _ = true |- _ => apply orb_prop in H
         | H : _ || _ = false |- _ => apply orb_false_iff in H as [? ?]
         | H : (_ <=? _) = true |- _ => apply Z.leb_le in H
         | H : (_ <? _) = true |- _ => apply Z.ltb_lt in H
         | H : (_ <? _) = false |- _ => apply Z.ltb_ge in H
         | H : (_ =? _) = true |- _ => apply Z.eqb_eq in H
         end.

(** The six numbers [_iso_utc] writes. *)
Lemma _iso_utc_numbers (ts : Z) (s : pystr) :
  _iso_utc ts = Ok s ->
  exists y m d hh mi ss,
    s = pad 4 y ++ lit "-" ++ pad 2 m ++ lit "-" ++ pad 2 d ++ lit "T" ++
        pad 2 hh ++ lit ":" ++ pad 2 mi ++ lit ":" ++ pad 2 ss ++ lit "Z" /\
    1 <= y <= 9999 /\ 1 <= m <= 12 /\ 1 <= d <= 31 /\
    0 <= hh <= 23 /\ 0 <= mi <= 59 /\ 0 <= ss <= 59 /\
    days_from_civil y m d * 86400 + hh * 3600 + mi * 60 + ss = ts.
Proof.
  unfold _iso_utc. intros H.
  destruct ((ts <? -62135596800) || (253402300799 <? ts)) eqn:Hr; [discriminate H|].
  bools.
  rewrite civil_from_days_era in H.
  set (z := ts / 86400 + 719468) in *.
  assert (Hz : 306 <= z <= 3652364).
  { unfold z. split.
    - assert (-719162 <= ts / 86400) by (apply Z.div_le_lower_bound; lia). lia.
    - assert (ts / 86400 < 2932897) by (apply Z.div_lt_upper_bound; lia). lia. }
  pose proof (Z.mod_pos_bound z 146097 ltac:(lia)) as Hdoe.
  pose proof (Z.div_mod z 146097 ltac:(lia)) as Hzd.
  pose proof (civil_of_doe_spec (z mod 146097) Hdoe) as Hok.
  destruct (civil_of_doe (z mod 146097)) as [[yoe m] d].
  cbv zeta in Hok. destruct Hok as (Hyoe & Hm & Hd & Hinv & Hhi & Hlo).
  injection H as <-.
  pose proof (Z.mod_pos_bound ts 86400 ltac:(lia)) as Hsecs.
  pose proof (Z.div_mod ts 86400 ltac:(lia)) as Hts.
  set (secs := ts mod 86400) in *.
  exists (yoe + z / 146097 * 400 + (if m <=? 2 then 1 else 0)), m, d,
         (secs / 3600), (secs mod 3600 / 60), (secs mod 60).
  split; [reflexivity|].
  bools.
  assert (He : 0 <= z / 146097 <= 24).
  { split; [apply Z.div_pos; lia|].
    assert (z / 146097 < 25) by (apply Z.div_lt_upper_bound; lia). lia. }
  assert (Hy : 1 <= yoe + z / 146097 * 400 + (if m <=? 2 then 1 else 0) <= 9999).
  { assert (z / 146097 = 24 -> z mod 146097 <= 146036) by lia.
    assert (z / 146097 = 0 -> 306 <= z mod 146097) by lia.
    destruct (Z.eq_dec (z / 146097) 0) as [E0 | E0];
      destruct (Z.eq_dec (z / 146097) 24) as [E24 | E24];
      destruct (m <=? 2); lia. }
  split; [exact Hy|]. split; [lia|]. split; [lia|].
  split; [Z.div_mod_to_equations; lia|].
  split; [Z.div_mod_to_equations; lia|].
  split; [Z.div_mod_to_equations; lia|].
  rewrite (days_from_civil_era (z / 146097) yoe m d (z mod 146097)) by (assumption || lia).
  unfold z in *. Z.div_mod_to_equations. lia.
Qed.

Lemma pad4 (n : Z) :
  0 <= n <= 9999 ->
  exists a b c d, pad 4 n = [a; b; c; d] /\ forallb is_digit [a; b; c; d] = true /\
                  int_of_digits [a; b; c; d] = n.
Proof.
  intros H. destruct (pad_spec 4 n ltac:(lia) ltac:(simpl; lia)) as (Hl & Hd & Hi).
  destruct (pad 4 n) as [|a [|b [|c [|d [|]]]]]; try discriminate Hl.
  exists a, b, c, d. auto.
Qed.

Lemma pad2 (n : Z) :
  0 <= n <= 99 ->
  exists a b, pad 2 n = [a; b] /\ forallb is_digit [a; b] = true /\
              int_of_digits [a; b] = n.
Proof.
  intros H. destruct (pad_spec 2 n ltac:(lia) ltac:(simpl; lia)) as (Hl & Hd & Hi).
  destruct (pad 2 n) as [|a [|b [|]]]; try discriminate Hl.
  exists a, b. auto.
Qed.

(** The text [_iso_utc] makes of a timestamp. *)
Lemma _iso_utc_text (ts : Z) (s : pystr) :
  _iso_utc ts = Ok s ->
  iso_layout s /\ length s = 20%nat /\
  (1 <= field s 0 4 <= 9999 /\ 1 <= field s 5 2 <= 12 /\ 1 <= field s 8 2 <= 31 /\
   0 <= field s 11 2 <= 23 /\ 0 <= field s 14 2 <= 59 /\ 0 <= field s 17 2 <= 59) /\
  read_iso s = ts.
Proof.
  intros H.
  destruct (_iso_utc_numbers ts s H)
    as (y & m & d & hh & mi & ss & -> & Hy & Hm & Hd & Hh & Hmi & Hss & Hts).
  destruct (pad4 y ltac:(lia)) as (y1 & y2 & y3 & y4 & -> & Dy & Iy).
  destruct (pad2 m ltac:(lia)) as (m1 & m2 & -> & Dm & Im).
  destruct (pad2 d ltac:(lia)) as (d1 & d2 & -> & Dd & Id).
  destruct (pad2 hh ltac:(lia)) as (h1 & h2 & -> & Dh & Ih).
  destruct (pad2 mi ltac:(lia)) as (n1 & n2 & -> & Dn & In).
  destruct (pad2 ss ltac:(lia)) as (e1 & e2 & -> & De & Ie).
  split; [|split; [reflexivity|]].
  - exists [y1; y2; y3; y4], [m1; m2], [d1; d2], [h1; h2], [n1; n2], [e1; e2].
    repeat (split; [reflexivity|]).
    rewrite !forallb_app, Dy, Dm, Dd, Dh, Dn, De. reflexivity.
  - unfold read_iso, field. cbn [lit list_ascii_of_string app skipn firstn].
    rewrite Iy, Im, Id, Ih, In, Ie. split; [lia | exact Hts].
Qed.

(** X4: the text of a timestamp has the fixed layout YYYY-MM-DDThh:mm:ssZ
    of 20 characters, with a year from 1 to 9999, a month from 1 to 12, a
    day from 1 to 31 and a time of day below 24:00:00. *)
Theorem iso_utc_layout (ts : Z) (s : pystr) :
  _iso_utc ts = Ok s ->
  iso_layout s /\ length s = 20%nat /\
  1 <= field s 0 4 <= 9999 /\ 1 <= field s 5 2 <= 12 /\ 1 <= field s 8 2 <= 31 /\
  0 <= field s 11 2 <= 23 /\ 0 <= field s 14 2 <= 59 /\ 0 <= field s 17 2 <= 59.
Proof.
  intros H. destruct (_iso_utc_text ts s H) as (Hl & Hn & Hf & _). auto.
Qed.

Lemma iso_utc_layout_witness :
  _iso_utc 1700000000 = Ok (lit "2023-11-14T22:13:20Z") /\
  iso_layout "2023-11-14T22:13:20Z".
Proof.
  split; [vm_compute; reflexivity|].
  exact (proj1 (iso_utc_layout 1700000000 "2023-11-14T22:13:20Z"
                  ltac:(vm_compute; reflexivity))).
Defined.

(** X5: the text of a timestamp denotes that timestamp: reading the date
    and the time of day back from their columns gives the unix time the
    text was made from; hence two timestamps with the same text are
    equal. *)
Theorem iso_utc_round_trip (ts : Z) (s : pystr) :
  _iso_utc ts = Ok s ->
  read_iso s = ts /\ forall ts', _iso_utc ts' = Ok s -> ts' = ts.
Proof.
  intros H. destruct (_iso_utc_text ts s H) as (_ & _ & _ & Hr).
  split; [exact Hr|]. intros ts' H'.
  destruct (_iso_utc_text ts' s H') as (_ & _ & _ & Hr'). congruence.
Qed.

Lemma iso_utc_round_trip_witness :
  _iso_utc (-1) = Ok (lit "1969-12-31T23:59:59Z") /\
  read_iso "1969-12-31T23:59:59Z" = -1.
Proof.
  split; [vm_compute; reflexivity|].
  exact (proj1 (iso_utc_round_trip (-1) "1969-12-31T23:59:59Z"
                  ltac:(vm_compute; reflexivity))).
Defined.

(** ** The gateway call *)

Lemma assoc_set_same (k : pystr) (v : value) (d : list (pystr * value)) :
  assoc k (assoc_set k v d) = Some v.
Proof.
  induction d as [|[k' v'] d IH]; cbn [assoc_set assoc].
  - now rewrite str_eqb_refl.
  - destruct (str_eqb k k') eqn:E; cbn [assoc]; [now rewrite str_eqb_refl|].
    now rewrite E.
Qed.

Lemma assoc_set_other (k k' : pystr) (v : value) (d : list (pystr * value)) :
  k' <> k -> assoc k' (assoc_set k v d) = assoc k' d.
Proof.
  intros Hk. apply str_eqb_neq in Hk.
  induction d as [|[a w] d IH]; cbn [assoc_set assoc].
  - now rewrite Hk.
  - destruct (str_eqb k a) eqn:E; cbn [assoc].
    + apply str_eqb_eq in E. subst a. now rewrite Hk.
    + now rewrite IH.
Qed.

Lemma _etherscan_eq (net : upstream) (d : list (pystr * value)) (log : list value) :
  _etherscan net (VDict d) log =
  (gateway_result net (with_apikey (VDict d)), log ++ [with_apikey (VDict d)]).
Proof.
  unfold _etherscan. rewrite key_configured.
  unfold bindE, lift, http_get, gateway_result, with_apikey, dict_with, item_or_none.
  destruct (net _) as [|data]; [reflexivity|].
  now destruct (translate_body data).
Qed.

(** X6: a gateway call sends exactly one query, whatever the explorer
    replies: the parameters it was given, with the key of the server under
    [apikey] (in place of an [apikey] of the caller) and every other
    parameter unchanged. *)
Theorem gateway_query (net : upstream) (d : list (pystr * value)) (log : list value) :
  exists q,
    snd (_etherscan net (VDict d) log) = log ++ [VDict q] /\
    assoc "apikey" q = Some (VStr ETHERSCAN_API_KEY) /\
    (forall k, k <> lit "apikey" -> assoc k q = assoc k d) /\
    (length q = length d \/ (assoc "apikey" d = None /\ length q = S (length d))).
Proof.
  exists (assoc_set "apikey" (VStr ETHERSCAN_API_KEY) d).
  rewrite _etherscan_eq. split; [reflexivity|].
  split; [apply assoc_set_same|]. split; [intros k Hk; now apply assoc_set_other|].
  induction d as [|[a w] d IH]; cbn [assoc_set assoc length].
  - right. now split.
  - destruct (str_eqb "apikey" a); cbn [length]; [now left|].
    destruct IH as [-> | [-> ->]]; [now left | right; now split].
Qed.

Lemma gateway_query_witness :
  exists q,
    snd (_etherscan empty_net
           (VDict [(lit "apikey", VStr "mine"); (lit "action", VStr "txlist")]) [])
      = [] ++ [VDict q] /\
    assoc "apikey" q = Some (VStr ETHERSCAN_API_KEY) /\
    assoc "action" q = Some (VStr "txlist").
Proof.
  destruct (gateway_query empty_net
              [(lit "apikey", VStr "mine"); (lit "action", VStr "txlist")] [])
    as (q & H1 & H2 & H3 & _).
  exists q. split; [exact H1|]. split; [exact H2|].
  rewrite H3; [reflexivity|]. apply str_eqb_neq. reflexivity.
Defined.

(** ** The request as a whole *)

Lemma get_transactions_eq (net : upstream) (address : pystr) (limit : option Z)
    (log : list value) :
  get_transactions net address limit log =
  match query_limit limit with
  | Raise e => (Raise e, log)
  | Ok N =>
      if _is_valid_address address then
        match eth_fetch net address N with
        | Raise e => (Raise e, log ++ [with_apikey (txlist_params address N)])
        | Ok eth_items =>
            let log2 := log ++ [with_apikey (txlist_params address N);
                                with_apikey (tokentx_params address N)] in
            match erc20_fetch net address N with
            | Raise e => (Raise e, log2)
            | Ok erc20_items => (merge_feed address N eth_items erc20_items, log2)
            end
        end
      else (Raise (HTTPException 400 invalid_address_detail), log)
  end.
Proof.
  unfold get_transactions. unfold bindE at 1, lift at 1.
  destruct (query_limit limit) as [N|e]; [|reflexivity].
  destruct (_is_valid_address address); cbn [negb]; [|reflexivity].
  assert (E1 : forall l, _etherscan net (txlist_params address N) l =
            (gateway_result net (with_apikey (txlist_params address N)),
             l ++ [with_apikey (txlist_params address N)]))
    by (intros l; apply _etherscan_eq).
  assert (E2 : forall l, _etherscan net (tokentx_params address N) l =
            (gateway_result net (with_apikey (tokentx_params address N)),
             l ++ [with_apikey (tokentx_params address N)]))
    by (intros l; apply _etherscan_eq).
  unfold bindE, lift, eth_fetch, erc20_fetch, records_of. rewrite E1.
  destruct (gateway_result net (with_apikey (txlist_params address N))) as [b1|e];
    [cbn [bind]|reflexivity].
  destruct (py_get b1 "result" (VList [])) as [r1|e]; [cbn [bind]|reflexivity].
  destruct (py_iter r1) as [its1|e]; [cbn [bind]|reflexivity].
  destruct (mapM (_normalize_eth_item address) its1) as [eth|e]; [|reflexivity].
  rewrite E2, <- app_assoc. cbn [app]. cbv zeta.
  destruct (gateway_result net (with_apikey (tokentx_params address N))) as [b2|e];
    [cbn [bind]|reflexivity].
  destruct (py_get b2 "result" (VList [])) as [r2|e]; [cbn [bind]|reflexivity].
  destruct (py_iter r2) as [its2|e]; [cbn [bind]|reflexivity].
  destruct (mapM (_normalize_erc20_item address) its2) as [erc|e]; reflexivity.
Qed.

(** X7: a request sends no query, or the native-coin query alone, or the
    native-coin query and then the token query, and nothing else; both
    carry the address as it was given, the limit as the page size and the
    key of the server; a request that is answered has sent both. *)
Theorem handler_queries (net : upstream) (address : pystr) (limit : option Z)
    (log : list value) :
  let q1 := with_apikey (txlist_params address (asked_limit limit)) in
  let q2 := with_apikey (tokentx_params address (asked_limit limit)) in
  (exists qs, snd (get_transactions net address limit log) = log ++ qs /\
              (qs = [] \/ qs = [q1] \/ qs = [q1; q2])) /\
  (forall v, fst (get_transactions net address limit log) = Ok v ->
             snd (get_transactions net address limit log) = log ++ [q1; q2]) /\
  Forall (fun q => py_get q "address" VNone = Ok (VStr address) /\
                   py_get q "offset" VNone = Ok (VInt (asked_limit limit)) /\
                   py_get q "sort" VNone = Ok (VStr "desc") /\
                   py_get q "apikey" VNone = Ok (VStr ETHERSCAN_API_KEY)) [q1; q2].
Proof.
  intros q1 q2. rewrite get_transactions_eq.
  assert (HN : forall N, query_limit limit = Ok N -> N = asked_limit limit).
  { destruct limit as [n|]; cbn [query_limit asked_limit].
    - destruct ((n <? 1) || (200 <? n)); [discriminate | congruence].
    - congruence. }
  split; [|split].
  - destruct (query_limit limit) as [N|e] eqn:EN.
    + rewrite (HN N eq_refl). fold q1 q2.
      destruct (_is_valid_address address).
      * destruct (eth_fetch net address (asked_limit limit)).
        -- cbv zeta. exists [q1; q2].
           split; [now destruct (erc20_fetch net address (asked_limit limit))|auto].
        -- exists [q1]. auto.
      * exists []. rewrite app_nil_r. auto.
    + exists []. rewrite app_nil_r. auto.
  - intros v. destruct (query_limit limit) as [N|e] eqn:EN; [|discriminate].
    rewrite (HN N eq_refl). fold q1 q2.
    destruct (_is_valid_address address); [|discriminate].
    destruct (eth_fetch net address (asked_limit limit)); [|discriminate].
    cbv zeta. now destruct (erc20_fetch net address (asked_limit limit)).
  - repeat constructor.
Qed.

Lemma handler_queries_witness :
  fst (get_transactions sample_net sample_address (Some 2) [])
    = Ok (feed sample_address [x100; x80]) /\
  snd (get_transactions sample_net sample_address (Some 2) [])
    = [] ++ [with_apikey (txlist_params sample_address 2);
             with_apikey (tokentx_params sample_address 2)].
Proof.
  assert (H : fst (get_transactions sample_net sample_address (Some 2) [])
              = Ok (feed sample_address [x100; x80])) by (vm_compute; reflexivity).
  split; [exact H|].
  exact (proj1 (proj2 (handler_queries sample_net sample_address (Some 2) [])) _ H).
Defined.

(** *** What a request can fail with *)

Lemma only_plain_bind {A B : Type} (m : result A) (k : A -> result B) :
  only_plain m -> (forall a, only_plain (k a)) -> only_plain (bind m k).
Proof. destruct m; simpl; auto. Qed.

Create HintDb plain.

Ltac plain :=
  repeat (cbv zeta;
          match goal with
          | |- only_plain (Ok _) => exact I
          | |- only_plain (Raise Unhandled) => left; reflexivity
          | |- only_plain (Raise NotModelled) => right; reflexivity
          | |- only_plain (bind _ _) => apply only_plain_bind; [|intros ?]
          | |- only_plain (if ?c then _ else _) => destruct c
          | |- only_plain (match ?x with _ => _ end) => destruct x
          | |- only_plain _ => solve [auto with plain]
          end).

Lemma only_plain_py_get (d : value) (k : pystr) (v : value) : only_plain (py_get d k v).
Proof. unfold py_get. plain. Qed.

Lemma only_plain_py_getitem (d : value) (k : pystr) : only_plain (py_getitem d k).
Proof. unfold py_getitem. plain. Qed.

Lemma only_plain_py_iter (v : value) : only_plain (py_iter v).
Proof. unfold py_iter. plain. Qed.

Lemma only_plain_py_int (v : value) : only_plain (py_int v).
Proof. unfold py_int, int_of_str. plain. Qed.

Lemma only_plain__iso_utc (ts : Z) : only_plain (_iso_utc ts).
Proof. unfold _iso_utc. plain. Qed.

Lemma only_plain_or_empty_lower (v : value) : only_plain (or_empty_lower v).
Proof. unfold or_empty_lower. plain. Qed.

#[local] Hint Resolve only_plain_py_get only_plain_py_getitem only_plain_py_iter
  only_plain_py_int only_plain__iso_utc only_plain_or_empty_lower : plain.

Lemma only_plain__direction (me f t : value) : only_plain (_direction me f t).
Proof. unfold _direction. plain. Qed.

Lemma only_plain__fix (a : Decimal) : only_plain (_fix a).
Proof. unfold _fix. plain. Qed.

Lemma only_plain_Decimal_of (v : value) : only_plain (Decimal_of v).
Proof. unfold Decimal_of, Decimal_of_str. plain. Qed.

#[local] Hint Resolve only_plain__direction only_plain__fix only_plain_Decimal_of : plain.

Lemma only_plain_truediv (a b : Decimal) : only_plain (truediv a b).
Proof. unfold truediv. plain. Qed.

Lemma only_plain_pow10 (n : Z) : only_plain (pow10 n).
Proof. unfold pow10. plain. Qed.

Lemma only_plain_normalize (a : Decimal) : only_plain (normalize a).
Proof. unfold normalize. plain. Qed.

#[local] Hint Resolve only_plain_truediv only_plain_pow10 only_plain_normalize : plain.

Lemma only_plain__fmt_amount (raw : value) (d : Z) : only_plain (_fmt_amount raw d).
Proof. unfold _fmt_amount. plain. Qed.

#[local] Hint Resolve only_plain__fmt_amount : plain.

Lemma only_plain__normalize_eth_item (me : pystr) (it : value) :
  only_plain (_normalize_eth_item me it).
Proof. unfold _normalize_eth_item, _wei_to_eth. plain. Qed.

Lemma only_plain__normalize_erc20_item (me : pystr) (it : value) :
  only_plain (_normalize_erc20_item me it).
Proof. unfold _normalize_erc20_item. plain. Qed.

Lemma only_plain_mapM {A B : Type} (f : A -> result B) (l : list A) :
  (forall x, only_plain (f x)) -> only_plain (mapM f l).
Proof.
  intros Hf. induction l as [|x l IH]; cbn [mapM]; [exact I|].
  apply only_plain_bind; [apply Hf|]. intros b.
  apply only_plain_bind; [exact IH|]. intros bs. exact I.
Qed.

Lemma only_plain_sort_key (x : value) : only_plain (sort_key x).
Proof. unfold sort_key. plain. Qed.

Lemma only_plain_count_type (ty : pystr) (l : list value) : only_plain (count_type ty l).
Proof.
  unfold count_type. apply only_plain_bind; [|intros; exact I].
  apply only_plain_mapM. intros x. apply only_plain_py_getitem.
Qed.

Lemma only_plain_merge_feed (address : pystr) (N : Z) (eth_items erc20_items : list value) :
  only_plain (merge_feed address N eth_items erc20_items).
Proof.
  unfold merge_feed. cbv zeta.
  apply only_plain_bind; [apply only_plain_mapM, only_plain_sort_key|]. intros keys.
  apply only_plain_bind; [apply only_plain_count_type|]. intros n1.
  apply only_plain_bind; [apply only_plain_count_type|]. intros n2. exact I.
Qed.

Lemma only_plain_records_of (body : value) : only_plain (records_of body).
Proof. unfold records_of. plain. Qed.

(** The gateway fails with one of its two answers, or with an exception
    nothing catches. *)
Lemma gateway_result_raises (net : upstream) (q : value) (e : exn) :
  gateway_result net q = Raise e ->
  gateway_failure e \/ e = Unhandled \/ e = NotModelled.
Proof.
  unfold gateway_result. destruct (net q) as [|data].
  - intros [= <-]. auto.
  - unfold translate_body, str_field.
    destruct (py_get data "status" VNone) as [s|e0] eqn:Es.
    2:{ pose proof (only_plain_py_get data "status" VNone) as Hp. rewrite Es in Hp.
        cbn [bind]. intros [= <-]. right. exact Hp. }
    destruct (py_get data "message" (VStr [])) as [m|e0] eqn:Em.
    2:{ pose proof (only_plain_py_get data "message" (VStr [])) as Hp. rewrite Em in Hp.
        cbn [bind]. intros [= <-]. right. exact Hp. }
    cbn [bind].
    destruct (str_eqb (py_str s) "0" && str_eqb (py_str m) "NOTOK").
    + destruct (py_get data "result" VNone) as [r|e0] eqn:Er.
      2:{ pose proof (only_plain_py_get data "result" VNone) as Hp. rewrite Er in Hp.
          cbn [bind]. intros [= <-]. right. exact Hp. }
      cbn [bind]. cbv zeta.
      destruct (contains (lower (py_str (py_or r (VStr "Etherscan NOTOK")))) "rate limit")
        eqn:Ec; intros [= <-]; left;
        exists (py_str (py_or r (VStr "Etherscan NOTOK"))); [left | right]; now split.
    + destruct (_ && _); discriminate.
Qed.

Lemma fetch_raises (net : upstream) (q : value) (f : value -> result value) (e : exn) :
  (forall x, only_plain (f x)) ->
  (body <- gateway_result net q ;; its <- records_of body ;; mapM f its) = Raise e ->
  gateway_failure e \/ e = Unhandled \/ e = NotModelled.
Proof.
  intros Hf. destruct (gateway_result net q) as [body|e0] eqn:Eg; cbn [bind].
  - intros H. right.
    assert (Hp : only_plain (its <- records_of body ;; mapM f its)).
    { apply only_plain_bind; [apply only_plain_records_of|].
      intros its. now apply only_plain_mapM. }
    rewrite H in Hp. exact Hp.
  - intros [= <-]. eapply gateway_result_raises, Eg.
Qed.



(** *** Failures of the gateway and of single records *)

(** X9: a gateway call that fails fails the request with the same
    exception and nothing more is sent: after a failed native-coin call
    the token query is never made, and after a failed token call the
    native-coin items already normalized are dropped. *)
Theorem gateway_failure_fails_request (net : upstream) (address : pystr) (N : Z)
    (log : list value) :
  _is_valid_address address = true -> 1 <= N <= 200 ->
  (forall e log1,
      _etherscan net (txlist_params address N) log = (Raise e, log1) ->
      get_transactions net address (Some N) log = (Raise e, log1)) /\
  (forall body its eth_items e log1 log2,
      _etherscan net (txlist_params address N) log = (Ok body, log1) ->
      records_of body = Ok its ->
      mapM (_normalize_eth_item address) its = Ok eth_items ->
      _etherscan net (tokentx_params address N) log1 = (Raise e, log2) ->
      get_transactions net address (Some N) log = (Raise e, log2)).
Proof.
  intros Hv HN. unfold get_transactions, query_limit.
  replace ((N <? 1) || (200 <? N)) with false
    by (symmetry; apply orb_false_iff; split; apply Z.ltb_ge; lia).
  unfold bindE at 1. unfold lift at 1. rewrite Hv. cbn [negb].
  unfold bindE, lift. split.
  - intros e log1 H. now rewrite H.
  - intros body its eth e log1 log2 H1 Hr Hm H2. rewrite H1.
    unfold records_of in Hr.
    destruct (py_get body "result" (VList [])) as [r|]; [|discriminate Hr].
    cbn [bind] in Hr. now rewrite Hr, Hm, H2.
Qed.

Lemma gateway_failure_fails_request_witness :
  get_transactions unreachable_net sample_address (Some 25) [] =
  (Raise Unhandled, [with_apikey (txlist_params sample_address 25)]).
Proof.
  apply (proj1 (gateway_failure_fails_request unreachable_net sample_address 25 []
                  ltac:(vm_compute; reflexivity) ltac:(lia))).
  vm_compute. reflexivity.
Defined.

Lemma mapM_raise {A B : Type} (f : A -> result B) (l : list A) (x : A) (e0 : exn) :
  In x l -> f x = Raise e0 -> exists e, mapM f l = Raise e.
Proof.
  intros Hin Hx. induction l as [|a l IH]; [contradiction|].
  cbn [mapM]. destruct Hin as [-> | Hin].
  - rewrite Hx. now exists e0.
  - destruct (f a) as [b|e]; cbn [bind]; [|now exists e].
    destruct (IH Hin) as [e ->]. now exists e.
Qed.



(** *** Requests that are answered *)

Lemma translate_no_transactions (data : value) (message : pystr) :
  status_message data "0" message -> prefix_ci "no transactions" message ->
  translate_body data = Ok (VDict [(lit "status", VStr "1"); (lit "result", VList [])]).
Proof.
  intros Hsm Hp. rewrite (translate_body_eq _ _ _ Hsm).
  apply startswith_lower_spec in Hp; [|reflexivity].
  destruct (str_eqb message "NOTOK") eqn:En.
  - apply str_eqb_eq in En. subst message. discriminate Hp.
  - rewrite Hp. now rewrite andb_false_r.
Qed.

(** X10: when the explorer answers both queries with status "0" and a
    message that starts with "no transactions" up to case, the request is
    answered, with the empty feed: no item, [returned] 0 and both counts
    0. *)
Theorem no_activity_empty_feed (net : upstream) (address : pystr) (N : Z)
    (q1 q2 b1 b2 : value) (m1 m2 : pystr) (log : list value) :
  _is_valid_address address = true -> 1 <= N <= 200 ->
  answers net (txlist_params address N) q1 b1 ->
  status_message b1 "0" m1 -> prefix_ci "no transactions" m1 ->
  answers net (tokentx_params address N) q2 b2 ->
  status_message b2 "0" m2 -> prefix_ci "no transactions" m2 ->
  get_transactions net address (Some N) log =
  (Ok (VDict [(lit "address", VStr address);
              (lit "returned", VInt 0);
              (lit "counts", VDict [(lit "ETH", VInt 0); (lit "ERC20", VInt 0)]);
              (lit "items", VList [])]),
   log ++ [q1; q2]).
Proof.
  intros Hv HN A1 S1 P1 A2 S2 P2.
  rewrite (get_transactions_fetched net address N q1 q2 [] [] log Hv HN).
  - rewrite merge_feed_eq by (try constructor; lia).
    cbn [app]. change (sorted_feed []) with (@nil value).
    now rewrite firstn_nil.
  - exists b1, b2, (VDict [(lit "status", VStr "1"); (lit "result", VList [])]),
           (VDict [(lit "status", VStr "1"); (lit "result", VList [])]), [], [].
    exact (conj A1 (conj (translate_no_transactions _ _ S1 P1)
            (conj eq_refl (conj eq_refl
              (conj A2 (conj (translate_no_transactions _ _ S2 P2)
                (conj eq_refl eq_refl))))))).
Qed.

Lemma no_activity_empty_feed_witness :
  get_transactions empty_net sample_address (Some 25) [] =
  (Ok (VDict [(lit "address", VStr sample_address);
              (lit "returned", VInt 0);
              (lit "counts", VDict [(lit "ETH", VInt 0); (lit "ERC20", VInt 0)]);
              (lit "items", VList [])]),
   [] ++ [with_apikey (txlist_params sample_address 25);
          with_apikey (tokentx_params sample_address 25)]).
Proof.
  assert (Hp : prefix_ci "no transactions" "No transactions found")
    by (exists (lit "No transactions"), (lit " found"); split; reflexivity).
  apply (no_activity_empty_feed empty_net sample_address 25
           (with_apikey (txlist_params sample_address 25))
           (with_apikey (tokentx_params sample_address 25))
           no_transactions_body no_transactions_body
           "No transactions found" "No transactions found" []).
  - vm_compute. reflexivity.
  - lia.
  - split; reflexivity.
  - split; reflexivity.
  - exact Hp.
  - split; reflexivity.
  - split; reflexivity.
  - exact Hp.
Defined.

Lemma In_skipn {A : Type} (n : nat) (l : list A) (x : A) :
  In x (skipn n l) -> In x l.
Proof.
  intros H. rewrite <- (firstn_skipn n l). apply in_or_app. now right.
Qed.

Lemma sorted_firstn_skipn {A : Type} (R : A -> A -> Prop) (l : list A) (n : nat)
    (x y : A) :
  StronglySorted R l -> In x (firstn n l) -> In y (skipn n l) -> R x y.
Proof.
  intros Hs. revert n. induction Hs as [|a l Hs IH Ha]; intros n Hx Hy.
  - destruct n; contradiction.
  - destruct n as [|n]; [contradiction|].
    cbn [firstn skipn] in Hx, Hy. destruct Hx as [-> | Hx].
    + rewrite Forall_forall in Ha. apply Ha. eapply In_skipn, Hy.
    + now apply (IH n).
Qed.

Lemma eth_fetch_items (net : upstream) (address : pystr) (N : Z) (eth_items : list value) :
  eth_fetch net address N = Ok eth_items -> Forall is_item eth_items.
Proof.
  unfold eth_fetch. intros H.
  destruct (gateway_result _ _) as [body|]; [cbn [bind] in H|discriminate H].
  destruct (records_of body) as [its|]; [cbn [bind] in H|discriminate H].
  eapply Forall_impl; [|exact (mapM_Forall _ _ _ H)].
  intros x [it Hx]. eapply eth_item_is_item, Hx.
Qed.

Lemma erc20_fetch_items (net : upstream) (address : pystr) (N : Z) (erc20_items : list value) :
  erc20_fetch net address N = Ok erc20_items -> Forall is_item erc20_items.
Proof.
  unfold erc20_fetch. intros H.
  destruct (gateway_result _ _) as [body|]; [cbn [bind] in H|discriminate H].
  destruct (records_of body) as [its|]; [cbn [bind] in H|discriminate H].
  eapply Forall_impl; [|exact (mapM_Forall _ _ _ H)].
  intros x [it Hx]. eapply erc20_item_is_item, Hx.
Qed.

Lemma get_transactions_answer (net : upstream) (address : pystr) (N : Z)
    (eth_items erc20_items : list value) (log : list value) :
  _is_valid_address address = true -> 1 <= N <= 200 ->
  eth_fetch net address N = Ok eth_items ->
  erc20_fetch net address N = Ok erc20_items ->
  fst (get_transactions net address (Some N) log) =
  Ok (feed address (firstn (Z.to_nat N) (sorted_feed (eth_items ++ erc20_items)))).
Proof.
  intros Hv HN He Hr. rewrite get_transactions_eq. unfold query_limit.
  replace ((N <? 1) || (200 <? N)) with false
    by (symmetry; apply orb_false_iff; split; apply Z.ltb_ge; lia).
  rewrite Hv, He. cbv zeta. rewrite Hr. cbn [fst].
  apply merge_feed_eq; [lia|].
  apply Forall_app. split; [eapply eth_fetch_items | eapply erc20_fetch_items]; eassumption.
Qed.

(** X11: an answered request returns [min N total] of the [total] items it
    normalized, says so under [returned], and leaves out only items that
    are at most as recent as every item it returns. *)
Theorem feed_top_n (net : upstream) (address : pystr) (N : Z)
    (eth_items erc20_items : list value) (log : list value) :
  _is_valid_address address = true -> 1 <= N <= 200 ->
  eth_fetch net address N = Ok eth_items ->
  erc20_fetch net address N = Ok erc20_items ->
  exists latest rest,
    fst (get_transactions net address (Some N) log) = Ok (feed address latest) /\
    Permutation (latest ++ rest) (eth_items ++ erc20_items) /\
    Z.of_nat (length latest)
      = Z.min N (Z.of_nat (length eth_items) + Z.of_nat (length erc20_items)) /\
    py_get (feed address latest) "returned" VNone
      = Ok (VInt (Z.min N (Z.of_nat (length eth_items) + Z.of_nat (length erc20_items)))) /\
    (forall x y, In x latest -> In y rest -> timestamp_of y <= timestamp_of x).
Proof.
  intros Hv HN He Hr.
  set (sorted := sorted_feed (eth_items ++ erc20_items)).
  exists (firstn (Z.to_nat N) sorted), (skipn (Z.to_nat N) sorted).
  assert (Hlen : Z.of_nat (length (firstn (Z.to_nat N) sorted))
                 = Z.min N (Z.of_nat (length eth_items) + Z.of_nat (length erc20_items))).
  { rewrite length_firstn. unfold sorted.
    rewrite (Permutation_length (sorted_feed_perm (eth_items ++ erc20_items))).
    rewrite length_app. lia. }
  split; [now apply get_transactions_answer|].
  split; [rewrite firstn_skipn; apply sorted_feed_perm|].
  split; [exact Hlen|].
  split; [cbn; now rewrite Hlen|].
  intros x y Hx Hy.
  exact (sorted_firstn_skipn newer_first sorted (Z.to_nat N) x y
           (sorted_feed_sorted _) Hx Hy).
Qed.

Lemma feed_top_n_witness :
  exists latest rest,
    fst (get_transactions sample_net sample_address (Some 2) [])
      = Ok (feed sample_address latest) /\
    Permutation (latest ++ rest) ([x100; x50] ++ [x80]) /\
    Z.of_nat (length latest) = Z.min 2 (Z.of_nat 2 + Z.of_nat 1).
Proof.
  destruct (feed_top_n sample_net sample_address 2 [x100; x50] [x80] [])
    as (latest & rest & H1 & H2 & H3 & _).
  - vm_compute. reflexivity.
  - lia.
  - vm_compute. reflexivity.
  - vm_compute. reflexivity.
  - exists latest, rest. auto.
Defined.

Lemma insert_desc_front (x : Z * value) (l : list (Z * value)) :
  Forall (fun y => fst y <= fst x) l -> insert_desc x l = x :: l.
Proof.
  intros H. destruct l as [|y l]; [reflexivity|].
  cbn [insert_desc]. inversion_clear H as [|? ? Hy _].
  now replace (fst x <? fst y) with false by (symmetry; apply Z.ltb_ge; lia).
Qed.

(** The sort moves nothing in a list that is already in decreasing
    order. *)
Lemma sorted_feed_fixed (l : list value) :
  StronglySorted newer_first l -> sorted_feed l = l.
Proof.
  intros Hs. unfold sorted_feed.
  assert (H : sort_desc (List.combine (map timestamp_of l) l)
              = List.combine (map timestamp_of l) l).
  { induction Hs as [|x l Hs IH Hx]; [reflexivity|].
    cbn [map List.combine]. unfold sort_desc in *. cbn [fold_right]. rewrite IH.
    apply insert_desc_front. rewrite combine_map_self.
    apply Forall_map. eapply Forall_impl; [|exact Hx]. intros y Hy. exact Hy. }
  rewrite H, combine_map_self, map_map. cbn [snd]. apply map_id.
Qed.

(** X16: when the native-coin items followed by the token items are
    already in decreasing order of time, the request returns the first [N]
    of them in exactly that order: the sort moves nothing. *)
Theorem feed_keeps_sorted_order (net : upstream) (address : pystr) (N : Z)
    (eth_items erc20_items : list value) (log : list value) :
  _is_valid_address address = true -> 1 <= N <= 200 ->
  eth_fetch net address N = Ok eth_items ->
  erc20_fetch net address N = Ok erc20_items ->
  StronglySorted newer_first (eth_items ++ erc20_items) ->
  fst (get_transactions net address (Some N) log) =
  Ok (feed address (firstn (Z.to_nat N) (eth_items ++ erc20_items))).
Proof.
  intros Hv HN He Hr Hs.
  rewrite (get_transactions_answer net address N eth_items erc20_items log Hv HN He Hr).
  now rewrite sorted_feed_fixed.
Qed.

Lemma feed_keeps_sorted_order_witness :
  fst (get_transactions native_only_net sample_address (Some 25) []) =
  Ok (feed sample_address (firstn (Z.to_nat 25) ([x100; x50] ++ []))).
Proof.
  apply (feed_keeps_sorted_order native_only_net sample_address 25 [x100; x50] [] []).
  - vm_compute. reflexivity.
  - lia.
  - vm_compute. reflexivity.
  - vm_compute. reflexivity.
  - repeat constructor; unfold newer_first; vm_compute; discriminate.
Defined.

(** ** The items *)

(** One successful step of a computation that returned. *)
Tactic Notation "step" hyp(H) ident(x) ident(E) :=
  match type of H with
  | bind ?m _ = Ok _ => destruct m as [x|] eqn:E; [cbn [bind] in H | discriminate H]
  end.

Lemma _direction_values (me f t : value) (dir : pystr) :
  _direction me f t = Ok dir ->
  dir = lit "out" \/ dir = lit "in" \/ dir = lit "other".
Proof.
  unfold _direction. intros H.
  step H a Ea. step H b Eb.
  destruct (str_eqb b a); [injection H as <-; auto|].
  step H c Ec.
  destruct (str_eqb c a); injection H as <-; auto.
Qed.

Lemma eth_item_consistent (me : pystr) (it item : value) :
  _normalize_eth_item me it = Ok item -> item_consistent it item.
Proof.
  intros H. unfold _normalize_eth_item in H.
  step H t Et. step H ts Ets. step H e Ee. step H st Est. step H f Ef.
  step H fn Efn. step H time Etime. step H hash Ehash. step H from Efrom.
  step H to Eto. step H from' Efrom'. step H to' Eto'. step H dir Edir.
  step H raw Eraw. step H amount Eamount.
  injection H as <-.
  destruct (_iso_utc_text ts time Etime) as (_ & _ & _ & Hread).
  exists ts, time, dir, amount, hash.
  split; [reflexivity|]. split; [reflexivity|]. split; [exact Hread|].
  split; [reflexivity|]. split; [exact (_direction_values _ _ _ _ Edir)|].
  split; [reflexivity|]. split; [exact (_fmt_amount_numeral raw 18 _ Eamount)|].
  split; [exact Ehash|]. split; [reflexivity|]. split; [reflexivity|].
  rewrite Efrom, Eto. split; reflexivity.
Qed.

Lemma erc20_item_consistent (me : pystr) (it item : value) :
  _normalize_erc20_item me it = Ok item -> item_consistent it item /\ token_fields it item.
Proof.
  intros H. unfold _normalize_erc20_item in H.
  step H t Et. step H ts Ets. step H td Etd. step H decimals Edec. step H sym Esym.
  step H time Etime. step H hash Ehash. step H from Efrom.
  step H to Eto. step H from' Efrom'. step H to' Eto'. step H dir Edir.
  step H raw Eraw. step H amount Eamount. step H contract Econtract.
  injection H as <-.
  destruct (_iso_utc_text ts time Etime) as (_ & _ & _ & Hread).
  split.
  - exists ts, time, dir, amount, hash.
    split; [reflexivity|]. split; [reflexivity|]. split; [exact Hread|].
    split; [reflexivity|]. split; [exact (_direction_values _ _ _ _ Edir)|].
    split; [reflexivity|]. split; [exact (_fmt_amount_numeral _ _ _ Eamount)|].
    split; [exact Ehash|]. split; [reflexivity|]. split; [reflexivity|].
    rewrite Efrom, Eto. split; reflexivity.
  - exists td, decimals, sym, raw, amount.
    split; [exact Etd|]. split; [exact Edec|].
    split.
    { intros Htd. unfold py_or in Edec. rewrite Htd in Edec. now injection Edec. }
    split; [exact Eraw|]. split; [exact Eamount|]. split; [reflexivity|].
    split; [exact Esym|]. split; [reflexivity|].
    rewrite Econtract. repeat split; reflexivity.
Qed.

(** X13: every item, of either category, agrees with the record it was
    made from: [time_utc] is a text that reads back to the integer under
    [timestamp], the direction is one of "out", "in" and "other", the amount
    is a plain numeral, [hash], [from] and [to] are the record's own, and
    the link is the explorer's transaction page of the hash. *)
Theorem items_consistent (me : pystr) (it item : value) :
  _normalize_eth_item me it = Ok item \/ _normalize_erc20_item me it = Ok item ->
  item_consistent it item.
Proof.
  intros [H | H].
  - eapply eth_item_consistent, H.
  - eapply erc20_item_consistent, H.
Qed.

Lemma items_consistent_witness :
  _normalize_eth_item sample_address (native_record "100") = Ok x100 /\
  item_consistent (native_record "100") x100.
Proof.
  assert (H : _normalize_eth_item sample_address (native_record "100") = Ok x100)
    by (vm_compute; reflexivity).
  split; [exact H|].
  exact (items_consistent sample_address (native_record "100") x100 (or_introl H)).
Defined.

(** X14: a token item is scaled by the record's own [tokenDecimal], read
    as an integer, and by 0 when the record has none or an empty one; its
    symbol is the record's [tokenSymbol], or "TOKEN" when that is missing or
    empty; it carries the record's [contractAddress] under [tokenContract],
    the type "ERC20", and no [status]. *)
Theorem token_item_fields (me : pystr) (it item : value) :
  _normalize_erc20_item me it = Ok item -> token_fields it item.
Proof.
  intros H. eapply erc20_item_consistent, H.
Qed.

Lemma token_item_fields_witness :
  _normalize_erc20_item sample_address bare_token_record
    = Ok (item_or_none (_normalize_erc20_item sample_address bare_token_record)) /\
  token_fields bare_token_record
    (item_or_none (_normalize_erc20_item sample_address bare_token_record)) /\
  py_getitem (item_or_none (_normalize_erc20_item sample_address bare_token_record))
    "symbol" = Ok (VStr "TOKEN") /\
  py_getitem (item_or_none (_normalize_erc20_item sample_address bare_token_record))
    "amount" = Ok (VStr "1234567").
Proof.
  assert (H : _normalize_erc20_item sample_address bare_token_record
              = Ok (item_or_none (_normalize_erc20_item sample_address bare_token_record)))
    by (vm_compute; reflexivity).
  split; [exact H|].
  split; [exact (token_item_fields sample_address bare_token_record _ H)|].
  split; vm_compute; reflexivity.
Defined.

(** X15: a record whose sender and recipient are both missing, null or
    empty gets the direction "other" for every non-empty queried address
    (and "out" for the empty one, which then equals the missing sender). *)
Theorem direction_absent (me : pystr) (f t : value) :
  truthy f = false -> truthy t = false ->
  _direction (VStr me) f t = Ok (match me with [] => lit "out" | _ :: _ => lit "other" end).
Proof.
  intros Hf Ht. unfold _direction, or_empty_lower, py_or. rewrite Hf, Ht.
  destruct me; reflexivity.
Qed.

Lemma direction_absent_witness :
  _direction (VStr sample_address) VNone (VStr []) = Ok (lit "other").
Proof.
  exact (direction_absent sample_address VNone (VStr []) eq_refl eq_refl).
Defined.
